(** * bybit_grid_bot: the adaptive grid engine and the hedge engine

    A shallow embedding of the decision logic of the repository:
    - [GridBot]: the class [ProfitableGridTradingBot], present in three
      variants ([src/unnamed/part_000], [src/unnamed/part_001] and
      [src/server.js]);
    - [HedgeBot]: [closeTrade] and [mainLoop] of the multi-symbol
      directional bot with hedging (first half of [src/unnamed/part_000]).

    JavaScript numbers are modelled as exact rationals ([Q]): no rounding,
    no [NaN], no [Infinity].  A quotient whose divisor is zero is outside
    the model: the statements about the value of such a quotient assume
    the divisor to be non-zero, and the invariants of the hedge bot hold
    whatever the comparisons on a profit yield.  [Math.sqrt] and the
    indicators of the package [technicalindicators] are parameters, and so
    are the answers of the exchange. *)

From Stdlib Require Import QArith Qminmax Qabs Qround ZArith List Ascii String Lia.
From Stdlib Require Import Sorted Permutation.
From Stdlib Require Import Lqa.
From stdpp Require Import gmap strings.
Import ListNotations.

(** ** JavaScript primitives used by the sources *)

Module JS.
Local Open Scope Q_scope.

(** [a < b], [a <= b], [a > b], [a >= b] on numbers. *)
Definition ltb (a b : Q) : bool := negb (Qle_bool b a).
Definition leb (a b : Q) : bool := Qle_bool a b.
Definition gtb (a b : Q) : bool := ltb b a.
Definition geb (a b : Q) : bool := leb b a.

(** Truthiness of a number: [0] is falsy. *)
Definition truthy (x : Q) : bool := negb (Qeq_bool x 0).

(** Truthiness of a field that may be [null] or [undefined]. *)
Definition truthy_opt (x : option Q) : bool :=
  match x with
  | Some v => truthy v
  | None => false
  end.

(** [x || d] on a numeric field that may be absent. *)
Definition or_default (x : option Q) (d : Q) : Q :=
  match x with
  | Some v => if truthy v then v else d
  | None => d
  end.

(** Truthiness of a string: the empty string is falsy. *)
Definition truthy_str (s : string) : bool :=
  match s with
  | EmptyString => false
  | _ => true
  end.

Definition Math_max (a b : Q) : Q := Qmax a b.
Definition Math_min (a b : Q) : Q := Qmin a b.
Definition Math_abs (a : Q) : Q := Qabs a.
Definition Math_floor (a : Q) : Z := Qfloor a.

(** [Math.max(...xs)] and [Math.min(...xs)]; the sources only spread
    non-empty arrays (on an empty one JavaScript yields an infinity). *)
Definition Math_max_list (xs : list Q) : Q :=
  match xs with
  | [] => 0
  | x :: r => fold_left Math_max r x
  end.

Definition Math_min_list (xs : list Q) : Q :=
  match xs with
  | [] => 0
  | x :: r => fold_left Math_min r x
  end.

(** [xs.reduce((a, b) => a + b, 0)]. *)
Definition sum (xs : list Q) : Q := fold_left Qplus xs 0.

(** [Number.parseFloat(x.toFixed(d))]: the closest multiple of [10^-d],
    the larger one in magnitude on a tie. *)
Definition toFixed (d : nat) (x : Q) : Q :=
  let s := inject_Z (10 ^ Z.of_nat d) in
  if ltb x 0
  then - (inject_Z (Qfloor ((- x) * s + (1 # 2))) / s)
  else inject_Z (Qfloor (x * s + (1 # 2))) / s.

(** [xs.slice(start, end)], with an absent [end] as [None]: negative
    indexes count from the end, and both are clamped to the array. *)
Definition slice {A : Type} (start : Z) (stop : option Z) (xs : list A) : list A :=
  let len := Z.of_nat (length xs) in
  let rel (i : Z) := if (i <? 0)%Z then Z.max (len + i) 0 else Z.min i len in
  let k := rel start in
  let final := match stop with Some e => rel e | None => len end in
  firstn (Z.to_nat (final - k)) (skipn (Z.to_nat k) xs).

(** The outcome of a call that may throw. *)
Inductive Outcome (A : Type) : Type :=
  | Returned (a : A)
  | Thrown (message : string).
Arguments Returned {A} a.
Arguments Thrown {A} message.

End JS.

(** ** The grid bot: class [ProfitableGridTradingBot] *)

Module GridBot.
Import JS.
Local Open Scope Q_scope.

(** The three files that carry a variant of the class. *)
Inductive SourceFile : Type := part_000 | part_001 | server_js.

(** The values of [marketCondition], and of the classifier's result. *)
Inductive Regime : Type := BULL | BEAR | SIDEWAYS | VOLATILE | UNKNOWN.

(** The fields of [CONFIG] read by the modelled methods.  [GRID_SPACING]
    exists in [part_000] only; the two market thresholds exist in
    [part_001] and [server.js] only ([part_000] writes [0.02] and [-0.02]
    in the code). *)
Record Config : Type := {
  BASE_INVESTMENT : Q;
  GRID_LEVELS : nat;
  GRID_SPACING : Q;
  ATR_PERIOD : nat;
  ATR_MULTIPLIER : Q;
  MIN_GRID_SPACING : Q;
  MAX_GRID_SPACING : Q;
  REBALANCE_THRESHOLD : Q;
  MAX_POSITION_SIZE : Q;
  VOLATILITY_THRESHOLD : Q;
  REBALANCE_COOLDOWN : Z;
  BULL_MARKET_THRESHOLD : Q;
  BEAR_MARKET_THRESHOLD : Q
}.

(** One candle of [getKline]: the exchange sends an array whose indexes
    2, 3 and 4 are high, low and close. *)
Record Kline : Type := {
  k_high : Q;
  k_low : Q;
  k_close : Q
}.

(** The response of [getKline]; [list] may be absent. *)
Record KlineResponse : Type := {
  retCode : Z;
  result_list : option (list Kline)
}.

(** An entry of [gridLevels]. *)
Record GridLevel : Type := {
  level : nat;
  buyPrice : Q;
  sellPrice : Q;
  quantity : Q;
  active : bool;
  priceDistance : Q
}.

(** The instance fields written or read by the modelled methods. *)
Record Bot : Type := {
  gridLevels : list GridLevel;
  currentPrice : Q;
  atr : Q;
  lastRebalance : Z;
  priceHistory : list Q;
  marketCondition : Regime;
  priceChangeBuffer : list Q;
  volatilityIndex : Q;
  useDemo : bool
}.

(** The constructor, at time [now]; [useDemo] is absent in [part_000],
    false in [part_001] and set from the configuration in [server.js]. *)
Definition constructor (now : Z) (demo : bool) : Bot := {|
  gridLevels := [];
  currentPrice := 0;
  atr := 0;
  lastRebalance := now;
  priceHistory := [];
  marketCondition := SIDEWAYS;
  priceChangeBuffer := [];
  volatilityIndex := 0;
  useDemo := demo
|}.

Definition set_atr (a : Q) (b : Bot) : Bot := {|
  gridLevels := gridLevels b; currentPrice := currentPrice b; atr := a;
  lastRebalance := lastRebalance b; priceHistory := priceHistory b;
  marketCondition := marketCondition b;
  priceChangeBuffer := priceChangeBuffer b;
  volatilityIndex := volatilityIndex b; useDemo := useDemo b |}.

Definition set_volatilityIndex (v : Q) (b : Bot) : Bot := {|
  gridLevels := gridLevels b; currentPrice := currentPrice b; atr := atr b;
  lastRebalance := lastRebalance b; priceHistory := priceHistory b;
  marketCondition := marketCondition b;
  priceChangeBuffer := priceChangeBuffer b;
  volatilityIndex := v; useDemo := useDemo b |}.

Definition set_marketCondition (r : Regime) (b : Bot) : Bot := {|
  gridLevels := gridLevels b; currentPrice := currentPrice b; atr := atr b;
  lastRebalance := lastRebalance b; priceHistory := priceHistory b;
  marketCondition := r;
  priceChangeBuffer := priceChangeBuffer b;
  volatilityIndex := volatilityIndex b; useDemo := useDemo b |}.

Definition set_gridLevels (g : list GridLevel) (b : Bot) : Bot := {|
  gridLevels := g; currentPrice := currentPrice b; atr := atr b;
  lastRebalance := lastRebalance b; priceHistory := priceHistory b;
  marketCondition := marketCondition b;
  priceChangeBuffer := priceChangeBuffer b;
  volatilityIndex := volatilityIndex b; useDemo := useDemo b |}.

Definition set_lastRebalance (t : Z) (b : Bot) : Bot := {|
  gridLevels := gridLevels b; currentPrice := currentPrice b; atr := atr b;
  lastRebalance := t; priceHistory := priceHistory b;
  marketCondition := marketCondition b;
  priceChangeBuffer := priceChangeBuffer b;
  volatilityIndex := volatilityIndex b; useDemo := useDemo b |}.

(** [arr.push(x); if (arr.length > cap) arr.shift()]. *)
Definition push_bounded (cap : nat) (x : Q) (xs : list Q) : list Q :=
  let ys := xs ++ [x] in
  if (cap <? length ys)%nat then tl ys else ys.

(** The state change of a price sample [newPrice], shared by the live and
    the demo price paths. *)
Definition recordPrice (newPrice : Q) (b : Bot) : Bot :=
  let buffer :=
    if gtb (currentPrice b) 0
    then push_bounded 20 ((newPrice - currentPrice b) / currentPrice b)
                      (priceChangeBuffer b)
    else priceChangeBuffer b in
  {| gridLevels := gridLevels b; currentPrice := newPrice; atr := atr b;
     lastRebalance := lastRebalance b;
     priceHistory := push_bounded 200 newPrice (priceHistory b);
     marketCondition := marketCondition b;
     priceChangeBuffer := buffer;
     volatilityIndex := volatilityIndex b; useDemo := useDemo b |}.

Definition set_useDemo (d : bool) (b : Bot) : Bot := {|
  gridLevels := gridLevels b; currentPrice := currentPrice b; atr := atr b;
  lastRebalance := lastRebalance b; priceHistory := priceHistory b;
  marketCondition := marketCondition b;
  priceChangeBuffer := priceChangeBuffer b;
  volatilityIndex := volatilityIndex b; useDemo := d |}.

(** [getDemoPrice] of [server.js], given the draw of [Math.random()]. *)
Definition getDemoPrice (random : Q) (b : Bot) : Q * Bot :=
  let demoPrice :=
    if gtb (currentPrice b) 0
    then currentPrice b + (random - 0.5) * (currentPrice b * 0.01)
    else 45000 + (random - 0.5) * 2000 in
  (demoPrice, recordPrice demoPrice b).

(** [getCurrentPrice], given the ticker's answer: [Some p] is a valid
    response whose last price parses to [p], [None] any other answer or a
    failed request.  [part_000] and [part_001] throw on [None];
    [server.js] switches to demo mode instead. *)
Definition getCurrentPrice (v : SourceFile) (ticker : option Q) (random : Q)
    (b : Bot) : Outcome Q * Bot :=
  match v with
  | server_js =>
      if useDemo b
      then let '(p, b') := getDemoPrice random b in (Returned p, b')
      else
        match ticker with
        | Some newPrice => (Returned newPrice, recordPrice newPrice b)
        | None =>
            let '(p, b') := getDemoPrice random (set_useDemo true b) in
            (Returned p, b')
        end
  | _ =>
      match ticker with
      | Some newPrice => (Returned newPrice, recordPrice newPrice b)
      | None =>
          (Thrown match v with
                  | part_001 => "Invalid price data received"
                  | _ => "Invalid price data"
                  end, b)
      end
  end.

Section WithSqrt.

(** [Math.sqrt], which leaves the rationals. *)
Variable Math_sqrt : Q -> Q.

Definition calculateVolatilityIndex (b : Bot) : Bot :=
  if (length (priceChangeBuffer b) <? 10)%nat then b
  else
    let variance :=
      fold_left (fun sum ch => sum + ch * ch) (priceChangeBuffer b) 0
      / inject_Z (Z.of_nat (length (priceChangeBuffer b))) in
    set_volatilityIndex (Math_sqrt variance) b.

(** The true range of bar [cur] after bar [prev]. *)
Definition trueRange (prev cur : Kline) : Q :=
  Math_max (Math_max (k_high cur - k_low cur)
                     (Math_abs (k_high cur - k_close prev)))
           (Math_abs (k_low cur - k_close prev)).

(** The loop [for (let i = 1; i < klines.length; i++) trSum += tr]. *)
Definition trSum (klines : list Kline) : Q :=
  fold_left (fun acc pc => acc + trueRange (fst pc) (snd pc))
            (combine klines (tl klines)) 0.

(** The guard on a kline response, and the ATR of an accepted one. *)
Definition validKlines (cfg : Config) (resp : KlineResponse) : option (list Kline) :=
  match result_list resp with
  | Some l =>
      if (retCode resp =? 0)%Z && (ATR_PERIOD cfg <? length l)%nat
      then Some l else None
  | None => None
  end.

Definition intervalATR (cfg : Config) (l : list Kline) : Q :=
  trSum (rev l) / inject_Z (Z.of_nat (ATR_PERIOD cfg)).

(** [calculateATR] of [part_000]: one request, interval 15. *)
Definition calculateATR_000 (cfg : Config) (getKline : string -> Outcome KlineResponse)
    (b : Bot) : Outcome Q * Bot :=
  match getKline "15"%string with
  | Thrown msg => (Thrown msg, b)
  | Returned resp =>
      match validKlines cfg resp with
      | Some l =>
          let b' := calculateVolatilityIndex (set_atr (intervalATR cfg l) b) in
          (Returned (atr b'), b')
      | None => (Thrown "Invalid ATR data", b)
      end
  end.

(** The loop over the intervals 1, 5 and 15 of [part_001] and [server.js]:
    the sum of the ATRs of the accepted responses and their number. *)
Definition atrOverIntervals (cfg : Config) (getKline : string -> Outcome KlineResponse)
    : Q * nat :=
  fold_left
    (fun acc interval =>
       match getKline interval with
       | Returned resp =>
           match validKlines cfg resp with
           | Some l => (fst acc + intervalATR cfg l, S (snd acc))
           | None => acc
           end
       | Thrown _ => acc
       end)
    ["1"%string; "5"%string; "15"%string] (0, 0%nat).

(** [calculateATR] of [part_001]. *)
Definition calculateATR_001 (cfg : Config) (getKline : string -> Outcome KlineResponse)
    (b : Bot) : Outcome Q * Bot :=
  let '(atrSum, validCalculations) := atrOverIntervals cfg getKline in
  if (0 <? validCalculations)%nat
  then
    let b' := calculateVolatilityIndex
                (set_atr (atrSum / inject_Z (Z.of_nat validCalculations)) b) in
    (Returned (atr b'), b')
  else (Thrown "No valid ATR calculations", b).

(** [calculateDemoATR] of [server.js]. *)
Definition calculateDemoATR (b : Bot) : Q * Bot :=
  let a :=
    if (10 <=? length (priceHistory b))%nat
    then
      let recentPrices := slice (-10) None (priceHistory b) in
      (Math_max_list recentPrices - Math_min_list recentPrices) / 2
    else currentPrice b * 0.01 in
  let b' := calculateVolatilityIndex (set_atr a b) in
  (atr b', b').

(** [calculateATR] of [server.js]: the demo value in demo mode, and
    whenever the live computation throws. *)
Definition calculateATR_server (cfg : Config) (getKline : string -> Outcome KlineResponse)
    (b : Bot) : Outcome Q * Bot :=
  if useDemo b
  then let '(a, b') := calculateDemoATR b in (Returned a, b')
  else
    match calculateATR_001 cfg getKline b with
    | (Returned a, b') => (Returned a, b')
    | (Thrown _, _) => let '(a, b') := calculateDemoATR b in (Returned a, b')
    end.

Definition calculateATR (v : SourceFile) (cfg : Config)
    (getKline : string -> Outcome KlineResponse) (b : Bot) : Outcome Q * Bot :=
  match v with
  | part_000 => calculateATR_000 cfg getKline b
  | part_001 => calculateATR_001 cfg getKline b
  | server_js => calculateATR_server cfg getKline b
  end.

(** [detectMarketCondition]: the returned tag and the instance after the
    call.  Below 20 samples the method returns before any assignment. *)
Definition bullThreshold (v : SourceFile) (cfg : Config) : Q :=
  match v with
  | part_000 => 0.02
  | _ => BULL_MARKET_THRESHOLD cfg
  end.

Definition bearThreshold (v : SourceFile) (cfg : Config) : Q :=
  match v with
  | part_000 => - 0.02
  | _ => BEAR_MARKET_THRESHOLD cfg
  end.

Definition momentum (history : list Q) : Q :=
  let recent := slice (-10) None history in
  let older := slice (-20) (Some (-10)%Z) history in
  let recentAvg := sum recent / inject_Z (Z.of_nat (length recent)) in
  let olderAvg := sum older / inject_Z (Z.of_nat (length older)) in
  (recentAvg - olderAvg) / olderAvg.

Definition detectMarketCondition (v : SourceFile) (cfg : Config) (b : Bot)
    : Regime * Bot :=
  if (length (priceHistory b) <? 20)%nat then (UNKNOWN, b)
  else
    let m := momentum (priceHistory b) in
    let r :=
      if gtb m (bullThreshold v cfg)
         && ltb (volatilityIndex b) (VOLATILITY_THRESHOLD cfg) then BULL
      else if ltb m (bearThreshold v cfg)
              && ltb (volatilityIndex b) (VOLATILITY_THRESHOLD cfg) then BEAR
      else if gtb (volatilityIndex b) (VOLATILITY_THRESHOLD cfg) then VOLATILE
      else SIDEWAYS in
    (r, set_marketCondition r b).

(** [Math.max(MIN_GRID_SPACING, Math.min(MAX_GRID_SPACING, x))]. *)
Definition clampSpacing (cfg : Config) (x : Q) : Q :=
  Math_max (MIN_GRID_SPACING cfg) (Math_min (MAX_GRID_SPACING cfg) x).

(** The [switch] on [marketCondition] of [calculateDynamicGridSpacing];
    a tag without a [case] leaves the spacing as it is. *)
Definition spacingMultiplier (v : SourceFile) (r : Regime) : Q :=
  match r with
  | BULL => match v with part_000 => 1.2 | _ => 1.3 end
  | BEAR => 0.9
  | VOLATILE => 1.5
  | SIDEWAYS => match v with part_000 => 1 | _ => 0.8 end
  | UNKNOWN => 1
  end.

Definition calculateDynamicGridSpacing (v : SourceFile) (cfg : Config) (b : Bot) : Q :=
  if negb (truthy (atr b)) || negb (truthy (currentPrice b))
  then match v with part_000 => GRID_SPACING cfg | _ => MIN_GRID_SPACING cfg end
  else
    let spacing := clampSpacing cfg (atr b / currentPrice b * 0.8) in
    let spacing := spacing * spacingMultiplier v (marketCondition b) in
    let spacing :=
      match v with
      | part_000 => spacing
      | _ => if gtb (volatilityIndex b) 0.01
             then spacing * (1 + volatilityIndex b * 10)
             else spacing
      end in
    clampSpacing cfg spacing.

(** The [switch] on [marketCondition] of [calculateOrderQuantity]. *)
Definition quantityMultiplier (r : Regime) : Q :=
  match r with
  | VOLATILE => 0.7
  | BULL => 1.1
  | BEAR => 0.9
  | _ => 1
  end.

Definition calculateOrderQuantity (cfg : Config) (b : Bot) (price : Q) : Q :=
  let baseQuantity :=
    BASE_INVESTMENT cfg / inject_Z (Z.of_nat (GRID_LEVELS cfg)) / price in
  let maxQuantity := BASE_INVESTMENT cfg * MAX_POSITION_SIZE cfg / price in
  let adjustedQuantity :=
    Math_min baseQuantity maxQuantity * quantityMultiplier (marketCondition b) in
  Math_max adjustedQuantity 0.001.

(** [gridLevels.sort((a, b) => a.priceDistance - b.priceDistance)]: the
    sort of an array is stable, so its result is the one of a stable
    insertion sort. *)
Fixpoint insertLevel (x : GridLevel) (l : list GridLevel) : list GridLevel :=
  match l with
  | [] => [x]
  | y :: l' =>
      if ltb (priceDistance y) (priceDistance x)
      then y :: insertLevel x l'
      else x :: l
  end.

Definition sortByDistance (l : list GridLevel) : list GridLevel :=
  fold_right insertLevel [] l.

(** The quantities of one round of the loop of [generateGridLevels]. *)
Definition lowerBound (cfg : Config) (b : Bot) : Q :=
  currentPrice b - atr b * ATR_MULTIPLIER cfg.

Definition upperBound (cfg : Config) (b : Bot) : Q :=
  currentPrice b + atr b * ATR_MULTIPLIER cfg.

Definition levelSpacing (cfg : Config) (b : Bot) : Q :=
  (upperBound cfg b - lowerBound cfg b) / inject_Z (Z.of_nat (GRID_LEVELS cfg)).

Definition rawBuyPrice (cfg : Config) (b : Bot) (i : nat) : Q :=
  lowerBound cfg b + levelSpacing cfg b * inject_Z (Z.of_nat i).

Definition distanceFromCenter (b : Bot) (price : Q) : Q :=
  Math_abs (price - currentPrice b) / currentPrice b.

(** The body of the loop: [None] stands for [continue]. *)
Definition gridLevelAt (v : SourceFile) (cfg : Config) (b : Bot) (i : nat)
    : option GridLevel :=
  let spacing := calculateDynamicGridSpacing v cfg b in
  let buy := rawBuyPrice cfg b i in
  let sell := buy * (1 + spacing) in
  let qty := calculateOrderQuantity cfg b buy in
  let dist := distanceFromCenter b buy in
  if ltb dist (spacing * 0.5) then None
  else Some {| level := i;
               buyPrice := toFixed 6 buy;
               sellPrice := toFixed 6 sell;
               quantity := toFixed 8 qty;
               active := false;
               priceDistance := dist |}.

Definition unsortedGridLevels (v : SourceFile) (cfg : Config) (b : Bot)
    : list GridLevel :=
  flat_map (fun i => match gridLevelAt v cfg b i with
                     | Some g => [g]
                     | None => []
                     end)
           (seq 0 (GRID_LEVELS cfg)).

Definition generateGridLevels (v : SourceFile) (cfg : Config) (b : Bot)
    : list GridLevel * Bot :=
  let levels := sortByDistance (unsortedGridLevels v cfg b) in
  (levels, set_gridLevels levels b).

(** [rebalanceGrid] at time [now] with [ordersSize] tracked orders.  The
    exchange calls that place and cancel orders do not touch the fields
    of [Bot]. *)
Definition shouldRebalance (cfg : Config) (ordersSize : nat) (b : Bot)
    (centerLevel : GridLevel) : bool :=
  let priceDeviation :=
    Math_abs (currentPrice b - buyPrice centerLevel) / currentPrice b in
  gtb priceDeviation (REBALANCE_THRESHOLD cfg)
  || gtb (volatilityIndex b) (VOLATILITY_THRESHOLD cfg * 1.5)
  || ltb (inject_Z (Z.of_nat ordersSize))
         (inject_Z (Z.of_nat (GRID_LEVELS cfg)) * 0.3).

Definition rebalanceGrid (v : SourceFile) (cfg : Config)
    (getKline : string -> Outcome KlineResponse) (now : Z) (ordersSize : nat)
    (b : Bot) : Outcome unit * Bot :=
  if (now - lastRebalance b <? REBALANCE_COOLDOWN cfg)%Z then (Returned tt, b)
  else
    match nth_error (gridLevels b)
            (Z.to_nat (Math_floor
                         (inject_Z (Z.of_nat (length (gridLevels b))) / 2))) with
    | None => (Returned tt, b)
    | Some centerLevel =>
        if shouldRebalance cfg ordersSize b centerLevel
        then
          let '(_, b1) := detectMarketCondition v cfg b in
          match calculateATR v cfg getKline b1 with
          | (Thrown msg, b2) => (Thrown msg, b2)
          | (Returned _, b2) =>
              let '(_, b3) := generateGridLevels v cfg b2 in
              (Returned tt, set_lastRebalance now b3)
          end
        else (Returned tt, b)
    end.

(** One round of the [while] loop of [start], as far as it touches the
    fields of [Bot]; a thrown error ends the round in the [catch]. *)
Record Round : Type := {
  ticker : option Q;
  random : Q;
  klines : string -> Outcome KlineResponse;
  now : Z;
  ordersSize : nat
}.

Definition loopRound (v : SourceFile) (cfg : Config) (i : Round) (b : Bot) : Bot :=
  match getCurrentPrice v (ticker i) (random i) b with
  | (Thrown _, b1) => b1
  | (Returned _, b1) =>
      if negb (truthy (currentPrice b1)) then b1
      else
        match calculateATR v cfg (klines i) b1 with
        | (Thrown _, b2) => b2
        | (Returned _, b2) =>
            let '(_, b3) := detectMarketCondition v cfg b2 in
            let b4 :=
              match gridLevels b3 with
              | [] => snd (generateGridLevels v cfg b3)
              | _ => b3
              end in
            snd (rebalanceGrid v cfg (klines i) (now i) (ordersSize i) b4)
        end
  end.

End WithSqrt.

End GridBot.

(** ** The hedge bot: [closeTrade] and [mainLoop] of [part_000] *)

Module HedgeBot.
Import JS.
Local Open Scope Q_scope.
Local Open Scope string_scope.

(** [s.toUpperCase()] on the ASCII strings the bot handles. *)
Definition upperChar (c : ascii) : ascii :=
  let n := nat_of_ascii c in
  if ((97 <=? n) && (n <=? 122))%nat then ascii_of_nat (n - 32) else c.

Fixpoint toUpperCase (s : string) : string :=
  match s with
  | EmptyString => EmptyString
  | String c r => String (upperChar c) (toUpperCase r)
  end.

Definition lowerChar (c : ascii) : ascii :=
  let n := nat_of_ascii c in
  if ((65 <=? n) && (n <=? 90))%nat then ascii_of_nat (n + 32) else c.

Fixpoint toLowerCase (s : string) : string :=
  match s with
  | EmptyString => EmptyString
  | String c r => String (lowerChar c) (toLowerCase r)
  end.

(** The per-symbol entries of [config.SYMBOLS].  The fields read through
    [||] may be absent; the six percentages are read as they are. *)
Record SymbolConfig : Type := {
  GRID_TRAIL_THRESHOLD : option Q;
  CAPITAL : option Q;
  RISK_PERCENT : option Q;
  LEVERAGE : option Q;
  GRID_STEPS : option nat;
  GRID_SPACING : option Q;
  HEDGE_LOSS_PERCENT : Q;
  HEDGE_TP_PERCENT : Q;
  HEDGE_SL_PERCENT : Q;
  MAIN_TP_PERCENT : Q;
  MAIN_PROTECTION_START : Q;
  MAIN_PROTECTION_PERCENT : Q
}.

(** The fields of [config] read by the trading logic; [SYMBOLS] keeps the
    order of its keys, which is the order of [getSymbols()]. *)
Record Config : Type := {
  SYMBOLS : list (string * SymbolConfig);
  BYBIT_API_KEY : string;
  BYBIT_API_SECRET : string;
  DEMO_MODE : bool;
  BOT_RUNNING : bool
}.

Definition MIN_LOT_SIZES : gmap string Q :=
  <["BTCUSDT" := 0.001]> (<["ETHUSDT" := 0.01]> (<["SOLUSDT" := 0.1]>
  (<["XRPUSDT" := 20]> (<["BNBUSDT" := 0.07]> ∅)))).

Definition DEFAULT_MIN_LOT : Q := 0.001.

(** The [orderId] of an opened trade: the exchange's, or [DEMO-<time>]. *)
Inductive OrderId : Type :=
  | ExchangeId (id : string)
  | DemoId (time : Z).

(** A position object, main or hedge.  [side] is a string: ['long'] or
    ['short'] for a main position, ['sell'] or ['buy'] for a hedge (the
    lower-cased order side).  Fields that the object does not carry yet
    are [None]. *)
Record Trade : Type := {
  side : string;
  entryPx : Q;
  size : Q;
  openTime : Z;
  orderId : option OrderId;
  isHedge : bool;
  stopLossPrice : option Q;
  maxPrice : option Q;
  minPrice : option Q
}.

(** An entry of [state.trades]: the closed position and the close data. *)
Record TradeRecord : Type := {
  trade : Trade;
  tradeType : string;
  closeReason : string;
  exitPrice : Q;
  closeTime : Z;
  profitPct : Q
}.

(** The per-symbol state [symbolStates[sym]]. *)
Record SymbolState : Type := {
  trades : list TradeRecord;
  openTrade : option Trade;
  hedgeTrade : option Trade;
  gridAnchor : option Q;
  activeGrid : list Q;
  lastGridMovePx : option Q
}.

(** The state of a symbol without a state file. *)
Definition emptyState : SymbolState := {|
  trades := []; openTrade := None; hedgeTrade := None;
  gridAnchor := None; activeGrid := []; lastGridMovePx := None |}.

(** What the bot does to the outside, in order. *)
Inductive Event : Type :=
  | Order (symbol side : string) (qty : Q)
  | Save (symbol : string)
  | Alert (type symbol event : string).

(** The outside: the number of order requests sent so far and the
    events so far. *)
Record World : Type := {
  calls : nat;
  events : list Event
}.

Definition emit (e : Event) (w : World) : World :=
  {| calls := calls w; events := events w ++ [e] |}.

Definition sendTradeAlert (type symbol event : string) (w : World) : World :=
  emit (Alert type symbol event) w.

Definition saveSymbolState (sym : string) (w : World) : World :=
  emit (Save sym) w.

Definition set_openTrade (t : option Trade) (s : SymbolState) : SymbolState := {|
  trades := trades s; openTrade := t; hedgeTrade := hedgeTrade s;
  gridAnchor := gridAnchor s; activeGrid := activeGrid s;
  lastGridMovePx := lastGridMovePx s |}.

Definition set_hedgeTrade (t : option Trade) (s : SymbolState) : SymbolState := {|
  trades := trades s; openTrade := openTrade s; hedgeTrade := t;
  gridAnchor := gridAnchor s; activeGrid := activeGrid s;
  lastGridMovePx := lastGridMovePx s |}.

Definition push_trade (r : TradeRecord) (s : SymbolState) : SymbolState := {|
  trades := trades s ++ [r]; openTrade := openTrade s;
  hedgeTrade := hedgeTrade s;
  gridAnchor := gridAnchor s; activeGrid := activeGrid s;
  lastGridMovePx := lastGridMovePx s |}.

Definition set_stopLossPrice (p : option Q) (t : Trade) : Trade := {|
  side := side t; entryPx := entryPx t; size := size t;
  openTime := openTime t; orderId := orderId t; isHedge := isHedge t;
  stopLossPrice := p; maxPrice := maxPrice t; minPrice := minPrice t |}.

Definition set_maxPrice (p : option Q) (t : Trade) : Trade := {|
  side := side t; entryPx := entryPx t; size := size t;
  openTime := openTime t; orderId := orderId t; isHedge := isHedge t;
  stopLossPrice := stopLossPrice t; maxPrice := p; minPrice := minPrice t |}.

Definition set_minPrice (p : option Q) (t : Trade) : Trade := {|
  side := side t; entryPx := entryPx t; size := size t;
  openTime := openTime t; orderId := orderId t; isHedge := isHedge t;
  stopLossPrice := stopLossPrice t; maxPrice := maxPrice t; minPrice := p |}.

(** A candle of [fetchKlines]; only [close] and [volume] are read. *)
Record Candle : Type := {
  close : Q;
  volume : Q
}.

(** [recalcGrid]. *)
Definition recalcGrid (anchorPx : Q) (symbolConfig : SymbolConfig) : list Q :=
  let gridLevels :=
    match GRID_STEPS symbolConfig with
    | Some (S n) => S n
    | _ => 5%nat
    end in
  let spacing := or_default (GRID_SPACING symbolConfig) 0.003 in
  map (fun i =>
         let index :=
           (Z.of_nat i - Math_floor (inject_Z (Z.of_nat gridLevels) / 2))%Z in
         toFixed 2 (anchorPx * (1 + inject_Z index * spacing)))
      (seq 0 gridLevels).

(** The profit of a position at a price: the long formula for the side
    ['long'], the short formula for every other side. *)
Definition profitPercent (t : Trade) (px : Q) : Q :=
  if String.eqb (side t) "long"
  then (px - entryPx t) / entryPx t * 100
  else (entryPx t - px) / entryPx t * 100.

Section Engine.

Variable config : Config.

(** The [k]-th order request sent to the exchange: the [orderId] of the
    accepted order, or the error thrown by [placeOrder]. *)
Variable exchange : nat -> Outcome string.

(** The indicators of the package [technicalindicators]: the EMA, RSI and
    SMA series of a period, and the histogram series of the MACD with the
    periods 12, 26 and 9 (an entry may lack its histogram). *)
Variable EMA : nat -> list Q -> list Q.
Variable RSI : nat -> list Q -> list Q.
Variable MACD_histogram : list Q -> list (option Q).
Variable SMA : nat -> list Q -> list Q.

Definition isRealTrade : bool :=
  negb (DEMO_MODE config) && truthy_str (BYBIT_API_KEY config)
  && truthy_str (BYBIT_API_SECRET config).

(** [placeOrder]: one request; the body carries the upper-cased side. *)
Definition placeOrder (symbol side : string) (qty : Q) (w : World)
    : Outcome string * World :=
  (exchange (calls w),
   {| calls := S (calls w);
      events := events w ++ [Order symbol (toUpperCase side) qty] |}).

Definition closeOrder (symbol openSide : string) (qty : Q) (w : World)
    : Outcome string * World :=
  let closeSide := if String.eqb (toUpperCase openSide) "BUY" then "SELL" else "BUY" in
  placeOrder symbol closeSide qty w.

(** [a > b] where either side may be [undefined] or [null] and [b] is not
    [null]: false unless both are numbers. *)
Definition gt_opt (a b : option Q) : bool :=
  match a, b with
  | Some x, Some y => gtb x y
  | _, _ => false
  end.

Definition lt_opt (a b : option Q) : bool :=
  match a, b with
  | Some x, Some y => ltb x y
  | _, _ => false
  end.

(** [null > 0] and [null < 0] are false as well, so the histogram may
    use the same comparisons. *)
Definition multiFactorEntry (candles : list Candle) : option string * string :=
  let closes := map close candles in
  let volumes := map volume candles in
  if (length closes <? 55)%nat then (None, "Insufficient data")
  else
    let emaFast := EMA 20 closes in
    let emaSlow := EMA 50 closes in
    let rsi := RSI 14 closes in
    let macd := MACD_histogram closes in
    let avgVol := or_default (last (SMA 20 volumes)) 0 in
    let currVol := last volumes in
    let lastEmaFast := last emaFast in
    let lastEmaSlow := last emaSlow in
    let lastRsi := last rsi in
    let lastMacdHist := mjoin (last macd) in
    if gt_opt lastEmaFast lastEmaSlow && gt_opt lastRsi (Some 52)
       && gt_opt lastMacdHist (Some 0) && gt_opt currVol (Some (avgVol * 1.2))
    then (Some "long",
          "Bullish trend: EMA crossover, RSI >52, MACD positive, volume spike")
    else if lt_opt lastEmaFast lastEmaSlow && lt_opt lastRsi (Some 48)
            && lt_opt lastMacdHist (Some 0) && gt_opt currVol (Some (avgVol * 1.2))
    then (Some "short",
          "Bearish trend: EMA crossover, RSI <48, MACD negative, volume spike")
    else (None, "No clear signal").

(** The state and the outside, threaded through every step. *)
Definition Sys : Type := (SymbolState * World)%type.

(** [closeTrade] at time [now], with the call it makes to itself as the
    parameter [self].  [placeOrder] is the only call of the [try] block
    that throws here: the write of the state file is taken to succeed
    ([HedgeAudit.closeTrade_writing] is the function with a write that
    can throw). *)
Definition closeTrade_body
    (self : string -> string -> Q -> string -> Sys -> bool * Sys)
    (now : Z) (sym closeReason : string) (exitPrice : Q) (tradeType : string)
    (sw : Sys) : bool * Sys :=
  let '(state, w) := sw in
  let slot :=
    if String.eqb tradeType "main" then Some (openTrade state)
    else if String.eqb tradeType "hedge" then Some (hedgeTrade state)
    else None in
  match slot with
  | Some (Some trade) =>
      let profitPct := profitPercent trade exitPrice in
      let '(sent, w1) :=
        if isRealTrade
        then closeOrder sym (if String.eqb (side trade) "long" then "BUY" else "SELL")
                        (size trade) w
        else (Returned EmptyString, w) in
      match sent with
      | Thrown _ =>
          (false,
           (state, sendTradeAlert "error" sym
                     (String.append "Close " (String.append tradeType " Failed")) w1))
      | Returned _ =>
          let state1 :=
            push_trade {| trade := trade; tradeType := tradeType;
                          closeReason := closeReason; exitPrice := exitPrice;
                          closeTime := now; profitPct := profitPct |} state in
          let '(state2, w2) :=
            if String.eqb tradeType "main"
            then
              let cleared := set_openTrade None state1 in
              match hedgeTrade cleared with
              | Some _ => snd (self sym "MAIN_CLOSED" exitPrice "hedge" (cleared, w1))
              | None => (cleared, w1)
              end
            else (set_hedgeTrade None state1, w1) in
          (true,
           (state2,
            sendTradeAlert "close" sym
              (String.append (toUpperCase tradeType) " Position Closed")
              (saveSymbolState sym w2)))
      end
  | _ => (false, sw)
  end.

(** The call to itself is made with the type ['hedge'], whose branch
    makes no further call: two unfoldings are the whole function. *)
Definition closeTrade (now : Z) : string -> string -> Q -> string -> Sys -> bool * Sys :=
  closeTrade_body (closeTrade_body (fun _ _ _ _ sw => (false, sw)) now) now.

(** *** [mainLoop], one symbol *)

(** Grid management. *)
Definition gridManagement (sym : string) (symbolConfig : SymbolConfig)
    (lastPx : Q) (sw : Sys) : Sys :=
  let '(state, w) := sw in
  let moved :=
    match gridAnchor state with
    | Some anchor =>
        negb (truthy anchor)
        || gtb (Math_abs (lastPx / anchor - 1))
               (or_default (GRID_TRAIL_THRESHOLD symbolConfig) 0.01)
    | None => true
    end in
  if moved
  then
    ({| trades := trades state; openTrade := openTrade state;
        hedgeTrade := hedgeTrade state;
        gridAnchor := Some lastPx;
        activeGrid := recalcGrid lastPx symbolConfig;
        lastGridMovePx := Some lastPx |},
     saveSymbolState sym (sendTradeAlert "gridmove" sym "Grid Updated" w))
  else sw.

(** The size of a new position before the minimum lot is applied. *)
Definition entrySize (symbolConfig : SymbolConfig) (lastPx : Q) : Q :=
  let capital := or_default (CAPITAL symbolConfig) 1000 in
  let riskPercent := or_default (RISK_PERCENT symbolConfig) 1 in
  let leverage := or_default (LEVERAGE symbolConfig) 1 in
  capital * riskPercent / 100 * leverage / lastPx.

Definition minLotOf (sym : string) : Q :=
  or_default (MIN_LOT_SIZES !! sym) DEFAULT_MIN_LOT.

(** Trade entry logic, run when [state.openTrade] is empty. *)
Definition tradeEntry (sym : string) (symbolConfig : SymbolConfig)
    (candles : list Candle) (lastPx : Q) (now : Z) (sw : Sys) : Sys :=
  let '(state, w) := sw in
  match fst (multiFactorEntry candles) with
  | None => sw
  | Some signal =>
      let sizeTotal := entrySize symbolConfig lastPx in
      let minLot := minLotOf sym in
      let '(sizeTotal, w1) :=
        if ltb sizeTotal minLot
        then (minLot, sendTradeAlert "warn" sym "Lot size below minimum" w)
        else (sizeTotal, w) in
      let '(orderResult, w2) :=
        if isRealTrade
        then
          match placeOrder sym (if String.eqb signal "long" then "BUY" else "SELL")
                           sizeTotal w1 with
          | (Returned id, w') => (Returned (Some id), w')
          | (Thrown msg, w') => (Thrown msg, w')
          end
        else (Returned None, w1) in
      match orderResult with
      | Thrown _ => (state, sendTradeAlert "error" sym "Entry Failed" w2)
      | Returned result =>
          (set_openTrade
             (Some {| side := signal; entryPx := lastPx; size := sizeTotal;
                      openTime := now;
                      orderId := Some (match result with
                                       | Some id => ExchangeId id
                                       | None => DemoId now
                                       end);
                      isHedge := false; stopLossPrice := None;
                      maxPrice := None; minPrice := None |})
             state,
           sendTradeAlert "open" sym
             (String.append "Position Opened ("
                (String.append (if isRealTrade then "REAL" else "DEMO") ")"))
             (saveSymbolState sym w2))
      end
  end.

(** Price tracking on the main position: the extremes are initialised
    with the entry price, then updated. *)
Definition trackPrice (lastPx : Q) (t : Trade) : Trade :=
  let t := if truthy_opt (maxPrice t) then t else set_maxPrice (Some (entryPx t)) t in
  let t := if truthy_opt (minPrice t) then t else set_minPrice (Some (entryPx t)) t in
  if String.eqb (side t) "long" && gt_opt (Some lastPx) (maxPrice t)
  then set_maxPrice (Some lastPx) t
  else if String.eqb (side t) "short" && lt_opt (Some lastPx) (minPrice t)
  then set_minPrice (Some lastPx) t
  else t.

(** Hedging logic: the hedge is opened on the side opposite to the main
    position, at the size of the main position. *)
Definition hedgingLogic (sym : string) (symbolConfig : SymbolConfig)
    (lastPx : Q) (now : Z) (trade : Trade) (mainProfitPct : Q) (sw : Sys) : Sys :=
  let '(state, w) := sw in
  match hedgeTrade state with
  | Some _ => sw
  | None =>
      if leb mainProfitPct (- HEDGE_LOSS_PERCENT symbolConfig)
      then
        let hedgeSize := size trade in
        let hedgeSide := if String.eqb (side trade) "long" then "SELL" else "BUY" in
        let '(sent, w1) :=
          if isRealTrade then placeOrder sym hedgeSide hedgeSize w
          else (Returned EmptyString, w) in
        match sent with
        | Thrown _ => (state, sendTradeAlert "error" sym "Hedge Open Failed" w1)
        | Returned _ =>
            (set_hedgeTrade
               (Some {| side := toLowerCase hedgeSide; entryPx := lastPx;
                        size := hedgeSize; openTime := now; orderId := None;
                        isHedge := true; stopLossPrice := None;
                        maxPrice := None; minPrice := None |})
               state,
             sendTradeAlert "hedge" sym "Hedge Position Opened"
               (saveSymbolState sym w1))
        end
      else sw
  end.

(** The test of a stop: a long position at or below it, a short one at or
    above it. *)
Definition stopCrossed (t : Trade) (lastPx stop : Q) : bool :=
  (String.eqb (side t) "long" && leb lastPx stop)
  || (String.eqb (side t) "short" && geb lastPx stop).

(** Hedge position management. *)
Definition hedgeManagement (sym : string) (symbolConfig : SymbolConfig)
    (lastPx : Q) (now : Z) (sw : Sys) : Sys :=
  let '(state, w) := sw in
  match hedgeTrade state with
  | None => sw
  | Some hedge =>
      let hedgeProfitPct := profitPercent hedge lastPx in
      let '(hedge1, w1) :=
        if geb hedgeProfitPct (HEDGE_TP_PERCENT symbolConfig)
           && negb (truthy_opt (stopLossPrice hedge))
        then
          (set_stopLossPrice
             (Some (if String.eqb (side hedge) "long"
                    then entryPx hedge
                         * (1 + (hedgeProfitPct - HEDGE_SL_PERCENT symbolConfig) / 100)
                    else entryPx hedge
                         * (1 - (hedgeProfitPct - HEDGE_SL_PERCENT symbolConfig) / 100)))
             hedge,
           sendTradeAlert "info" sym "Hedge Stop Loss Activated"
             (saveSymbolState sym w))
        else (hedge, w) in
      let state1 := set_hedgeTrade (Some hedge1) state in
      match stopLossPrice hedge1 with
      | Some stop =>
          if truthy stop && stopCrossed hedge1 lastPx stop
          then snd (closeTrade now sym "HEDGE_SL_HIT" lastPx "hedge" (state1, w1))
          else (state1, w1)
      | None => (state1, w1)
      end
  end.

(** Activation of the stop of the main position [trade], the object held
    by [state.openTrade]. *)
Definition mainProtection (sym : string) (symbolConfig : SymbolConfig)
    (mainProfitPct : Q) (trade : Trade) (sw : Sys) : Trade * Sys :=
  let '(state, w) := sw in
  if gtb mainProfitPct (MAIN_PROTECTION_START symbolConfig)
     && negb (truthy_opt (stopLossPrice trade))
  then
    let trade' :=
      set_stopLossPrice
        (Some (if String.eqb (side trade) "long"
               then entryPx trade * (1 + MAIN_PROTECTION_PERCENT symbolConfig / 100)
               else entryPx trade * (1 - MAIN_PROTECTION_PERCENT symbolConfig / 100)))
        trade in
    (trade',
     (set_openTrade (Some trade') state,
      sendTradeAlert "info" sym "Main Stop Loss Updated" (saveSymbolState sym w)))
  else (trade, sw).

(** Take profit, then stop loss, of the main position: the take profit
    ends the work on the symbol ([continue]) whatever [closeTrade]
    returns. *)
Definition mainTakeProfitStopLoss (sym : string) (symbolConfig : SymbolConfig)
    (lastPx : Q) (now : Z) (mainProfitPct : Q) (trade : Trade) (sw : Sys) : Sys :=
  if geb mainProfitPct (MAIN_TP_PERCENT symbolConfig)
  then snd (closeTrade now sym "MAIN_TP_50%" lastPx "main" sw)
  else
    match stopLossPrice trade with
    | Some stop =>
        if truthy stop && stopCrossed trade lastPx stop
        then snd (closeTrade now sym "MAIN_SL_HIT" lastPx "main" sw)
        else sw
    | None => sw
    end.

(** Trade management logic, run when [state.openTrade] holds [trade];
    the object is updated in place. *)
Definition tradeManagement (sym : string) (symbolConfig : SymbolConfig)
    (lastPx : Q) (now : Z) (trade : Trade) (sw : Sys) : Sys :=
  let '(state, w) := sw in
  let trade := trackPrice lastPx trade in
  let sw := (set_openTrade (Some trade) state, w) in
  let mainProfitPct := profitPercent trade lastPx in
  let sw := hedgingLogic sym symbolConfig lastPx now trade mainProfitPct sw in
  let sw := hedgeManagement sym symbolConfig lastPx now sw in
  let '(trade, sw) := mainProtection sym symbolConfig mainProfitPct trade sw in
  mainTakeProfitStopLoss sym symbolConfig lastPx now mainProfitPct trade sw.

(** The body of the loop of [mainLoop] for one symbol whose candles
    were fetched. *)
Definition tickSymbol (sym : string) (symbolConfig : SymbolConfig)
    (candles : list Candle) (now : Z) (sw : Sys) : Sys :=
  match last candles with
  | None => sw
  | Some lastCandle =>
      let lastPx := close lastCandle in
      let sw := gridManagement sym symbolConfig lastPx sw in
      match openTrade (fst sw) with
      | None => tradeEntry sym symbolConfig candles lastPx now sw
      | Some trade => tradeManagement sym symbolConfig lastPx now trade sw
      end
  end.

(** [fetchKlines]: a failed request is reported and yields no candle. *)
Definition fetchKlines (feed : string -> Outcome (list Candle)) (symbol : string)
    (w : World) : list Candle * World :=
  match feed symbol with
  | Returned candles => (candles, w)
  | Thrown _ => ([], sendTradeAlert "error" symbol "Kline Fetch Error" w)
  end.

(** [mainLoop] at time [now]: the symbols in the order of their keys.  A
    symbol without a state raises a [TypeError], caught per symbol. *)
Definition mainLoop (feed : string -> Outcome (list Candle)) (now : Z)
    (all : gmap string SymbolState * World) : gmap string SymbolState * World :=
  if negb (BOT_RUNNING config) then all
  else
    fold_left
      (fun acc entry =>
         let '(symbolStates, w) := acc in
         let '(candles, w1) := fetchKlines feed (fst entry) w in
         match candles with
         | [] => (symbolStates, w1)
         | _ =>
             match symbolStates !! fst entry with
             | Some state =>
                 let '(state', w2) :=
                   tickSymbol (fst entry) (snd entry) candles now (state, w1) in
                 (<[fst entry := state']> symbolStates, w2)
             | None =>
                 (symbolStates, sendTradeAlert "error" (fst entry) "Main Loop Error" w1)
             end
         end)
      (SYMBOLS config) all.

End Engine.

End HedgeBot.

(** ** The regime decision table, as the specification words it *)

Module RegimeSpec.
Import JS GridBot.
Local Open Scope Q_scope.

(** The most recent [n] samples of a history, oldest first, and the [n]
    samples before them. *)
Definition mostRecent (n : nat) (history : list Q) : list Q :=
  rev (firstn n (rev history)).

Definition preceding (n : nat) (history : list Q) : list Q :=
  rev (firstn n (skipn n (rev history))).

Definition mean10 (xs : list Q) : Q := sum xs / 10.

(** Mean of the most recent 10 samples minus the mean of the preceding
    10, normalised by the latter. *)
Definition momentum (history : list Q) : Q :=
  (mean10 (mostRecent 10 history) - mean10 (preceding 10 history))
  / mean10 (preceding 10 history).

(** A decision table: the first rule whose condition holds wins. *)
Definition firstMatch (rules : list (bool * Regime)) (otherwise : Regime) : Regime :=
  match List.find fst rules with
  | Some rule => snd rule
  | None => otherwise
  end.

Definition classify (bullThreshold bearThreshold volatilityThreshold : Q)
    (history : list Q) (volatility : Q) : Regime :=
  let m := momentum history in
  firstMatch
    [ ((length history <? 20)%nat, UNKNOWN);
      (gtb m bullThreshold && ltb volatility volatilityThreshold, BULL);
      (ltb m bearThreshold && ltb volatility volatilityThreshold, BEAR);
      (gtb volatility volatilityThreshold, VOLATILE) ]
    SIDEWAYS.

End RegimeSpec.

(** ** The life of a bot instance *)

Module BotRun.
Import JS GridBot.
Local Open Scope Q_scope.

(** The tags that [detectMarketCondition] assigns. *)
Definition assignedRegime (r : Regime) : Prop :=
  r = BULL \/ r = BEAR \/ r = VOLATILE \/ r = SIDEWAYS.

(** A kline request answered with fewer than [ATR_PERIOD + 1] bars. *)
Definition fewBars (cfg : Config) (answer : Outcome KlineResponse) : Prop :=
  exists resp bars,
    answer = Returned resp /\ result_list resp = Some bars
    /\ (length bars < ATR_PERIOD cfg + 1)%nat.

(** Closest to the centre first. *)
Definition closerOrEqual (g h : GridLevel) : Prop :=
  priceDistance g <= priceDistance h.

(** The calls that write fields of [Bot]. *)
Inductive Call : Type :=
  | CallGetCurrentPrice (ticker : option Q) (random : Q)
  | CallCalculateATR (getKline : string -> Outcome KlineResponse)
  | CallDetectMarketCondition
  | CallGenerateGridLevels
  | CallRebalanceGrid (getKline : string -> Outcome KlineResponse)
                      (now : Z) (ordersSize : nat)
  | CallLoopRound (i : Round).

Section WithSqrt.

Variable Math_sqrt : Q -> Q.
Variable v : SourceFile.

(** The instance after a call made under the configuration [cfg],
    whether it returned or threw. *)
Definition call (cfg : Config) (c : Call) (b : Bot) : Bot :=
  match c with
  | CallGetCurrentPrice ticker random => snd (getCurrentPrice v ticker random b)
  | CallCalculateATR getKline => snd (calculateATR Math_sqrt v cfg getKline b)
  | CallDetectMarketCondition => snd (detectMarketCondition v cfg b)
  | CallGenerateGridLevels => snd (generateGridLevels v cfg b)
  | CallRebalanceGrid getKline now ordersSize =>
      snd (rebalanceGrid Math_sqrt v cfg getKline now ordersSize b)
  | CallLoopRound i => loopRound Math_sqrt v cfg i b
  end.

(** The instances a bot can be in: a fresh one, and any instance after
    one more call; [CONFIG] may have been updated between two calls. *)
Inductive Reachable : Bot -> Prop :=
  | reach_constructor (now : Z) (demo : bool) : Reachable (constructor now demo)
  | reach_call (cfg : Config) (c : Call) (b : Bot) :
      Reachable b -> Reachable (call cfg c b).

End WithSqrt.

End BotRun.

(** ** The configurations written in the sources *)

Module Defaults.
Import JS GridBot.
Local Open Scope Q_scope.

(** [CONFIG] of [part_000]; the two market thresholds, absent there,
    carry the literals of its [detectMarketCondition]. *)
Definition CONFIG_part_000 : Config := {|
  BASE_INVESTMENT := 1000;
  GRID_LEVELS := 12;
  GRID_SPACING := 0.007;
  ATR_PERIOD := 14;
  ATR_MULTIPLIER := 1.7;
  MIN_GRID_SPACING := 0.004;
  MAX_GRID_SPACING := 0.025;
  REBALANCE_THRESHOLD := 0.075;
  MAX_POSITION_SIZE := 0.09;
  VOLATILITY_THRESHOLD := 0.018;
  REBALANCE_COOLDOWN := 1800000;
  BULL_MARKET_THRESHOLD := 0.02;
  BEAR_MARKET_THRESHOLD := - 0.02
|}.

(** [CONFIG] of [part_001] and of [server.js]; [GRID_SPACING], absent
    there and never read, carries the minimum spacing. *)
Definition CONFIG_server : Config := {|
  BASE_INVESTMENT := 1000;
  GRID_LEVELS := 15;
  GRID_SPACING := 0.003;
  ATR_PERIOD := 14;
  ATR_MULTIPLIER := 1.5;
  MIN_GRID_SPACING := 0.003;
  MAX_GRID_SPACING := 0.025;
  REBALANCE_THRESHOLD := 0.08;
  MAX_POSITION_SIZE := 0.08;
  VOLATILITY_THRESHOLD := 0.02;
  REBALANCE_COOLDOWN := 1800000;
  BULL_MARKET_THRESHOLD := 0.02;
  BEAR_MARKET_THRESHOLD := - 0.02
|}.

(** A bot that has seen the single price 100, with an ATR of 5, in a
    volatile market. *)
Definition volatileBot : Bot := {|
  gridLevels := [];
  currentPrice := 100;
  atr := 5;
  lastRebalance := 0;
  priceHistory := [100];
  marketCondition := VOLATILE;
  priceChangeBuffer := [];
  volatilityIndex := 0;
  useDemo := false
|}.

(** A bot whose last 20 prices are ten times 100, then ten times 103,
    with a volatility index of zero. *)
Definition risingBot : Bot := {|
  gridLevels := [];
  currentPrice := 103;
  atr := 0;
  lastRebalance := 0;
  priceHistory := repeat 100 10 ++ repeat 103 10;
  marketCondition := SIDEWAYS;
  priceChangeBuffer := [];
  volatilityIndex := 0;
  useDemo := false
|}.

(** An exchange that answers every kline request with the bars given. *)
Definition klinesOf (bars : list Kline) : string -> Outcome KlineResponse :=
  fun _ => Returned {| retCode := 0; result_list := Some bars |}.

End Defaults.

(** ** Runs of the hedge bot on one symbol *)

Module HedgeRun.
Import JS HedgeBot.
Local Open Scope Q_scope.
Local Open Scope string_scope.




(** The stop of the position held in a slot, if any. *)
Definition stopOf (slot : SymbolState -> option Trade) (sw : Sys) : option Q :=
  match slot (fst sw) with
  | Some t => stopLossPrice t
  | None => None
  end.


(** The order requests of a list of events, in order. *)
Definition ordersOf (es : list Event) : list Event :=
  List.filter (fun e => match e with Order _ _ _ => true | _ => false end) es.

(** The record of a position closed at a price and time. *)
Definition recordOf (t : Trade) (type reason : string) (px : Q) (now : Z)
    : TradeRecord :=
  {| trade := t; tradeType := type; closeReason := reason; exitPrice := px;
     closeTime := now; profitPct := profitPercent t px |}.

(** The state after the main position [t] was recorded and cleared. *)
Definition mainClosed (t : Trade) (reason : string) (px : Q) (now : Z)
    (state : SymbolState) : SymbolState :=
  set_openTrade None (push_trade (recordOf t "main" reason px now) state).

(** The state after the hedge [h] was recorded and cleared. *)
Definition hedgeClosed (h : Trade) (reason : string) (px : Q) (now : Z)
    (state : SymbolState) : SymbolState :=
  set_hedgeTrade None (push_trade (recordOf h "hedge" reason px now) state).

(** A slot before and after a step that opens no position: the position
    is closed, or it is still held with the stop it had, a stop being
    written only where none was attached. *)
Definition evolves (a b : option Trade) : Prop :=
  b = None
  \/ exists t t', a = Some t /\ b = Some t'
       /\ (stopLossPrice t' = stopLossPrice t
           \/ truthy_opt (stopLossPrice t) = false).

(** The step appends records to the trade log, all of them with a close
    reason in [P]. *)
Definition appends (P : string -> Prop) (s s' : SymbolState) : Prop :=
  exists new, trades s' = (trades s ++ new)%list
              /\ Forall (fun r => P (closeReason r)) new.

Section Engine.

Variable config : Config.
Variable exchange : nat -> Outcome string.
Variable EMA : nat -> list Q -> list Q.
Variable RSI : nat -> list Q -> list Q.
Variable MACD_histogram : list Q -> list (option Q).
Variable SMA : nat -> list Q -> list Q.
Variable sym : string.
Variable symbolConfig : SymbolConfig.

(** One tick of the symbol: the candles fetched and the time. *)
Definition tick (i : list Candle * Z) (sw : Sys) : Sys :=
  tickSymbol config exchange EMA RSI MACD_histogram SMA
             sym symbolConfig (fst i) (snd i) sw.

Definition runTicks (ticks : list (list Candle * Z)) (sw : Sys) : Sys :=
  fold_left (fun sw i => tick i sw) ticks sw.

(** The slot holds a position after every tick of the run: the position
    it held at the start was not closed. *)
Fixpoint heldThrough (slot : SymbolState -> option Trade)
    (ticks : list (list Candle * Z)) (sw : Sys) : Prop :=
  match ticks with
  | [] => True
  | i :: rest => slot (fst (tick i sw)) <> None /\ heldThrough slot rest (tick i sw)
  end.

(** The close reason that the management of the main position can give
    to the main position at a profit [p]: the take-profit reason from the
    threshold on, the stop-loss reason below it. *)
Definition mainReason (p : Q) : string :=
  if geb p (MAIN_TP_PERCENT symbolConfig) then "MAIN_TP_50%" else "MAIN_SL_HIT".

(** The state before the take-profit test of [tradeManagement]. *)
Definition beforeTakeProfit (lastPx : Q) (now : Z) (t : Trade) (sw : Sys)
    : Trade * Sys :=
  let t1 := trackPrice lastPx t in
  let p := profitPercent t1 lastPx in
  mainProtection sym symbolConfig p t1
    (hedgeManagement config exchange sym symbolConfig lastPx now
       (hedgingLogic config exchange sym symbolConfig lastPx now t1 p
          (set_openTrade (Some t1) (fst sw), snd sw))).


End Engine.

(** Sample data: the default symbol configuration of the source, a demo
    configuration, an exchange that accepts every order, indicators that
    signal a long entry on every window of 55 candles, and candles that
    close at a given price. *)
Definition BTCUSDT_config : SymbolConfig := {|
  GRID_TRAIL_THRESHOLD := Some 0.01;
  CAPITAL := Some 1000;
  RISK_PERCENT := Some 1;
  LEVERAGE := Some 5;
  GRID_STEPS := Some 5%nat;
  GRID_SPACING := Some 0.003;
  HEDGE_LOSS_PERCENT := 8;
  HEDGE_TP_PERCENT := 10;
  HEDGE_SL_PERCENT := 5;
  MAIN_TP_PERCENT := 50;
  MAIN_PROTECTION_START := 20;
  MAIN_PROTECTION_PERCENT := 10
|}.

Definition demoConfig : Config := {|
  SYMBOLS := [("BTCUSDT", BTCUSDT_config)];
  BYBIT_API_KEY := EmptyString;
  BYBIT_API_SECRET := EmptyString;
  DEMO_MODE := true;
  BOT_RUNNING := true
|}.

Definition liveConfig : Config := {|
  SYMBOLS := [("BTCUSDT", BTCUSDT_config)];
  BYBIT_API_KEY := "key";
  BYBIT_API_SECRET := "secret";
  DEMO_MODE := false;
  BOT_RUNNING := true
|}.

Definition acceptingExchange : nat -> Outcome string :=
  fun _ => Returned "order".

(** An exchange that accepts the first [n] order requests only. *)
Definition acceptingFirst (n : nat) : nat -> Outcome string :=
  fun k => if (k <? n)%nat then Returned "order" else Thrown "rejected".

Definition bullishEMA : nat -> list Q -> list Q :=
  fun period _ => if (period <? 50)%nat then [2] else [1].
Definition bullishRSI : nat -> list Q -> list Q := fun _ _ => [60].
Definition bullishMACD : list Q -> list (option Q) := fun _ => [Some 1].
Definition flatSMA : nat -> list Q -> list Q := fun _ _ => [1].

Definition candlesAt (px : Q) : list Candle :=
  repeat {| close := px; volume := 1 |} 54 ++ [{| close := px; volume := 2 |}].

Definition freshWorld : World := {| calls := 0; events := [] |}.

(** The default configuration with a negative [HEDGE_SL_PERCENT]. *)
Definition negativeStopConfig : SymbolConfig := {|
  GRID_TRAIL_THRESHOLD := Some 0.01;
  CAPITAL := Some 1000;
  RISK_PERCENT := Some 1;
  LEVERAGE := Some 5;
  GRID_STEPS := Some 5%nat;
  GRID_SPACING := Some 0.003;
  HEDGE_LOSS_PERCENT := 8;
  HEDGE_TP_PERCENT := 10;
  HEDGE_SL_PERCENT := - 50;
  MAIN_TP_PERCENT := 50;
  MAIN_PROTECTION_START := 20;
  MAIN_PROTECTION_PERCENT := 10
|}.

(** A long main position of size 1 entered at a price. *)
Definition longAt (px : Q) : Trade := {|
  side := "long"; entryPx := px; size := 1; openTime := 0;
  orderId := Some (DemoId 0); isHedge := false; stopLossPrice := None;
  maxPrice := None; minPrice := None |}.

(** A symbol that holds the main position [t] and nothing else. *)
Definition holding (t : Trade) : Sys :=
  (set_openTrade (Some t) emptyState, freshWorld).

(** Ticks of BTCUSDT with the sample indicators. *)
Definition demoTick (symbolConfig : SymbolConfig) : list Candle * Z -> Sys -> Sys :=
  tick demoConfig acceptingExchange bullishEMA bullishRSI bullishMACD flatSMA
       "BTCUSDT" symbolConfig.


End HedgeRun.

(** ** What a tick does to a symbol, position by position *)

Module HedgeAudit.
Import JS HedgeBot HedgeRun.
Local Open Scope Q_scope.
Local Open Scope string_scope.

(** The same position: only the stop and the tracked extremes of the
    price may differ. *)
Definition samePosition (t t' : Trade) : Prop :=
  side t' = side t /\ entryPx t' = entryPx t /\ size t' = size t
  /\ openTime t' = openTime t /\ orderId t' = orderId t
  /\ isHedge t' = isHedge t.

(** A slot before and after a step that opens nothing: it is empty, or
    it holds the position it held. *)
Definition keeps (a b : option Trade) : Prop :=
  b = None \/ exists t t', a = Some t /\ b = Some t' /\ samePosition t t'.

(** A hedge opened at the price [px] and the time [now] against the
    position [main]. *)
Definition openedHedge (symbolConfig : SymbolConfig) (main : Trade) (px : Q)
    (now : Z) (h : Trade) : Prop :=
  profitPercent main px <= - HEDGE_LOSS_PERCENT symbolConfig
  /\ side h = (if String.eqb (side main) "long" then "sell" else "buy")
  /\ entryPx h = px /\ size h = size main /\ openTime h = now
  /\ orderId h = None /\ isHedge h = true.

(** The hedge slot before and after the management of the position
    [main]: as [keeps], or a hedge was opened in the empty slot. *)
Definition hedgeStep (symbolConfig : SymbolConfig) (main : Trade) (px : Q)
    (now : Z) (a b : option Trade) : Prop :=
  keeps a b
  \/ (a = None /\ exists h, b = Some h /\ openedHedge symbolConfig main px now h).

(** A record of the trade log written at the price [px] and the time
    [now]: the profit is the one of the recorded position at that price,
    and the reason is one of the two of its type. *)
Definition closedAt (px : Q) (now : Z) (r : TradeRecord) : Prop :=
  exitPrice r = px /\ closeTime r = now
  /\ profitPct r = profitPercent (trade r) px
  /\ ((tradeType r = "main"
       /\ (closeReason r = "MAIN_TP_50%" \/ closeReason r = "MAIN_SL_HIT"))
      \/ (tradeType r = "hedge"
          /\ (closeReason r = "HEDGE_SL_HIT" \/ closeReason r = "MAIN_CLOSED"))).

(** The step appends records to the trade log, all of them in [P]. *)
Definition logs (P : TradeRecord -> Prop) (s s' : SymbolState) : Prop :=
  exists new, trades s' = (trades s ++ new)%list /\ Forall P new.

(** The three grid fields are left as they are. *)
Definition sameGrid (s s' : SymbolState) : Prop :=
  gridAnchor s' = gridAnchor s /\ activeGrid s' = activeGrid s
  /\ lastGridMovePx s' = lastGridMovePx s.

(** The stored grid is the grid of the stored anchor. *)
Definition gridFollows (symbolConfig : SymbolConfig) (s : SymbolState) : Prop :=
  match gridAnchor s with
  | Some anchor =>
      activeGrid s = recalcGrid anchor symbolConfig
      /\ lastGridMovePx s = Some anchor
  | None => True
  end.

(** The anchor is the price [px] itself, or lies within the trail
    threshold of it. *)
Definition anchorNear (symbolConfig : SymbolConfig) (px : Q) (s : SymbolState)
    : Prop :=
  exists anchor,
    gridAnchor s = Some anchor
    /\ (anchor = px
        \/ (~ anchor == 0
            /\ Qabs (px / anchor - 1)
               <= or_default (GRID_TRAIL_THRESHOLD symbolConfig) 0.01)).

(** A position that carries the side of an order, as the hedges opened
    by the bot do. *)
Definition orderSided (t : Trade) : Prop := side t = "sell" \/ side t = "buy".

Definition hedgeIsOrderSided (s : SymbolState) : Prop :=
  forall h, hedgeTrade s = Some h -> orderSided h.

(** What a step that only closes positions does: it appends records in
    [P], leaves the grid alone, and leaves each slot as it was or empty. *)
Definition closing (P : TradeRecord -> Prop) (s s' : SymbolState) : Prop :=
  logs P s s' /\ sameGrid s s'
  /\ (openTrade s' = openTrade s \/ openTrade s' = None)
  /\ (hedgeTrade s' = hedgeTrade s \/ hedgeTrade s' = None).

(** A main position entered at the price [px] and the time [now] on the
    signal of the candles, for the symbol [sym]. *)
Definition entered (sym : string) (symbolConfig : SymbolConfig)
    (signal : string) (px : Q) (now : Z) (t : Trade) : Prop :=
  side t = signal /\ entryPx t = px /\ openTime t = now
  /\ size t = (if ltb (entrySize symbolConfig px) (minLotOf sym)
               then minLotOf sym else entrySize symbolConfig px)
  /\ isHedge t = false /\ stopLossPrice t = None
  /\ maxPrice t = None /\ minPrice t = None.

(** The outside before and after a step that sends no order request. *)
Definition quiet (w w' : World) : Prop :=
  calls w' = calls w /\ ordersOf (events w') = ordersOf (events w).

(** The symbol states before and after a pass of the main loop: no
    symbol gains or loses its state, and the trade log of a symbol only
    grows. *)
Definition grown (m m' : gmap string SymbolState) : Prop :=
  forall sym,
    match m !! sym, m' !! sym with
    | Some s, Some s' => exists new, trades s' = (trades s ++ new)%list
    | None, None => True
    | _, _ => False
    end.

(** The body of the loop of [mainLoop] for one configured symbol. *)
Definition symbolStep (config : Config) (exchange : nat -> Outcome string)
    (EMA RSI : nat -> list Q -> list Q)
    (MACD_histogram : list Q -> list (option Q)) (SMA : nat -> list Q -> list Q)
    (feed : string -> Outcome (list Candle)) (now : Z)
    (acc : gmap string SymbolState * World) (entry : string * SymbolConfig)
    : gmap string SymbolState * World :=
  let '(symbolStates, w) := acc in
  let '(candles, w1) := fetchKlines feed (fst entry) w in
  match candles with
  | [] => (symbolStates, w1)
  | _ =>
      match symbolStates !! fst entry with
      | Some state =>
          let '(state', w2) :=
            tickSymbol config exchange EMA RSI MACD_histogram SMA
                       (fst entry) (snd entry) candles now (state, w1) in
          (<[fst entry := state']> symbolStates, w2)
      | None =>
          (symbolStates, sendTradeAlert "error" (fst entry) "Main Loop Error" w1)
      end
  end.

(** The number of levels of [recalcGrid]. *)
Definition gridSteps (symbolConfig : SymbolConfig) : nat :=
  match GRID_STEPS symbolConfig with
  | Some (S n) => S n
  | _ => 5%nat
  end.

(** [closeTrade] with the write of the state file as the call that can
    throw which [fs.writeFileSync] is: [writes w] tells whether the write
    attempted in the outside [w] succeeds.  The request and the write
    sit in the same [try] block, whose [catch] sends the error alert and
    answers [false]; the answer of the call that [closeTrade] makes to
    itself is not read. *)
Definition closeTrade_writing_body (config : Config)
    (exchange : nat -> Outcome string) (writes : World -> bool)
    (self : string -> string -> Q -> string -> Sys -> bool * Sys)
    (now : Z) (sym closeReason : string) (exitPrice : Q) (tradeType : string)
    (sw : Sys) : bool * Sys :=
  let '(state, w) := sw in
  let slot :=
    if String.eqb tradeType "main" then Some (openTrade state)
    else if String.eqb tradeType "hedge" then Some (hedgeTrade state)
    else None in
  match slot with
  | Some (Some trade) =>
      let profitPct := profitPercent trade exitPrice in
      let failed := String.append "Close " (String.append tradeType " Failed") in
      let '(sent, w1) :=
        if isRealTrade config
        then closeOrder exchange sym
                        (if String.eqb (side trade) "long" then "BUY" else "SELL")
                        (size trade) w
        else (Returned EmptyString, w) in
      match sent with
      | Thrown _ => (false, (state, sendTradeAlert "error" sym failed w1))
      | Returned _ =>
          let state1 :=
            push_trade {| trade := trade; tradeType := tradeType;
                          closeReason := closeReason; exitPrice := exitPrice;
                          closeTime := now; profitPct := profitPct |} state in
          let '(state2, w2) :=
            if String.eqb tradeType "main"
            then
              let cleared := set_openTrade None state1 in
              match hedgeTrade cleared with
              | Some _ => snd (self sym "MAIN_CLOSED" exitPrice "hedge" (cleared, w1))
              | None => (cleared, w1)
              end
            else (set_hedgeTrade None state1, w1) in
          if writes w2
          then (true,
                (state2,
                 sendTradeAlert "close" sym
                   (String.append (toUpperCase tradeType) " Position Closed")
                   (saveSymbolState sym w2)))
          else (false, (state2, sendTradeAlert "error" sym failed w2))
      end
  | _ => (false, sw)
  end.

Definition closeTrade_writing (config : Config)
    (exchange : nat -> Outcome string) (writes : World -> bool) (now : Z)
    : string -> string -> Q -> string -> Sys -> bool * Sys :=
  closeTrade_writing_body config exchange writes
    (closeTrade_writing_body config exchange writes
       (fun _ _ _ _ sw => (false, sw)) now) now.

(** The slot that [closeTrade] closes for a type, if the type has one. *)
Definition slotOf (tradeType : string) (state : SymbolState)
    : option (option Trade) :=
  if String.eqb tradeType "main" then Some (openTrade state)
  else if String.eqb tradeType "hedge" then Some (hedgeTrade state)
  else None.

End HedgeAudit.

(** ** The orders, the fills and the counters of the grid bot *)

Module GridTrading.
Import JS GridBot.
Local Open Scope Q_scope.

(** The fields of [CONFIG] read by the order methods. *)
Record TradeConfig : Type := {
  MAX_DAILY_TRADES : nat;
  DCA_PERCENTAGE : Q
}.

(** [DataPersistence.saveTrade] on the content of the trades file: the
    entry goes last, and only the newest 1000 entries are kept. *)
Definition saveTrade {A : Type} (entry : A) (file : list A) : list A :=
  let trades := file ++ [entry] in
  if (1000 <? length trades)%nat
  then skipn (length trades - 1000) trades
  else trades.

(** The fields of [performance] that [handleFilledOrder] writes. *)
Record Performance : Type := {
  totalProfit : Q;
  totalLoss : Q;
  winRate : Q;
  totalVolume : Q;
  avgTradeSize : Q;
  bestTrade : Q;
  worstTrade : Q;
  profitFactor : Q
}.

(** A value of the map [orders]: the grid level and the order type,
    ['buy'] or ['sell'] (the time stamp it also carries is never read). *)
Record OrderInfo : Type := {
  info_level : GridLevel;
  info_type : string
}.

(** A [Map] keyed by strings: its entries in the order of insertion,
    which is the order of its iteration.  [Map_set] replaces the value of
    a key in place, or appends the entry. *)
Fixpoint Map_set {A : Type} (k : string) (x : A) (m : list (string * A))
    : list (string * A) :=
  match m with
  | [] => [(k, x)]
  | e :: r => if String.eqb (fst e) k then (k, x) :: r else e :: Map_set k x r
  end.

Definition Map_delete {A : Type} (k : string) (m : list (string * A))
    : list (string * A) :=
  List.filter (fun e => negb (String.eqb (fst e) k)) m.

(** The instance fields written by the order methods; [orders] is keyed
    by the order id. *)
Record Account : Type := {
  orders : list (string * OrderInfo);
  dailyTrades : nat;
  lastTradeReset : Z;
  profitLoss : Q;
  totalTrades : nat;
  successfulTrades : nat;
  performance : Performance
}.

(** The fields as the constructor leaves them, at time [now]. *)
Definition newAccount (now : Z) : Account := {|
  orders := [];
  dailyTrades := 0;
  lastTradeReset := now;
  profitLoss := 0;
  totalTrades := 0;
  successfulTrades := 0;
  performance := {| totalProfit := 0; totalLoss := 0; winRate := 0;
                    totalVolume := 0; avgTradeSize := 0; bestTrade := 0;
                    worstTrade := 0; profitFactor := 0 |}
|}.

Definition set_orders (m : list (string * OrderInfo)) (a : Account) : Account := {|
  orders := m; dailyTrades := dailyTrades a;
  lastTradeReset := lastTradeReset a; profitLoss := profitLoss a;
  totalTrades := totalTrades a; successfulTrades := successfulTrades a;
  performance := performance a |}.

Definition set_dailyTrades (n : nat) (a : Account) : Account := {|
  orders := orders a; dailyTrades := n;
  lastTradeReset := lastTradeReset a; profitLoss := profitLoss a;
  totalTrades := totalTrades a; successfulTrades := successfulTrades a;
  performance := performance a |}.

(** A request sent through [submitOrder]. *)
Record OrderRequest : Type := {
  req_side : string;
  req_price : Q;
  req_qty : Q
}.

(** The outside of the order methods: the requests sent to the exchange
    so far, and the number of demo orders made up so far. *)
Record Outside : Type := {
  submitted : list OrderRequest;
  demoOrders : nat
}.

Definition Desk : Type := (Account * Outside)%type.

(** [resetDailyTrades] at time [now]. *)
Definition resetDailyTrades (now : Z) (a : Account) : Account :=
  if (86400000 <? now - lastTradeReset a)%Z
  then {| orders := orders a; dailyTrades := 0; lastTradeReset := now;
          profitLoss := profitLoss a; totalTrades := totalTrades a;
          successfulTrades := successfulTrades a;
          performance := performance a |}
  else a.

(** [handleFilledOrder] for the tracked order [orderInfo], filled at
    [executedPrice] for [executedQty]. *)
Definition handleFilledOrder (orderInfo : OrderInfo)
    (executedPrice executedQty : Q) (a : Account) : Account :=
  let totalTrades' := S (totalTrades a) in
  let isSell := String.eqb (info_type orderInfo) "sell" in
  let profit :=
    if isSell
    then (executedPrice - buyPrice (info_level orderInfo)) * executedQty
    else 0 in
  let p := performance a in
  let totalProfit' :=
    if isSell then totalProfit p + Math_max 0 profit else totalProfit p in
  let totalLoss' :=
    if isSell then totalLoss p + Math_max 0 (- profit) else totalLoss p in
  let successfulTrades' :=
    if isSell && gtb profit 0
    then S (successfulTrades a) else successfulTrades a in
  let totalVolume' := totalVolume p + executedPrice * executedQty in
  {| orders := orders a;
     dailyTrades := dailyTrades a;
     lastTradeReset := lastTradeReset a;
     profitLoss := if isSell then profitLoss a + profit else profitLoss a;
     totalTrades := totalTrades';
     successfulTrades := successfulTrades';
     performance :=
       {| totalProfit := totalProfit';
          totalLoss := totalLoss';
          winRate := inject_Z (Z.of_nat successfulTrades')
                     / inject_Z (Z.of_nat totalTrades') * 100;
          totalVolume := totalVolume';
          avgTradeSize := totalVolume' / inject_Z (Z.of_nat totalTrades');
          bestTrade :=
            if isSell then Math_max (bestTrade p) profit else bestTrade p;
          worstTrade :=
            if isSell then Math_min (worstTrade p) profit else worstTrade p;
          profitFactor :=
            if gtb totalLoss' 0 then totalProfit' / totalLoss'
            else profitFactor p |} |}.

(** An entry of the order history: its status, and its price and
    quantity as parsed (a price or a quantity of zero, which the source
    replaces by another field, is outside the model). *)
Record FilledOrder : Type := {
  orderStatus : string;
  fill_price : Q;
  fill_qty : Q
}.

(** The tracked order [orderId] is filled: it is booked, then forgotten. *)
Definition bookFill (orderId : string) (orderInfo : OrderInfo)
    (executedPrice executedQty : Q) (a : Account) : Account :=
  let a' := handleFilledOrder orderInfo executedPrice executedQty a in
  set_orders (Map_delete orderId (orders a')) a'.

(** [executeDCA]: the price and the quantity of the buy order it asks
    [placeBuyOrder] for, if any.  On an empty history [Math.min()] is
    [Infinity], which is not below the threshold. *)
Definition executeDCA_order (cfg : Config) (tcfg : TradeConfig) (b : Bot)
    : option (Q * Q) :=
  let priceDropThreshold := currentPrice b * (1 - DCA_PERCENTAGE tcfg) in
  match slice (-5) None (priceHistory b) with
  | [] => None
  | recent =>
      let recentLow := Math_min_list recent in
      if leb recentLow priceDropThreshold
         && match marketCondition b with
            | SIDEWAYS | BULL => true
            | _ => false
            end
      then Some (currentPrice b * 0.999,
                 calculateOrderQuantity cfg b (currentPrice b) * 0.6)
      else None
  end.

(** A step that leaves the books alone: only the tracked orders and the
    daily counter may differ. *)
Definition sameBooks (a a' : Account) : Prop :=
  lastTradeReset a' = lastTradeReset a
  /\ profitLoss a' = profitLoss a
  /\ totalTrades a' = totalTrades a
  /\ successfulTrades a' = successfulTrades a
  /\ performance a' = performance a.

(** The orders of an instance are made up by the bot itself: only
    [server.js] has the demo branch of the two order methods. *)
Definition demoOrdersOnly (v : SourceFile) (b : Bot) : bool :=
  match v with
  | server_js => useDemo b
  | _ => false
  end.

Section Exchange.

Variable v : SourceFile.
Variable cfg : Config.
Variable tcfg : TradeConfig.

(** The answer to the [k]-th request sent through [submitOrder]: the
    [retCode] and the order id of the response, or the error thrown. *)
Variable submitOrder : nat -> Outcome (Z * string).

(** The id of the [k]-th demo order of [server.js], made of the time and
    of a random number. *)
Variable demoOrderId : nat -> string.

(** [placeBuyOrder] and [placeSellOrder], which differ by the side of the
    request: the id of the placed order, or [None] for [null].  The
    writes to the trades file and the alerts leave the fields alone.
    This is the method run without another call in between; its pieces
    before and after [await submitOrder] are [piece] below. *)
Definition placeOrder (side : string) (b : Bot) (price quantity : Q)
    (d : Desk) : option string * Desk :=
  let '(a, o) := d in
  if (MAX_DAILY_TRADES tcfg <=? dailyTrades a)%nat then (None, d)
  else if demoOrdersOnly v b
  then (Some (demoOrderId (demoOrders o)),
        (a, {| submitted := submitted o; demoOrders := S (demoOrders o) |}))
  else
    let o' := {| submitted := submitted o
                              ++ [{| req_side := side; req_price := price;
                                     req_qty := quantity |}];
                 demoOrders := demoOrders o |} in
    match submitOrder (length (submitted o)) with
    | Returned (0%Z, orderId) =>
        (Some orderId, (set_dailyTrades (S (dailyTrades a)) a, o'))
    | _ => (None, (a, o'))
    end.

Definition placeBuyOrder : Bot -> Q -> Q -> Desk -> option string * Desk :=
  placeOrder "Buy".

Definition placeSellOrder : Bot -> Q -> Q -> Desk -> option string * Desk :=
  placeOrder "Sell".

(** One round of the loop of [placeGridOrders], on the grid level
    [level]: the number of orders placed so far, and the desk. *)
Definition placeLevelOrders (b : Bot) (acc : nat * Desk) (level : GridLevel)
    : nat * Desk :=
  let '(placedOrders, d) := acc in
  let '(placedOrders, d) :=
    if ltb (buyPrice level) (currentPrice b * 0.995)
    then
      match placeBuyOrder b (buyPrice level) (quantity level) d with
      | (Some orderId, (a, o)) =>
          (S placedOrders,
           (set_orders (Map_set orderId {| info_level := level;
                                           info_type := "buy" |} (orders a)) a,
            o))
      | (None, d') => (placedOrders, d')
      end
    else (placedOrders, d) in
  if gtb (sellPrice level) (currentPrice b * 1.005)
  then
    match placeSellOrder b (sellPrice level) (quantity level) d with
    | (Some orderId, (a, o)) =>
        (S placedOrders,
         (set_orders (Map_set orderId {| info_level := level;
                                         info_type := "sell" |} (orders a)) a,
          o))
    | (None, d') => (placedOrders, d')
    end
  else (placedOrders, d).

(** [placeGridOrders]: the number it returns, and the desk. *)
Definition placeGridOrders (b : Bot) (d : Desk) : nat * Desk :=
  let maxConcurrentOrders := Nat.min (GRID_LEVELS cfg) 20 in
  fold_left (placeLevelOrders b)
            (slice 0 (Some (Z.of_nat maxConcurrentOrders)) (gridLevels b))
            (0%nat, d).

(** [executeDCA]. *)
Definition executeDCA (b : Bot) (d : Desk) : Desk :=
  match executeDCA_order cfg tcfg b with
  | Some (dcaPrice, dcaQuantity) => snd (placeBuyOrder b dcaPrice dcaQuantity d)
  | None => d
  end.

(** [checkOrderStatus], given the answers of [getOrderHistory]: the
    first entry of the history of the order, or [None] for [null]. *)
Definition checkOrderStatus (b : Bot)
    (getOrderHistory : string -> Outcome (Z * option (list FilledOrder)))
    (orderId : string) : option FilledOrder :=
  if demoOrdersOnly v b then None
  else
    match getOrderHistory orderId with
    | Returned (0%Z, Some (filledOrder :: _)) => Some filledOrder
    | _ => None
    end.

(** One round of the loop of [monitorOrders], on a tracked order:
    [activeOrders] holds the ids of the orders that the exchange lists
    as active. *)
Definition monitorOrder (b : Bot) (activeOrders : list string)
    (getOrderHistory : string -> Outcome (Z * option (list FilledOrder)))
    (a : Account) (entry : string * OrderInfo) : Account :=
  if existsb (String.eqb (fst entry)) activeOrders then a
  else
    match checkOrderStatus b getOrderHistory (fst entry) with
    | Some filledOrder =>
        if String.eqb (orderStatus filledOrder) "Filled"
        then bookFill (fst entry) (snd entry)
                      (fill_price filledOrder) (fill_qty filledOrder) a
        else a
    | None => a
    end.

(** One round of the loop of [monitorDemoOrders] of [server.js]: the
    [i]-th tracked order is filled, at its own price, when the [i]-th
    draw of [Math.random()] is below 0.05. *)
Definition monitorDemoOrder (random : nat -> Q) (acc : nat * Account)
    (entry : string * OrderInfo) : nat * Account :=
  let '(i, a) := acc in
  let level := info_level (snd entry) in
  (S i,
   if ltb (random i) 0.05
   then bookFill (fst entry) (snd entry)
                 (if String.eqb (info_type (snd entry)) "buy"
                  then buyPrice level else sellPrice level)
                 (quantity level) a
   else a).

Definition monitorDemoOrders (random : nat -> Q) (a : Account) : Account :=
  snd (fold_left (monitorDemoOrder random) (orders a) (0%nat, a)).

(** [monitorOrders], given the answer of [getActiveOrders] (the
    [retCode] and the ids of the listed orders, an absent list being
    empty); a failed request leaves everything as it is. *)
Definition monitorOrders (b : Bot)
    (getActiveOrders : Outcome (Z * option (list string)))
    (getOrderHistory : string -> Outcome (Z * option (list FilledOrder)))
    (random : nat -> Q) (a : Account) : Account :=
  if demoOrdersOnly v b then monitorDemoOrders random a
  else
    match getActiveOrders with
    | Returned (0%Z, list) =>
        fold_left (monitorOrder b (match list with Some l => l | None => [] end)
                                getOrderHistory)
                  (orders a) a
    | _ => a
    end.

(** [cancelAllOrders], given the answer of the exchange: the tracked
    orders are forgotten when the exchange confirms, and at once on a
    demo instance of [server.js]. *)
Definition cancelAllOrders (b : Bot) (answer : Outcome Z) (a : Account)
    : bool * Account :=
  if demoOrdersOnly v b then (true, set_orders [] a)
  else
    match answer with
    | Returned 0%Z => (true, set_orders [] a)
    | _ => (false, a)
    end.

(** The calls that write the fields of [Account], each run to its end
    before the next one starts, under one configuration. *)
Inductive Op : Type :=
  | OpPlaceBuyOrder (b : Bot) (price quantity : Q)
  | OpPlaceSellOrder (b : Bot) (price quantity : Q)
  | OpPlaceGridOrders (b : Bot)
  | OpExecuteDCA (b : Bot)
  | OpResetDailyTrades (now : Z)
  | OpHandleFilledOrder (orderInfo : OrderInfo) (executedPrice executedQty : Q)
  | OpMonitorOrders (b : Bot)
      (getActiveOrders : Outcome (Z * option (list string)))
      (getOrderHistory : string -> Outcome (Z * option (list FilledOrder)))
      (random : nat -> Q)
  | OpCancelAllOrders (b : Bot) (answer : Outcome Z).

Definition op (c : Op) (d : Desk) : Desk :=
  match c with
  | OpPlaceBuyOrder b price quantity => snd (placeBuyOrder b price quantity d)
  | OpPlaceSellOrder b price quantity => snd (placeSellOrder b price quantity d)
  | OpPlaceGridOrders b => snd (placeGridOrders b d)
  | OpExecuteDCA b => executeDCA b d
  | OpResetDailyTrades now => (resetDailyTrades now (fst d), snd d)
  | OpHandleFilledOrder orderInfo executedPrice executedQty =>
      (handleFilledOrder orderInfo executedPrice executedQty (fst d), snd d)
  | OpMonitorOrders b getActiveOrders getOrderHistory random =>
      (monitorOrders b getActiveOrders getOrderHistory random (fst d), snd d)
  | OpCancelAllOrders b answer => (snd (cancelAllOrders b answer (fst d)), snd d)
  end.

Definition ops (cs : list Op) (d : Desk) : Desk :=
  fold_left (fun d c => op c d) cs d.

(** What a step of the order methods does to the counters, given the
    number [n] of orders it reports as placed. *)
Definition counted (b : Bot) (n : nat) (d d' : Desk) : Prop :=
  sameBooks (fst d) (fst d')
  /\ (length (orders (fst d')) <= length (orders (fst d)) + n)%nat
  /\ (n = 0%nat \/ (dailyTrades (fst d) < MAX_DAILY_TRADES tcfg)%nat)
  /\ if demoOrdersOnly v b
     then dailyTrades (fst d') = dailyTrades (fst d)
          /\ submitted (snd d') = submitted (snd d)
          /\ demoOrders (snd d') = (demoOrders (snd d) + n)%nat
     else dailyTrades (fst d') = (dailyTrades (fst d) + n)%nat
          /\ (dailyTrades (fst d') <= Nat.max (dailyTrades (fst d))
                                              (MAX_DAILY_TRADES tcfg))%nat
          /\ demoOrders (snd d') = demoOrders (snd d).

End Exchange.

(** *** The order methods between their awaits *)

(** What the calls that run at the same time share: the account, the
    value of [CONFIG.MAX_DAILY_TRADES] in force (a number), and the
    number of requests sent through [submitOrder] whose answer has not
    come yet. *)
Record Flows : Type := {
  account : Account;
  maxDailyTrades : nat;
  inFlight : nat
}.

(** The pieces of code that run without interruption and read or write
    the daily counter or its cap:
    - [Enter]: [placeBuyOrder] or [placeSellOrder] from its entry to its
      first [await], that is the test of the cap, then the demo order
      of [server.js] or the request;
    - [Resume]: the same method after [await submitOrder], on the answer
      to its request;
    - [ResetDailyTrades]: [resetDailyTrades] at time [now];
    - [ControlReset]: the action [reset_daily_trades] of the control
      endpoint of [server.js];
    - [PutConfig]: [PUT /api/config] with a new value of
      [MAX_DAILY_TRADES].
    An answer comes only to a request in flight.  The counter that
    [loadSavedData] restores from the state file is where a schedule
    starts. *)
Inductive Piece : Type :=
  | Enter (demo : bool)
  | Resume (answer : Outcome (Z * string))
  | ResetDailyTrades (now : Z)
  | ControlReset (now : Z)
  | PutConfig (cap : nat).

Definition piece (g : Piece) (s : Flows) : Flows :=
  match g with
  | Enter demo =>
      if (maxDailyTrades s <=? dailyTrades (account s))%nat then s
      else if demo then s
      else {| account := account s; maxDailyTrades := maxDailyTrades s;
              inFlight := S (inFlight s) |}
  | Resume answer =>
      match inFlight s with
      | O => s
      | S n =>
          {| account :=
               match answer with
               | Returned (0%Z, _) =>
                   set_dailyTrades (S (dailyTrades (account s))) (account s)
               | _ => account s
               end;
             maxDailyTrades := maxDailyTrades s;
             inFlight := n |}
      end
  | ResetDailyTrades now =>
      {| account := resetDailyTrades now (account s);
         maxDailyTrades := maxDailyTrades s; inFlight := inFlight s |}
  | ControlReset now =>
      {| account :=
           {| orders := orders (account s); dailyTrades := 0;
              lastTradeReset := now; profitLoss := profitLoss (account s);
              totalTrades := totalTrades (account s);
              successfulTrades := successfulTrades (account s);
              performance := performance (account s) |};
         maxDailyTrades := maxDailyTrades s; inFlight := inFlight s |}
  | PutConfig cap =>
      {| account := account s; maxDailyTrades := cap;
         inFlight := inFlight s |}
  end.

(** The states that a schedule of pieces goes through, from the first
    one on, and the state it ends in. *)
Fixpoint schedule (gs : list Piece) (s : Flows) : list Flows :=
  match gs with
  | [] => [s]
  | g :: gs' => s :: schedule gs' (piece g s)
  end.

Definition scheduled (gs : list Piece) (s : Flows) : Flows :=
  fold_left (fun s0 g => piece g s0) gs s.

(** Along a schedule never more than [K] requests are in flight and
    the cap is never above [M]. *)
Definition within (K M : nat) (t : Flows) : Prop :=
  (inFlight t <= K)%nat /\ (maxDailyTrades t <= M)%nat.

(** The books of an account agree: the profit and loss is the profit
    total minus the loss total, both totals are non-negative, the best
    and the worst trade lie on their side of zero and within the totals,
    and no more trades are counted as won than were counted. *)
Definition booksAgree (a : Account) : Prop :=
  profitLoss a == totalProfit (performance a) - totalLoss (performance a)
  /\ 0 <= totalProfit (performance a)
  /\ 0 <= totalLoss (performance a)
  /\ 0 <= bestTrade (performance a)
  /\ bestTrade (performance a) <= totalProfit (performance a)
  /\ worstTrade (performance a) <= 0
  /\ - totalLoss (performance a) <= worstTrade (performance a)
  /\ (successfulTrades a <= totalTrades a)%nat.

(** The tracked orders [es], walked in order from the account [a]: each
    one is left alone, or filled at a price and for a quantity that [ok]
    allows. *)
Inductive fills (ok : string * OrderInfo -> Q -> Q -> Prop)
    : list (string * OrderInfo) -> Account -> Account -> Prop :=
  | fills_nil (a : Account) : fills ok [] a a
  | fills_keep (e : string * OrderInfo) (es : list (string * OrderInfo))
      (a a' : Account) :
      fills ok es a a' -> fills ok (e :: es) a a'
  | fills_fill (e : string * OrderInfo) (es : list (string * OrderInfo))
      (p q : Q) (a a' : Account) :
      ok e p q ->
      fills ok es (bookFill (fst e) (snd e) p q a) a' ->
      fills ok (e :: es) a a'.

(** A fill on a live instance: of an order that is not listed as active. *)
Definition liveFill (activeOrders : list string) (e : string * OrderInfo)
    (p q : Q) : Prop :=
  existsb (String.eqb (fst e)) activeOrders = false.

(** A fill on a demo instance: at the price of the order, for its
    quantity. *)
Definition demoFill (e : string * OrderInfo) (p q : Q) : Prop :=
  p = (if String.eqb (info_type (snd e)) "buy"
       then buyPrice (info_level (snd e)) else sellPrice (info_level (snd e)))
  /\ q = quantity (info_level (snd e)).

(** No two tracked orders have the same id. *)
Definition distinctKeys (m : list (string * OrderInfo)) : Prop :=
  NoDup (map fst m).

(** Every tracked order is a ['buy'] or a ['sell'] order. *)
Definition typedOrders (m : list (string * OrderInfo)) : Prop :=
  Forall (fun e => info_type (snd e) = "buy"%string
                   \/ info_type (snd e) = "sell"%string) m.

(** A tracked order whose level buys and sells at positive prices, the
    sell price not below the buy price, for a positive quantity. *)
Definition soundOrder (orderInfo : OrderInfo) : Prop :=
  0 < buyPrice (info_level orderInfo)
  /\ buyPrice (info_level orderInfo) <= sellPrice (info_level orderInfo)
  /\ 0 < quantity (info_level orderInfo).

(** From [a] to [a'] the books record no loss: the loss total and the
    worst trade stay, the profit and loss grows by what the profit total
    grows by, and the volume does not shrink. *)
Definition noLoss (a a' : Account) : Prop :=
  totalLoss (performance a') == totalLoss (performance a)
  /\ worstTrade (performance a') == worstTrade (performance a)
  /\ profitLoss a <= profitLoss a'
  /\ totalProfit (performance a') - totalProfit (performance a)
     == profitLoss a' - profitLoss a
  /\ totalVolume (performance a) <= totalVolume (performance a').

(** The win rate and the average trade size are the quotients of the
    counters, written without a division. *)
Definition ratesAgree (a : Account) : Prop :=
  winRate (performance a) * inject_Z (Z.of_nat (totalTrades a))
  == inject_Z (Z.of_nat (successfulTrades a)) * 100
  /\ avgTradeSize (performance a) * inject_Z (Z.of_nat (totalTrades a))
     == totalVolume (performance a)
  /\ 0 <= winRate (performance a)
  /\ winRate (performance a) <= 100.

End GridTrading.

(** ** What every reachable instance of the grid bot satisfies *)

Module BotAudit.
Import JS GridBot.
Local Open Scope Q_scope.

(** The two sample arrays stay within their caps. *)
Definition samplesBounded (b : Bot) : Prop :=
  (length (priceHistory b) <= 200)%nat
  /\ (length (priceChangeBuffer b) <= 20)%nat.

(** [currentPrice] is the newest sample of [priceHistory]; before the
    first sample it is the [0] of the constructor. *)
Definition priceIsNewestSample (b : Bot) : Prop :=
  match priceHistory b with
  | [] => currentPrice b = 0
  | _ => last (priceHistory b) = Some (currentPrice b)
  end.

(** The volatility index is still the [0] of the constructor while fewer
    than ten price changes were recorded. *)
Definition quietStart (b : Bot) : Prop :=
  (length (priceChangeBuffer b) < 10)%nat -> volatilityIndex b = 0.

(** A method that records no price: the samples, the price and the mode
    are left as they are, and the volatility index is written only from
    ten recorded changes on. *)
Definition sameSamples (b b' : Bot) : Prop :=
  priceHistory b' = priceHistory b
  /\ currentPrice b' = currentPrice b
  /\ priceChangeBuffer b' = priceChangeBuffer b
  /\ useDemo b' = useDemo b
  /\ (volatilityIndex b' = volatilityIndex b
      \/ (10 <= length (priceChangeBuffer b))%nat).

(** The instance after a list of calls, each under its configuration. *)
Definition runCalls (Math_sqrt : Q -> Q) (v : SourceFile)
    (cs : list (Config * BotRun.Call)) (b : Bot) : Bot :=
  fold_left (fun b c => BotRun.call Math_sqrt v (fst c) (snd c) b) cs b.

(** The three facts, together. *)
Definition sound (b : Bot) : Prop :=
  samplesBounded b /\ priceIsNewestSample b /\ quietStart b.

End BotAudit.

(** ** The helpers of the web interface of [server.js] *)

Module WebUI.
Import JS GridBot.
Local Open Scope Q_scope.

Definition calculateSupport (b : Bot) : Q :=
  if (length (priceHistory b) <? 10)%nat then currentPrice b * 0.95
  else Math_min_list (slice (-20) None (priceHistory b)).

Definition calculateResistance (b : Bot) : Q :=
  if (length (priceHistory b) <? 10)%nat then currentPrice b * 1.05
  else Math_max_list (slice (-20) None (priceHistory b)).

(** The counts in the statistics of [handleOrdersRequest]: [total],
    [buyOrders] and [sellOrders]. *)
Definition orderStats (a : GridTrading.Account) : nat * nat * nat :=
  (length (GridTrading.orders a),
   length (List.filter
             (fun e => String.eqb (GridTrading.info_type (snd e)) "buy")
             (GridTrading.orders a)),
   length (List.filter
             (fun e => String.eqb (GridTrading.info_type (snd e)) "sell")
             (GridTrading.orders a))).

End WebUI.

(** ** Sample runs of the grid bot *)

Module Scenarios.
Import JS GridBot BotRun Defaults BotAudit GridTrading.
Local Open Scope Q_scope.

(** [Math.sqrt] for runs that never take a root. *)
Definition noRoot : Q -> Q := fun x => x.

(** A fresh instance after the ticker has answered the given prices, in
    order. *)
Definition afterPrices (v : SourceFile) (demo : bool) (prices : list Q) : Bot :=
  runCalls noRoot v
    (map (fun p => (CONFIG_part_000, CallGetCurrentPrice (Some p) 0)) prices)
    (constructor 0 demo).

(** The two fields of [CONFIG] of [part_000] read by the order methods. *)
Definition TRADE_CONFIG_part_000 : TradeConfig := {|
  MAX_DAILY_TRADES := 50;
  DCA_PERCENTAGE := 0.018
|}.

(** A fresh desk, an exchange that accepts every order, and the ids of
    the demo orders. *)
Definition freshDesk : Desk :=
  (newAccount 0, {| submitted := []; demoOrders := 0 |}).

Definition acceptingSubmit : nat -> Outcome (Z * string) :=
  fun _ => Returned (0%Z, "order"%string).

Definition demoIds : nat -> string := fun _ => "demo"%string.

(** A sell order of a level that buys at [buy] and sells at [sell], and
    an account that tracks only this order. *)
Definition sellOrderOf (buy sell qty : Q) : OrderInfo :=
  {| info_level := {| level := 1; buyPrice := buy; sellPrice := sell;
                      quantity := qty; active := true; priceDistance := 0 |};
     info_type := "sell" |}.

Definition trackingSell (orderId : string) (buy sell qty : Q) : Account :=
  set_orders [(orderId, sellOrderOf buy sell qty)] (newAccount 0).

(** The bot that has seen the price 100, with its grid generated, and
    the account after the orders of this grid were placed on a fresh
    desk. *)
Definition griddedBot : Bot :=
  snd (generateGridLevels part_000 CONFIG_part_000 volatileBot).

Definition afterGridOrders : Account :=
  fst (ops part_000 CONFIG_part_000 TRADE_CONFIG_part_000 acceptingSubmit
         demoIds [OpPlaceGridOrders griddedBot] freshDesk).

(** An account one trade below the cap of 50 with no request in flight,
    and two calls of an order method that are entered before the answer
    to either request has come, both accepted. *)
Definition oneBelowTheCap : Flows :=
  {| account := set_dailyTrades 49 (newAccount 0);
     maxDailyTrades := 50; inFlight := 0 |}.

Definition twoCallsAtOnce : list Piece :=
  [Enter false; Enter false;
   Resume (Returned (0%Z, "order"%string));
   Resume (Returned (0%Z, "order"%string))].

(** An exchange that lists no active order and reports every order as
    filled at 100 for a quantity of 1. *)
Definition noActiveOrders : Outcome (Z * option (list string)) :=
  Returned (0%Z, None).

Definition allFilled : string -> Outcome (Z * option (list FilledOrder)) :=
  fun _ => Returned (0%Z, Some [{| orderStatus := "Filled";
                                   fill_price := 100; fill_qty := 1 |}]).

(** The level a grid starts with; a grid without levels gives a level
    of zeros. *)
Definition firstLevel (levels : list GridLevel) : GridLevel :=
  hd {| level := 0; buyPrice := 0; sellPrice := 0; quantity := 0;
        active := false; priceDistance := 0 |} levels.

End Scenarios.

(** ** Facts about the primitives *)

Section JSFacts.
Import JS.
Local Open Scope Q_scope.

Lemma ltb_true (a b : Q) : ltb a b = true <-> a < b.
Proof.
  unfold ltb. rewrite negb_true_iff. split.
  - intros H. apply Qnot_le_lt. intros Hle.
    apply Qle_bool_iff in Hle. congruence.
  - intros H. destruct (Qle_bool b a) eqn:E; [|reflexivity].
    apply Qle_bool_iff in E. exfalso. apply (Qlt_not_le _ _ H E).
Qed.

Lemma ltb_false (a b : Q) : ltb a b = false <-> b <= a.
Proof.
  unfold ltb. rewrite negb_false_iff. apply Qle_bool_iff.
Qed.

Lemma leb_true (a b : Q) : leb a b = true <-> a <= b.
Proof. apply Qle_bool_iff. Qed.

Lemma truthy_true (x : Q) : truthy x = true <-> ~ x == 0.
Proof.
  unfold truthy. rewrite negb_true_iff. split.
  - intros H E. apply Qeq_bool_iff in E. congruence.
  - intros H. destruct (Qeq_bool x 0) eqn:E; [|reflexivity].
    apply Qeq_bool_iff in E. contradiction.
Qed.

Lemma truthy_false (x : Q) : truthy x = false <-> x == 0.
Proof.
  unfold truthy. rewrite negb_false_iff. apply Qeq_bool_iff.
Qed.

(** On a history of at least [n + m] samples, the two slices of the
    classifier are the windows of the specification. *)
Lemma slice_last (A : Type) (n : nat) (xs : list A) :
  (0 < n)%nat -> (n <= length xs)%nat ->
  slice (- Z.of_nat n) None xs = rev (firstn n (rev xs)).
Proof.
  intros Hpos Hn. unfold slice.
  rewrite firstn_rev, rev_involutive.
  assert (E : (- Z.of_nat n <? 0)%Z = true) by (apply Z.ltb_lt; lia).
  rewrite E, Z.max_l by lia.
  replace (Z.to_nat (Z.of_nat (length xs) + - Z.of_nat n))
    with (length xs - n)%nat by lia.
  apply firstn_all2. rewrite length_skipn. lia.
Qed.

Lemma slice_window (A : Type) (n : nat) (xs : list A) :
  (0 < n)%nat -> (n + n <= length xs)%nat ->
  slice (- Z.of_nat (n + n)) (Some (- Z.of_nat n)%Z) xs
  = rev (firstn n (skipn n (rev xs))).
Proof.
  intros Hpos Hn. unfold slice.
  assert (E1 : (- Z.of_nat (n + n) <? 0)%Z = true) by (apply Z.ltb_lt; lia).
  assert (E2 : (- Z.of_nat n <? 0)%Z = true) by (apply Z.ltb_lt; lia).
  rewrite E1, E2. rewrite !Z.max_l by lia.
  replace (Z.to_nat (Z.of_nat (length xs) + - Z.of_nat n
                     - (Z.of_nat (length xs) + - Z.of_nat (n + n)))) with n by lia.
  replace (Z.to_nat (Z.of_nat (length xs) + - Z.of_nat (n + n)))
    with (length xs - (n + n))%nat by lia.
  rewrite skipn_rev, firstn_rev, rev_involutive.
  rewrite length_firstn.
  replace (Nat.min (length xs - n) (length xs) - n)%nat
    with (length xs - (n + n))%nat by lia.
  rewrite skipn_firstn_comm.
  replace (length xs - n - (length xs - (n + n)))%nat with n by lia.
  reflexivity.
Qed.

End JSFacts.

(** ** The regime classifier *)

Section RegimeClassifier.
Import JS GridBot.
Local Open Scope Q_scope.

Lemma length_mostRecent (history : list Q) :
  (20 <= length history)%nat ->
  length (RegimeSpec.mostRecent 10 history) = 10%nat.
Proof.
  intros H. unfold RegimeSpec.mostRecent.
  rewrite length_rev, length_firstn, length_rev. lia.
Qed.

Lemma length_preceding (history : list Q) :
  (20 <= length history)%nat ->
  length (RegimeSpec.preceding 10 history) = 10%nat.
Proof.
  intros H. unfold RegimeSpec.preceding.
  rewrite length_rev, length_firstn, length_skipn, length_rev. lia.
Qed.

Lemma momentum_spec (history : list Q) :
  (20 <= length history)%nat ->
  GridBot.momentum history = RegimeSpec.momentum history.
Proof.
  intros H. unfold GridBot.momentum, RegimeSpec.momentum, RegimeSpec.mean10.
  change (-10)%Z with (- Z.of_nat 10)%Z.
  change (-20)%Z with (- Z.of_nat (10 + 10))%Z.
  rewrite slice_last by lia.
  rewrite slice_window by lia.
  fold (RegimeSpec.mostRecent 10 history).
  fold (RegimeSpec.preceding 10 history).
  rewrite length_mostRecent, length_preceding by assumption.
  reflexivity.
Qed.

(** C4. For every history of positive prices, stored volatility and
    thresholds, the tag returned by [detectMarketCondition] is the one of
    the decision table read in order, first match first: fewer than 20
    samples give UNKNOWN; else momentum above the bull threshold with
    volatility below its threshold gives BULL; else momentum below the
    bear threshold with volatility below its threshold gives BEAR; else
    volatility above its threshold gives VOLATILE; otherwise SIDEWAYS.
    The momentum is the mean of the most recent 10 samples minus the mean
    of the 10 before them, divided by the latter.  [part_000] fixes the
    two momentum thresholds at 0.02 and -0.02. *)
Theorem detectMarketCondition_decision_table :
  forall (v : SourceFile) (cfg : Config) (b : Bot),
    Forall (fun p => 0 < p) (priceHistory b) ->
    fst (detectMarketCondition v cfg b)
    = RegimeSpec.classify
        (match v with part_000 => 0.02 | _ => BULL_MARKET_THRESHOLD cfg end)
        (match v with part_000 => - 0.02 | _ => BEAR_MARKET_THRESHOLD cfg end)
        (VOLATILITY_THRESHOLD cfg)
        (priceHistory b) (volatilityIndex b).
Proof.
  intros v cfg b _.
  unfold detectMarketCondition, RegimeSpec.classify, RegimeSpec.firstMatch.
  destruct (length (priceHistory b) <? 20)%nat eqn:Hlen; [reflexivity|].
  apply Nat.ltb_ge in Hlen.
  rewrite <- (momentum_spec _ Hlen).
  unfold bullThreshold, bearThreshold. simpl.
  destruct v; simpl;
    repeat match goal with
           | |- context [if ?c then _ else _] => destruct c; simpl
           end; reflexivity.
Qed.

End RegimeClassifier.

(** ** The stored regime *)

Section StoredRegime.
Import JS GridBot BotRun.
Local Open Scope Q_scope.

Variable Math_sqrt : Q -> Q.
Variable v : SourceFile.
Variable cfg : Config.

Lemma assignedRegime_not_unknown (r : Regime) :
  assignedRegime r <-> r <> UNKNOWN.
Proof.
  unfold assignedRegime. split.
  - intros [H | [H | [H | H]]]; subst; discriminate.
  - destruct r; intuition congruence.
Qed.

Lemma getCurrentPrice_regime (ticker : option Q) (random : Q) (b : Bot) :
  marketCondition (snd (getCurrentPrice v ticker random b)) = marketCondition b.
Proof.
  unfold getCurrentPrice, getDemoPrice.
  destruct v, ticker; try reflexivity; destruct (useDemo b); reflexivity.
Qed.

Lemma calculateVolatilityIndex_regime (b : Bot) :
  marketCondition (calculateVolatilityIndex Math_sqrt b) = marketCondition b.
Proof.
  unfold calculateVolatilityIndex.
  destruct (length (priceChangeBuffer b) <? 10)%nat; reflexivity.
Qed.

Lemma calculateATR_000_regime getKline (b : Bot) :
  marketCondition (snd (calculateATR_000 Math_sqrt cfg getKline b))
  = marketCondition b.
Proof.
  unfold calculateATR_000.
  destruct (getKline "15"%string) as [resp | msg]; [|reflexivity].
  destruct (validKlines cfg resp); [|reflexivity].
  simpl. rewrite calculateVolatilityIndex_regime. reflexivity.
Qed.

Lemma calculateATR_001_regime getKline (b : Bot) :
  marketCondition (snd (calculateATR_001 Math_sqrt cfg getKline b))
  = marketCondition b.
Proof.
  unfold calculateATR_001.
  destruct (atrOverIntervals cfg getKline) as [atrSum n].
  destruct (0 <? n)%nat; [|reflexivity].
  simpl. rewrite calculateVolatilityIndex_regime. reflexivity.
Qed.

Lemma calculateDemoATR_regime (b : Bot) :
  marketCondition (snd (calculateDemoATR Math_sqrt b)) = marketCondition b.
Proof.
  unfold calculateDemoATR. cbn [snd]. rewrite calculateVolatilityIndex_regime.
  reflexivity.
Qed.

Lemma calculateATR_regime getKline (b : Bot) :
  marketCondition (snd (calculateATR Math_sqrt v cfg getKline b))
  = marketCondition b.
Proof.
  unfold calculateATR. destruct v.
  - apply calculateATR_000_regime.
  - apply calculateATR_001_regime.
  - unfold calculateATR_server.
    pose proof (calculateDemoATR_regime b) as Hd.
    pose proof (calculateATR_001_regime getKline b) as H1.
    destruct (calculateDemoATR Math_sqrt b) as [a bd].
    destruct (useDemo b); [exact Hd|].
    destruct (calculateATR_001 Math_sqrt cfg getKline b) as [[a1 | msg] b1];
      simpl in *; assumption.
Qed.

Lemma detectMarketCondition_regime (b : Bot) :
  marketCondition (snd (detectMarketCondition v cfg b)) = marketCondition b
  \/ assignedRegime (marketCondition (snd (detectMarketCondition v cfg b))).
Proof.
  unfold detectMarketCondition, assignedRegime.
  destruct (length (priceHistory b) <? 20)%nat; [left; reflexivity|].
  right. simpl.
  repeat match goal with
         | |- context [if ?c then _ else _] => destruct c
         end; auto.
Qed.

Lemma generateGridLevels_regime (b : Bot) :
  marketCondition (snd (generateGridLevels v cfg b)) = marketCondition b.
Proof. reflexivity. Qed.

Lemma rebalanceGrid_regime getKline now ordersSize (b : Bot) :
  marketCondition b <> UNKNOWN ->
  marketCondition (snd (rebalanceGrid Math_sqrt v cfg getKline now ordersSize b))
  <> UNKNOWN.
Proof.
  intros Hb. unfold rebalanceGrid.
  destruct (now - lastRebalance b <? REBALANCE_COOLDOWN cfg)%Z; [exact Hb|].
  destruct (nth_error _ _) as [centerLevel|]; [|exact Hb].
  destruct (shouldRebalance cfg ordersSize b centerLevel); [|exact Hb].
  pose proof (detectMarketCondition_regime b) as Hd.
  destruct (detectMarketCondition v cfg b) as [r b1]. simpl in Hd.
  assert (H1 : marketCondition b1 <> UNKNOWN).
  { destruct Hd as [Hd | Hd]; [congruence|].
    apply assignedRegime_not_unknown, Hd. }
  pose proof (calculateATR_regime getKline b1) as Ha.
  destruct (calculateATR Math_sqrt v cfg getKline b1) as [[a | msg] b2];
    simpl in *; congruence.
Qed.

Lemma loopRound_regime (i : Round) (b : Bot) :
  marketCondition b <> UNKNOWN ->
  marketCondition (loopRound Math_sqrt v cfg i b) <> UNKNOWN.
Proof.
  intros Hb. unfold loopRound.
  pose proof (getCurrentPrice_regime (ticker i) (random i) b) as Hp.
  destruct (getCurrentPrice v (ticker i) (random i) b) as [[p | msg] b1];
    simpl in Hp; [|congruence].
  destruct (negb (truthy (currentPrice b1))); [congruence|].
  pose proof (calculateATR_regime (klines i) b1) as Ha.
  destruct (calculateATR Math_sqrt v cfg (klines i) b1) as [[a | msg] b2];
    simpl in Ha; [|congruence].
  pose proof (detectMarketCondition_regime b2) as Hd.
  destruct (detectMarketCondition v cfg b2) as [r b3]. simpl in Hd.
  assert (H3 : marketCondition b3 <> UNKNOWN).
  { destruct Hd as [Hd | Hd]; [congruence|].
    apply assignedRegime_not_unknown, Hd. }
  apply rebalanceGrid_regime.
  destruct (gridLevels b3); [|exact H3].
  rewrite generateGridLevels_regime. exact H3.
Qed.

Lemma call_regime (c : Call) (b : Bot) :
  marketCondition b <> UNKNOWN ->
  marketCondition (call Math_sqrt v cfg c b) <> UNKNOWN.
Proof.
  intros Hb. destruct c; simpl.
  - rewrite getCurrentPrice_regime. exact Hb.
  - rewrite calculateATR_regime. exact Hb.
  - destruct (detectMarketCondition_regime b) as [H | H]; [congruence|].
    apply assignedRegime_not_unknown, H.
  - exact Hb.
  - apply rebalanceGrid_regime, Hb.
  - apply loopRound_regime, Hb.
Qed.

End StoredRegime.

Section StoredRegimeInvariant.
Import JS GridBot BotRun.
Local Open Scope Q_scope.

Variable Math_sqrt : Q -> Q.
Variable v : SourceFile.

Lemma reachable_regime (b : Bot) :
  Reachable Math_sqrt v b -> marketCondition b <> UNKNOWN.
Proof.
  intros Hr. induction Hr as [now demo | cfg c b Hr IH].
  - discriminate.
  - apply call_regime, IH.
Qed.

(** C10. On every instance a bot can reach, starting from the
    constructor (which stores SIDEWAYS), under any configuration: when the
    price history has fewer than 20 samples the classifier returns UNKNOWN
    and leaves the instance, hence the stored regime, as it was; and the
    stored regime, which the spacing and the quantity computations read,
    is one of BULL, BEAR, VOLATILE and SIDEWAYS, never UNKNOWN, so that
    their factors are those of these four tags. *)
Theorem stored_regime_never_unknown :
  forall (cfg : Config) (b : Bot),
    Reachable Math_sqrt v b ->
    ((length (priceHistory b) < 20)%nat ->
     detectMarketCondition v cfg b = (UNKNOWN, b))
    /\ marketCondition b <> UNKNOWN
    /\ assignedRegime (marketCondition b)
    /\ spacingMultiplier v (marketCondition b)
       = match marketCondition b with
         | BULL => match v with part_000 => 1.2 | _ => 1.3 end
         | BEAR => 0.9
         | VOLATILE => 1.5
         | _ => match v with part_000 => 1 | _ => 0.8 end
         end
    /\ quantityMultiplier (marketCondition b)
       = match marketCondition b with
         | BULL => 1.1
         | BEAR => 0.9
         | VOLATILE => 0.7
         | _ => 1
         end
    /\ forall now demo, marketCondition (constructor now demo) = SIDEWAYS.
Proof.
  intros cfg b Hr. pose proof (reachable_regime b Hr) as Hn.
  split.
  { intros Hlen. unfold detectMarketCondition.
    apply Nat.ltb_lt in Hlen. rewrite Hlen. reflexivity. }
  split; [exact Hn|].
  split; [apply assignedRegime_not_unknown, Hn|].
  split; [destruct (marketCondition b); try reflexivity; contradiction|].
  split; [destruct (marketCondition b); reflexivity | reflexivity].
Qed.

End StoredRegimeInvariant.


(** ** The ATR on a short history *)

Section ShortHistory.
Import JS GridBot BotRun.
Local Open Scope Q_scope.

Variable Math_sqrt : Q -> Q.
Variable cfg : Config.

Lemma fewBars_invalid (answer : Outcome KlineResponse) :
  fewBars cfg answer ->
  exists resp, answer = Returned resp /\ validKlines cfg resp = None.
Proof.
  intros (resp & bars & -> & Hl & Hlen). exists resp. split; [reflexivity|].
  unfold validKlines. rewrite Hl.
  assert (E : (ATR_PERIOD cfg <? length bars)%nat = false)
    by (apply Nat.ltb_ge; lia).
  rewrite E, andb_false_r. reflexivity.
Qed.

Lemma atrOverIntervals_few (getKline : string -> Outcome KlineResponse) :
  (forall interval, fewBars cfg (getKline interval)) ->
  atrOverIntervals cfg getKline = (0, 0%nat).
Proof.
  intros H. unfold atrOverIntervals. simpl.
  destruct (fewBars_invalid _ (H "1"%string)) as (r1 & -> & ->).
  destruct (fewBars_invalid _ (H "5"%string)) as (r5 & -> & ->).
  destruct (fewBars_invalid _ (H "15"%string)) as (r15 & -> & ->).
  reflexivity.
Qed.

Lemma calculateATR_000_few (getKline : string -> Outcome KlineResponse) (b : Bot) :
  (forall interval, fewBars cfg (getKline interval)) ->
  calculateATR_000 Math_sqrt cfg getKline b = (Thrown "Invalid ATR data", b).
Proof.
  intros H. unfold calculateATR_000.
  destruct (fewBars_invalid _ (H "15"%string)) as (r & -> & ->).
  reflexivity.
Qed.

Lemma calculateATR_001_few (getKline : string -> Outcome KlineResponse) (b : Bot) :
  (forall interval, fewBars cfg (getKline interval)) ->
  calculateATR_001 Math_sqrt cfg getKline b
  = (Thrown "No valid ATR calculations", b).
Proof.
  intros H. unfold calculateATR_001.
  rewrite (atrOverIntervals_few _ H). reflexivity.
Qed.

Lemma calculateATR_server_few (getKline : string -> Outcome KlineResponse) (b : Bot) :
  (forall interval, fewBars cfg (getKline interval)) ->
  calculateATR_server Math_sqrt cfg getKline b
  = (Returned (fst (calculateDemoATR Math_sqrt b)),
     snd (calculateDemoATR Math_sqrt b)).
Proof.
  intros H. unfold calculateATR_server.
  rewrite (calculateATR_001_few _ _ H).
  destruct (calculateDemoATR Math_sqrt b) as [a b'].
  destruct (useDemo b); reflexivity.
Qed.

(** C5, amended. When every kline request of a call is answered with
    fewer than [ATR_PERIOD + 1] bars:
    - [calculateATR] of [part_000] and of [part_001] throws and leaves
      the instance, hence the stored ATR, as it was, and the round of the
      main loop ends right after the price update, before the classifier
      and the grid;
    - [calculateATR] of [server.js] returns the demo ATR, computed from
      the recorded prices;
    - in the three files the outcome does not depend on the bars of the
      short answers: no value is derived from a partial window. *)
Theorem calculateATR_few_bars :
  forall (getKline getKline' : string -> Outcome KlineResponse) (b : Bot),
    (forall interval, fewBars cfg (getKline interval)) ->
    (forall interval, fewBars cfg (getKline' interval)) ->
    calculateATR Math_sqrt part_000 cfg getKline b
    = (Thrown "Invalid ATR data", b)
    /\ calculateATR Math_sqrt part_001 cfg getKline b
       = (Thrown "No valid ATR calculations", b)
    /\ calculateATR Math_sqrt server_js cfg getKline b
       = (Returned (fst (calculateDemoATR Math_sqrt b)),
          snd (calculateDemoATR Math_sqrt b))
    /\ (forall v, calculateATR Math_sqrt v cfg getKline b
                  = calculateATR Math_sqrt v cfg getKline' b)
    /\ (forall v ticker random now ordersSize,
          v <> server_js ->
          loopRound Math_sqrt v cfg
            {| ticker := ticker; random := random; klines := getKline;
               now := now; ordersSize := ordersSize |} b
          = snd (getCurrentPrice v ticker random b)).
Proof.
  intros getKline getKline' b H H'.
  split; [apply calculateATR_000_few, H|].
  split; [apply calculateATR_001_few, H|].
  split; [apply calculateATR_server_few, H|].
  split.
  - intros v. destruct v; simpl.
    + rewrite !calculateATR_000_few by assumption. reflexivity.
    + rewrite !calculateATR_001_few by assumption. reflexivity.
    + rewrite !calculateATR_server_few by assumption. reflexivity.
  - intros v ticker random now ordersSize Hv. unfold loopRound. simpl.
    destruct (getCurrentPrice v ticker random b) as [[p | msg] b1];
      [|reflexivity].
    destruct (negb (truthy (currentPrice b1))); [reflexivity|].
    destruct v; simpl.
    + rewrite calculateATR_000_few by assumption. reflexivity.
    + rewrite calculateATR_001_few by assumption. reflexivity.
    + contradiction.
Qed.

End ShortHistory.

(** ** Grid spacing and order quantity *)

Section GridArithmetic.
Import JS GridBot.
Local Open Scope Q_scope.

Lemma clampSpacing_bounds (cfg : Config) (x : Q) :
  MIN_GRID_SPACING cfg <= MAX_GRID_SPACING cfg ->
  MIN_GRID_SPACING cfg <= clampSpacing cfg x
  /\ clampSpacing cfg x <= MAX_GRID_SPACING cfg.
Proof.
  intros Hmm. unfold clampSpacing, Math_max, Math_min. split.
  - apply Q.le_max_l.
  - apply Q.max_lub; [exact Hmm | apply Q.le_min_l].
Qed.

Lemma clampSpacing_inside (cfg : Config) (x : Q) :
  MIN_GRID_SPACING cfg <= x -> x <= MAX_GRID_SPACING cfg ->
  clampSpacing cfg x == x.
Proof.
  intros Hlo Hhi. unfold clampSpacing, Math_max, Math_min.
  rewrite (Q.min_r _ _ Hhi). apply Q.max_r, Hlo.
Qed.

Lemma clampSpacing_compat (cfg : Config) (x y : Q) :
  x == y -> clampSpacing cfg x == clampSpacing cfg y.
Proof.
  intros E. unfold clampSpacing, Math_max, Math_min. rewrite E. reflexivity.
Qed.

(** C6, amended. In the three files, with a minimum spacing not above
    the maximum: when the ATR or the price is zero the spacing is the
    configured default ([GRID_SPACING] in [part_000], the minimum spacing
    in the other two); otherwise the spacing is
    clamp(clamp(ATR/price x 0.8) x regime factor x volatility factor),
    both clamps to [minSpacing, maxSpacing], where the regime factor is
    BULL 1.2 ([part_000]) or 1.3, BEAR 0.9, VOLATILE 1.5, SIDEWAYS 1
    ([part_000]) or 0.8, and the volatility factor is 1 in [part_000] and
    1 + 10 x volatility above a volatility of 0.01 in the other two.  So the
    spacing always lies within the two bounds, and it equals the scaled
    value exactly when the scaled value lies within them. *)
Theorem calculateDynamicGridSpacing_clamped :
  forall (v : SourceFile) (cfg : Config) (b : Bot),
    MIN_GRID_SPACING cfg <= MAX_GRID_SPACING cfg ->
    let regimeFactor :=
      match marketCondition b with
      | BULL => match v with part_000 => 1.2 | _ => 1.3 end
      | BEAR => 0.9
      | VOLATILE => 1.5
      | SIDEWAYS => match v with part_000 => 1 | _ => 0.8 end
      | UNKNOWN => 1
      end in
    let volatilityFactor :=
      match v with
      | part_000 => 1
      | _ => if gtb (volatilityIndex b) 0.01 then 1 + volatilityIndex b * 10 else 1
      end in
    let scaled :=
      clampSpacing cfg (atr b / currentPrice b * 0.8)
      * regimeFactor * volatilityFactor in
    (atr b == 0 \/ currentPrice b == 0 ->
     calculateDynamicGridSpacing v cfg b
     = match v with part_000 => GRID_SPACING cfg | _ => MIN_GRID_SPACING cfg end)
    /\ (~ atr b == 0 -> ~ currentPrice b == 0 ->
        calculateDynamicGridSpacing v cfg b == clampSpacing cfg scaled
        /\ MIN_GRID_SPACING cfg <= calculateDynamicGridSpacing v cfg b
        /\ calculateDynamicGridSpacing v cfg b <= MAX_GRID_SPACING cfg
        /\ (MIN_GRID_SPACING cfg <= scaled -> scaled <= MAX_GRID_SPACING cfg ->
            calculateDynamicGridSpacing v cfg b == scaled)).
Proof.
  intros v cfg b Hmm regimeFactor volatilityFactor scaled. split.
  - intros Hz. unfold calculateDynamicGridSpacing.
    assert (E : negb (truthy (atr b)) || negb (truthy (currentPrice b)) = true).
    { apply orb_true_iff. destruct Hz as [Hz | Hz]; [left | right];
        apply negb_true_iff, truthy_false, Hz. }
    rewrite E. reflexivity.
  - intros Ha Hp.
    assert (E : negb (truthy (atr b)) || negb (truthy (currentPrice b)) = false).
    { apply orb_false_iff. split; apply negb_false_iff, truthy_true; assumption. }
    assert (Heq : calculateDynamicGridSpacing v cfg b == clampSpacing cfg scaled).
    { unfold calculateDynamicGridSpacing. rewrite E.
      apply clampSpacing_compat. subst scaled regimeFactor volatilityFactor.
      unfold spacingMultiplier.
      destruct v, (marketCondition b);
        try destruct (gtb (volatilityIndex b) 0.01); ring. }
    split; [exact Heq|].
    destruct (clampSpacing_bounds cfg scaled Hmm) as [Hlo Hhi].
    split; [rewrite Heq; exact Hlo|].
    split; [rewrite Heq; exact Hhi|].
    intros H1 H2. rewrite Heq. apply clampSpacing_inside; assumption.
Qed.

(** C8, amended. For a non-zero price and at least one grid level the
    order quantity is
    max(min(baseInvestment/levels/price,
            baseInvestment x maxPositionFraction/price) x factor, 0.001),
    where the factor is the quantity's own regime table (VOLATILE 0.7,
    BULL 1.1, BEAR 0.9, any other regime 1), not the one of the spacing,
    and 0.001 is a constant of the code: the quantity is never below
    0.001, and equals the adjusted quantity when that is at least 0.001. *)
Theorem calculateOrderQuantity_formula :
  forall (cfg : Config) (b : Bot) (price : Q),
    ~ price == 0 -> (0 < GRID_LEVELS cfg)%nat ->
    let baseQuantity :=
      BASE_INVESTMENT cfg / inject_Z (Z.of_nat (GRID_LEVELS cfg)) / price in
    let maxQuantity := BASE_INVESTMENT cfg * MAX_POSITION_SIZE cfg / price in
    let factor :=
      match marketCondition b with
      | VOLATILE => 0.7
      | BULL => 1.1
      | BEAR => 0.9
      | SIDEWAYS | UNKNOWN => 1
      end in
    let adjusted := Qmin baseQuantity maxQuantity * factor in
    calculateOrderQuantity cfg b price == Qmax adjusted 0.001
    /\ 0.001 <= calculateOrderQuantity cfg b price
    /\ (0.001 <= adjusted -> calculateOrderQuantity cfg b price == adjusted).
Proof.
  intros cfg b price Hp Hn baseQuantity maxQuantity factor adjusted.
  assert (Heq : calculateOrderQuantity cfg b price == Qmax adjusted 0.001).
  { unfold calculateOrderQuantity, Math_max, Math_min, quantityMultiplier.
    subst adjusted factor baseQuantity maxQuantity.
    destruct (marketCondition b); reflexivity. }
  split; [exact Heq|]. split.
  - rewrite Heq. apply Q.le_max_r.
  - intros H. rewrite Heq. apply Q.max_l, H.
Qed.

End GridArithmetic.

(** ** The generated grid *)

Section GeneratedGrid.
Import JS GridBot BotRun.
Local Open Scope Q_scope.

Lemma insertLevel_perm (x : GridLevel) (l : list GridLevel) :
  Permutation (insertLevel x l) (x :: l).
Proof.
  induction l as [|y l IH]; simpl.
  - apply Permutation_refl.
  - destruct (ltb (priceDistance y) (priceDistance x)).
    + apply Permutation_trans with (y :: x :: l).
      * apply perm_skip, IH.
      * apply perm_swap.
    + apply Permutation_refl.
Qed.

Lemma sortByDistance_perm (l : list GridLevel) :
  Permutation (sortByDistance l) l.
Proof.
  induction l as [|x l IH]; simpl.
  - apply Permutation_refl.
  - apply Permutation_trans with (x :: sortByDistance l).
    + apply insertLevel_perm.
    + apply perm_skip, IH.
Qed.

Lemma insertLevel_sorted (x : GridLevel) (l : list GridLevel) :
  StronglySorted closerOrEqual l ->
  StronglySorted closerOrEqual (insertLevel x l).
Proof.
  induction l as [|y l IH]; intros Hs; simpl.
  - constructor; constructor.
  - inversion Hs as [|? ? Hl Hy]; subst.
    destruct (ltb (priceDistance y) (priceDistance x)) eqn:E.
    + apply ltb_true in E. constructor; [apply IH, Hl|].
      apply (Permutation_Forall (Permutation_sym (insertLevel_perm x l))).
      constructor; [apply Qlt_le_weak, E | exact Hy].
    + apply ltb_false in E. constructor; [exact Hs|].
      constructor; [exact E|].
      eapply List.Forall_impl; [|exact Hy].
      intros z Hz. unfold closerOrEqual in *. eapply Qle_trans; eassumption.
Qed.

Lemma sortByDistance_sorted (l : list GridLevel) :
  StronglySorted closerOrEqual (sortByDistance l).
Proof.
  induction l as [|x l IH]; simpl.
  - constructor.
  - apply insertLevel_sorted, IH.
Qed.

(** The sort is stable: a level goes before the levels that are not
    closer, so that a sorted array is left as it is. *)
Lemma insertLevel_front (x : GridLevel) (l : list GridLevel) :
  Forall (closerOrEqual x) l -> insertLevel x l = x :: l.
Proof.
  destruct l as [|y l]; intros H; simpl; [reflexivity|].
  inversion H as [|? ? Hy _]; subst.
  assert (E : ltb (priceDistance y) (priceDistance x) = false)
    by (apply ltb_false, Hy).
  rewrite E. reflexivity.
Qed.

Lemma sortByDistance_of_sorted (l : list GridLevel) :
  StronglySorted closerOrEqual l -> sortByDistance l = l.
Proof.
  induction l as [|x l IH]; intros Hs; [reflexivity|].
  inversion Hs as [|? ? Hl Hx]; subst. simpl.
  rewrite (IH Hl). apply insertLevel_front, Hx.
Qed.

Lemma in_unsortedGridLevels (v : SourceFile) (cfg : Config) (b : Bot)
    (g : GridLevel) :
  In g (unsortedGridLevels v cfg b)
  <-> exists i, (i < GRID_LEVELS cfg)%nat /\ gridLevelAt v cfg b i = Some g.
Proof.
  unfold unsortedGridLevels. rewrite in_flat_map. split.
  - intros (i & Hi & Hg). apply in_seq in Hi. exists i. split; [lia|].
    destruct (gridLevelAt v cfg b i) as [g'|]; simpl in Hg; [|contradiction].
    destruct Hg as [-> | []]. reflexivity.
  - intros (i & Hi & Hg). exists i. split; [apply in_seq; lia|].
    rewrite Hg. left. reflexivity.
Qed.

Lemma in_generateGridLevels (v : SourceFile) (cfg : Config) (b : Bot)
    (g : GridLevel) :
  In g (fst (generateGridLevels v cfg b))
  <-> exists i, (i < GRID_LEVELS cfg)%nat /\ gridLevelAt v cfg b i = Some g.
Proof.
  rewrite <- in_unsortedGridLevels. simpl. split.
  - apply Permutation_in, sortByDistance_perm.
  - apply Permutation_in, Permutation_sym, sortByDistance_perm.
Qed.

(** C7. For a non-zero price and at least one level, with [lower] and
    [upper] the bounds price - ATR x multiplier and price + ATR x
    multiplier, [step] their distance divided by the number N of levels,
    and [raw i] the point lower + step x i: the points start at [lower],
    are [step] apart and reach [upper] after N steps; every generated
    level has an index below N, buys at [raw] of its index and sells at
    that price x (1 + spacing) (both stored with 6 decimals), and lies at
    a relative distance from the price of at least spacing x 0.5; an index
    is generated exactly when its point is not closer than that; and the
    levels are sorted by that distance, the closest first, and stored in
    [gridLevels]. *)
Theorem generateGridLevels_grid :
  forall (v : SourceFile) (cfg : Config) (b : Bot),
    ~ currentPrice b == 0 ->
    (0 < GRID_LEVELS cfg)%nat ->
    let spacing := calculateDynamicGridSpacing v cfg b in
    let lower := currentPrice b - atr b * ATR_MULTIPLIER cfg in
    let upper := currentPrice b + atr b * ATR_MULTIPLIER cfg in
    let step := (upper - lower) / inject_Z (Z.of_nat (GRID_LEVELS cfg)) in
    let raw := fun i : nat => lower + step * inject_Z (Z.of_nat i) in
    let dist := fun i : nat => Qabs (raw i - currentPrice b) / currentPrice b in
    let levels := fst (generateGridLevels v cfg b) in
    gridLevels (snd (generateGridLevels v cfg b)) = levels
    /\ raw 0%nat == lower
    /\ (forall i, raw (S i) - raw i == step)
    /\ raw (GRID_LEVELS cfg) == upper
    /\ (forall g, In g levels ->
          (level g < GRID_LEVELS cfg)%nat
          /\ buyPrice g = toFixed 6 (raw (level g))
          /\ sellPrice g = toFixed 6 (raw (level g) * (1 + spacing))
          /\ priceDistance g = dist (level g)
          /\ spacing * 0.5 <= priceDistance g)
    /\ (forall i, (i < GRID_LEVELS cfg)%nat ->
          (exists g, In g levels /\ level g = i) <-> spacing * 0.5 <= dist i)
    /\ StronglySorted closerOrEqual levels.
Proof.
  intros v cfg b Hp Hn spacing lower upper step raw dist levels.
  assert (Hat : forall i g, gridLevelAt v cfg b i = Some g ->
            level g = i /\ buyPrice g = toFixed 6 (raw i)
            /\ sellPrice g = toFixed 6 (raw i * (1 + spacing))
            /\ priceDistance g = dist i /\ spacing * 0.5 <= dist i).
  { intros i g Hg. unfold gridLevelAt in Hg.
    fold spacing in Hg.
    destruct (ltb (distanceFromCenter b (rawBuyPrice cfg b i)) (spacing * 0.5))
      eqn:E; [discriminate|].
    apply ltb_false in E. injection Hg as <-. simpl.
    repeat split; try reflexivity. exact E. }
  split; [reflexivity|].
  split; [subst raw; simpl; ring|].
  split.
  { intros i. subst raw. simpl. rewrite Nat2Z.inj_succ. unfold Z.succ.
    rewrite inject_Z_plus. ring. }
  split.
  { subst raw step. simpl. field.
    intros H0. unfold Qeq in H0. simpl in H0. lia. }
  split.
  { intros g Hg. apply in_generateGridLevels in Hg.
    destruct Hg as (i & Hi & Hg).
    destruct (Hat i g Hg) as (Hl & Hb & Hs & Hd & Hk).
    rewrite Hl. repeat split; try assumption. rewrite Hd. exact Hk. }
  split.
  { intros i Hi. split.
    - intros (g & Hg & Hl). apply in_generateGridLevels in Hg.
      destruct Hg as (j & Hj & Hg).
      destruct (Hat j g Hg) as (Hl' & _ & _ & _ & Hk). congruence.
    - intros Hk.
      assert (E : ltb (dist i) (spacing * 0.5) = false) by (apply ltb_false, Hk).
      destruct (gridLevelAt v cfg b i) as [g|] eqn:Hg.
      + exists g. split.
        * apply in_generateGridLevels. exists i. split; assumption.
        * apply (Hat i g Hg).
      + unfold gridLevelAt in Hg. fold spacing in Hg.
        change (distanceFromCenter b (rawBuyPrice cfg b i)) with (dist i) in Hg.
        rewrite E in Hg. discriminate. }
  apply sortByDistance_sorted.
Qed.

End GeneratedGrid.

(** ** Closing a position *)

Section CloseTrade.
Import JS HedgeBot HedgeRun.
Local Open Scope Q_scope.
Local Open Scope string_scope.

Variable config : Config.
Variable exchange : nat -> Outcome string.

(** The unfolding of [closeTrade]: the function of the source, calling
    itself. *)
Lemma closeTrade_unfold (now : Z) (sym reason : string) (px : Q)
    (type : string) (sw : Sys) :
  closeTrade config exchange now sym reason px type sw
  = closeTrade_body config exchange (closeTrade config exchange now)
                    now sym reason px type sw.
Proof.
  unfold closeTrade at 1. unfold closeTrade_body at 1 3.
  destruct sw as [state w].
  destruct (String.eqb type "main") eqn:Etype; [|reflexivity].
  destruct (openTrade state) as [t|]; [|reflexivity].
  destruct (if isRealTrade config then _ else _) as [[id | msg] w1];
    [|reflexivity].
  destruct (hedgeTrade (set_openTrade None _)); reflexivity.
Qed.

Lemma closeTrade_hedge_outcome (now : Z) (sym reason : string) (px : Q)
    (state : SymbolState) (w : World) :
  let r := closeTrade config exchange now sym reason px "hedge" (state, w) in
  (fst r = false /\ fst (snd r) = state)
  \/ (exists h, hedgeTrade state = Some h /\ fst r = true
               /\ fst (snd r) = hedgeClosed h reason px now state).
Proof.
  unfold closeTrade, closeTrade_body. simpl.
  destruct (hedgeTrade state) as [h|]; [|left; split; reflexivity].
  destruct (isRealTrade config).
  - unfold closeOrder, placeOrder.
    destruct (exchange (calls w)) as [id | msg]; simpl.
    + right. exists h. repeat split; reflexivity.
    + left. split; reflexivity.
  - right. exists h. repeat split; reflexivity.
Qed.


Lemma closeTrade_main_outcome (now : Z) (sym reason : string) (px : Q)
    (state : SymbolState) (w : World) :
  let r := closeTrade config exchange now sym reason px "main" (state, w) in
  fst (snd r) = state
  \/ (exists t, openTrade state = Some t
        /\ (fst (snd r) = mainClosed t reason px now state
            \/ exists h, hedgeTrade state = Some h
                 /\ fst (snd r)
                    = hedgeClosed h "MAIN_CLOSED" px now
                        (mainClosed t reason px now state))).
Proof.
  cbv zeta. rewrite closeTrade_unfold. unfold closeTrade_body.
  cbn -[closeTrade].
  destruct (openTrade state) as [t|]; [|left; reflexivity].
  destruct (if isRealTrade config then _ else _) as [[id | msg] w1];
    [|left; reflexivity].
  right. exists t. split; [reflexivity|].
  destruct (hedgeTrade state) as [h|] eqn:Hh; [|left; reflexivity].
  pose proof (closeTrade_hedge_outcome now sym "MAIN_CLOSED" px
                (set_openTrade None
                   (push_trade (recordOf t "main" reason px now) state)) w1)
    as Hnested.
  cbv zeta in Hnested.
  destruct (closeTrade config exchange now sym "MAIN_CLOSED" px "hedge" _)
    as [ok [s2 w2]].
  cbn [fst snd] in *.
  destruct Hnested as [[_ Hsame] | (h' & Hh' & _ & Hclosed)].
  - left. exact Hsame.
  - right. exists h. split; [reflexivity|]. simpl in Hh'.
    rewrite Hh in Hh'. injection Hh' as <-. exact Hclosed.
Qed.



End CloseTrade.

(** ** What one tick does to the positions and to the trade log *)

Section TickFacts.
Import JS HedgeBot HedgeRun.
Local Open Scope Q_scope.
Local Open Scope string_scope.

Variable config : Config.
Variable exchange : nat -> Outcome string.
Variable EMA : nat -> list Q -> list Q.
Variable RSI : nat -> list Q -> list Q.
Variable MACD_histogram : list Q -> list (option Q).
Variable SMA : nat -> list Q -> list Q.
Variable sym : string.
Variable symbolConfig : SymbolConfig.

Lemma evolves_refl (a : option Trade) : evolves a a.
Proof.
  destruct a as [t|]; [right | left; reflexivity].
  exists t, t. auto.
Qed.

Lemma evolves_trans (a b c : option Trade) :
  evolves a b -> evolves b c -> evolves a c.
Proof.
  intros Hab [Hc | (t' & t'' & Hb & Hc & Hbc)]; [left; exact Hc|].
  destruct Hab as [Hb' | (t & t0 & Ha & Hb' & Hab)]; [congruence|].
  rewrite Hb in Hb'. injection Hb' as <-.
  right. exists t, t''. split; [exact Ha|]. split; [exact Hc|].
  destruct Hbc as [Hbc | Hbc], Hab as [Hab | Hab]; auto.
  - left. congruence.
  - right. rewrite <- Hab. exact Hbc.
Qed.

Lemma appends_refl (P : string -> Prop) (s : SymbolState) : appends P s s.
Proof. exists []. split; [symmetry; apply app_nil_r | constructor]. Qed.

Lemma appends_same (P : string -> Prop) (s s' : SymbolState) :
  trades s' = trades s -> appends P s s'.
Proof.
  intros H. exists []. split; [rewrite H; symmetry; apply app_nil_r | constructor].
Qed.

Lemma appends_trans (P : string -> Prop) (s1 s2 s3 : SymbolState) :
  appends P s1 s2 -> appends P s2 s3 -> appends P s1 s3.
Proof.
  intros (n1 & E1 & F1) (n2 & E2 & F2). exists (n1 ++ n2)%list. split.
  - rewrite E2, E1. symmetry. apply app_assoc.
  - apply Forall_app. split; assumption.
Qed.

Lemma appends_weaken (P P' : string -> Prop) (s s' : SymbolState) :
  (forall r, P r -> P' r) -> appends P s s' -> appends P' s s'.
Proof.
  intros Himp (new & E & F). exists new. split; [exact E|].
  eapply List.Forall_impl; [|exact F]. intros r. apply Himp.
Qed.

(** *** [closeTrade] *)

Lemma closeTrade_hedge_step (now : Z) (reason : string) (px : Q) (sw : Sys) :
  let sw' := snd (closeTrade config exchange now sym reason px "hedge" sw) in
  openTrade (fst sw') = openTrade (fst sw)
  /\ evolves (hedgeTrade (fst sw)) (hedgeTrade (fst sw'))
  /\ appends (eq reason) (fst sw) (fst sw').
Proof.
  destruct sw as [state w]. cbv zeta.
  destruct (closeTrade_hedge_outcome config exchange now sym reason px state w)
    as [[_ Hsame] | (h & Hh & _ & Hclosed)]; cbn [fst snd] in *.
  - rewrite Hsame. repeat split; [apply evolves_refl | apply appends_refl].
  - rewrite Hclosed. repeat split; [left; reflexivity|].
    exists [recordOf h "hedge" reason px now]. split; [reflexivity|].
    constructor; [reflexivity | constructor].
Qed.

Lemma closeTrade_main_step (now : Z) (reason : string) (px : Q) (sw : Sys) :
  let sw' := snd (closeTrade config exchange now sym reason px "main" sw) in
  evolves (openTrade (fst sw)) (openTrade (fst sw'))
  /\ evolves (hedgeTrade (fst sw)) (hedgeTrade (fst sw'))
  /\ appends (fun r => r = reason \/ r = "MAIN_CLOSED") (fst sw) (fst sw').
Proof.
  destruct sw as [state w]. cbv zeta.
  destruct (closeTrade_main_outcome config exchange now sym reason px state w)
    as [Hsame | (t & Ht & [Hmain | (h & Hh & Hboth)])]; cbn [fst snd] in *.
  - rewrite Hsame. repeat split;
      [apply evolves_refl | apply evolves_refl | apply appends_refl].
  - rewrite Hmain. repeat split; [left; reflexivity | apply evolves_refl |].
    exists [recordOf t "main" reason px now]. split; [reflexivity|].
    constructor; [left; reflexivity | constructor].
  - rewrite Hboth. repeat split; [left; reflexivity | left; reflexivity |].
    exists [recordOf t "main" reason px now;
            recordOf h "hedge" "MAIN_CLOSED" px now].
    split.
    + simpl. rewrite <- app_assoc. reflexivity.
    + constructor; [left; reflexivity|].
      constructor; [right; reflexivity | constructor].
Qed.

(** *** The blocks of [mainLoop] *)

Lemma gridManagement_state (lastPx : Q) (sw : Sys) :
  let sw' := gridManagement sym symbolConfig lastPx sw in
  trades (fst sw') = trades (fst sw)
  /\ openTrade (fst sw') = openTrade (fst sw)
  /\ hedgeTrade (fst sw') = hedgeTrade (fst sw)
  /\ calls (snd sw') = calls (snd sw).
Proof.
  destruct sw as [state w]. unfold gridManagement. cbv zeta.
  destruct (match gridAnchor state with Some _ => _ | None => _ end);
    repeat split; reflexivity.
Qed.

Lemma trackPrice_fields (lastPx : Q) (t : Trade) :
  side (trackPrice lastPx t) = side t
  /\ entryPx (trackPrice lastPx t) = entryPx t
  /\ size (trackPrice lastPx t) = size t
  /\ stopLossPrice (trackPrice lastPx t) = stopLossPrice t.
Proof.
  unfold trackPrice.
  destruct (truthy_opt (maxPrice t)), (truthy_opt (minPrice t)); cbn;
    repeat match goal with
           | |- context [if ?c then _ else _] => destruct c
           end; repeat split; reflexivity.
Qed.

Lemma profitPercent_trackPrice (lastPx px : Q) (t : Trade) :
  profitPercent (trackPrice lastPx t) px = profitPercent t px.
Proof.
  destruct (trackPrice_fields lastPx t) as (Hs & He & _).
  unfold profitPercent. rewrite Hs, He. reflexivity.
Qed.

Lemma hedgingLogic_state (lastPx : Q) (now : Z) (t : Trade) (p : Q) (sw : Sys) :
  let sw' := hedgingLogic config exchange sym symbolConfig lastPx now t p sw in
  trades (fst sw') = trades (fst sw)
  /\ openTrade (fst sw') = openTrade (fst sw)
  /\ (hedgeTrade (fst sw) <> None -> hedgeTrade (fst sw') = hedgeTrade (fst sw)).
Proof.
  destruct sw as [state w]. unfold hedgingLogic. cbv zeta.
  destruct (hedgeTrade state) as [h|] eqn:Hh.
  - cbn. rewrite Hh. repeat split; reflexivity.
  - destruct (leb p (- HEDGE_LOSS_PERCENT symbolConfig));
      [|cbn; repeat split; congruence].
    destruct (if isRealTrade config then _ else _) as [[id | msg] w1];
      cbn; repeat split; congruence.
Qed.

Lemma hedgeManagement_step (lastPx : Q) (now : Z) (sw : Sys) :
  let sw' := hedgeManagement config exchange sym symbolConfig lastPx now sw in
  openTrade (fst sw') = openTrade (fst sw)
  /\ evolves (hedgeTrade (fst sw)) (hedgeTrade (fst sw'))
  /\ appends (eq "HEDGE_SL_HIT") (fst sw) (fst sw').
Proof.
  destruct sw as [state w]. unfold hedgeManagement. cbv zeta.
  destruct (hedgeTrade state) as [h|] eqn:Hh.
  2:{ cbn. rewrite Hh. repeat split; [apply evolves_refl | apply appends_refl]. }
  set (activate := geb (profitPercent h lastPx) (HEDGE_TP_PERCENT symbolConfig)
                   && negb (truthy_opt (stopLossPrice h))).
  assert (Hstep : forall h1 w1,
            (stopLossPrice h1 = stopLossPrice h
             \/ truthy_opt (stopLossPrice h) = false) ->
            let sw' :=
              match stopLossPrice h1 with
              | Some stop =>
                  if truthy stop && stopCrossed h1 lastPx stop
                  then snd (closeTrade config exchange now sym "HEDGE_SL_HIT"
                              lastPx "hedge" (set_hedgeTrade (Some h1) state, w1))
                  else (set_hedgeTrade (Some h1) state, w1)
              | None => (set_hedgeTrade (Some h1) state, w1)
              end in
            openTrade (fst sw') = openTrade state
            /\ evolves (Some h) (hedgeTrade (fst sw'))
            /\ appends (eq "HEDGE_SL_HIT") state (fst sw')).
  { intros h1 w1 Hstop. cbv zeta.
    assert (Hkeep : evolves (Some h) (Some h1))
      by (right; exists h, h1; auto).
    assert (Hidle : let sw' := (set_hedgeTrade (Some h1) state, w1) in
              openTrade (fst sw') = openTrade state
              /\ evolves (Some h) (hedgeTrade (fst sw'))
              /\ appends (eq "HEDGE_SL_HIT") state (fst sw')).
    { cbn. repeat split; [exact Hkeep | apply appends_same; reflexivity]. }
    destruct (stopLossPrice h1) as [stop|]; [|exact Hidle].
    destruct (truthy stop && stopCrossed h1 lastPx stop); [|exact Hidle].
    destruct (closeTrade_hedge_step now "HEDGE_SL_HIT" lastPx
                (set_hedgeTrade (Some h1) state, w1)) as (Ho & Hev & Hap).
    cbn [fst snd] in *. repeat split.
    - exact Ho.
    - eapply evolves_trans; [exact Hkeep | exact Hev].
    - eapply appends_trans; [|exact Hap]. apply appends_same. reflexivity. }
  cbv zeta in Hstep.
  destruct activate eqn:Eact; cbv beta iota zeta; cbn [fst snd]; rewrite Hh.
  - apply Hstep. right. subst activate.
    apply andb_true_iff in Eact. destruct Eact as [_ Eact].
    apply negb_true_iff in Eact. exact Eact.
  - apply Hstep. left. reflexivity.
Qed.

Lemma mainProtection_step (p : Q) (t : Trade) (sw : Sys) :
  let r := mainProtection sym symbolConfig p t sw in
  trades (fst (snd r)) = trades (fst sw)
  /\ hedgeTrade (fst (snd r)) = hedgeTrade (fst sw)
  /\ (openTrade (fst sw) = Some t -> openTrade (fst (snd r)) = Some (fst r))
  /\ (stopLossPrice (fst r) = stopLossPrice t
      \/ truthy_opt (stopLossPrice t) = false)
  /\ side (fst r) = side t.
Proof.
  destruct sw as [state w]. unfold mainProtection. cbv zeta.
  destruct (gtb p (MAIN_PROTECTION_START symbolConfig)
            && negb (truthy_opt (stopLossPrice t))) eqn:E; cbn.
  - apply andb_true_iff in E. destruct E as [_ E].
    apply negb_true_iff in E. repeat split; auto.
  - repeat split; auto.
Qed.

Lemma mainTakeProfitStopLoss_step (lastPx : Q) (now : Z) (p : Q) (t : Trade)
    (sw : Sys) :
  let sw' := mainTakeProfitStopLoss config exchange sym symbolConfig
               lastPx now p t sw in
  evolves (openTrade (fst sw)) (openTrade (fst sw'))
  /\ evolves (hedgeTrade (fst sw)) (hedgeTrade (fst sw'))
  /\ appends (fun r => r = mainReason symbolConfig p \/ r = "MAIN_CLOSED") (fst sw) (fst sw').
Proof.
  unfold mainTakeProfitStopLoss, mainReason. cbv zeta.
  assert (Hidle : evolves (openTrade (fst sw)) (openTrade (fst sw))
                  /\ evolves (hedgeTrade (fst sw)) (hedgeTrade (fst sw))
                  /\ appends (fun r => r = "MAIN_SL_HIT" \/ r = "MAIN_CLOSED")
                        (fst sw) (fst sw)).
  { repeat split; [apply evolves_refl | apply evolves_refl | apply appends_refl]. }
  destruct (geb p (MAIN_TP_PERCENT symbolConfig)).
  - apply closeTrade_main_step.
  - destruct (stopLossPrice t) as [stop|]; [|exact Hidle].
    destruct (truthy stop && stopCrossed t lastPx stop); [|exact Hidle].
    apply closeTrade_main_step.
Qed.


Lemma tradeManagement_split (lastPx : Q) (now : Z) (t : Trade) (sw : Sys) :
  tradeManagement config exchange sym symbolConfig lastPx now t sw
  = mainTakeProfitStopLoss config exchange sym symbolConfig lastPx now
      (profitPercent t lastPx)
      (fst (beforeTakeProfit config exchange sym symbolConfig lastPx now t sw))
      (snd (beforeTakeProfit config exchange sym symbolConfig lastPx now t sw)).
Proof.
  destruct sw as [state w]. unfold tradeManagement, beforeTakeProfit.
  cbv zeta. cbn [fst snd]. rewrite profitPercent_trackPrice.
  destruct (mainProtection _ _ _ _ _) as [t2 sw2]. reflexivity.
Qed.

Lemma beforeTakeProfit_step (lastPx : Q) (now : Z) (t : Trade) (sw : Sys) :
  openTrade (fst sw) = Some t ->
  let r := beforeTakeProfit config exchange sym symbolConfig lastPx now t sw in
  openTrade (fst (snd r)) = Some (fst r)
  /\ evolves (Some t) (Some (fst r))
  /\ (hedgeTrade (fst sw) <> None ->
      evolves (hedgeTrade (fst sw)) (hedgeTrade (fst (snd r))))
  /\ appends (eq "HEDGE_SL_HIT") (fst sw) (fst (snd r)).
Proof.
  intros Ht. destruct sw as [state w]. unfold beforeTakeProfit. cbv zeta.
  cbn [fst snd] in *.
  set (t1 := trackPrice lastPx t).
  set (p := profitPercent t1 lastPx).
  set (sw0 := (set_openTrade (Some t1) state, w)).
  destruct (hedgingLogic_state lastPx now t1 p sw0) as (Htr1 & Hop1 & Hh1).
  set (sw1 := hedgingLogic config exchange sym symbolConfig lastPx now t1 p sw0)
    in *.
  destruct (hedgeManagement_step lastPx now sw1) as (Hop2 & Hev2 & Hap2).
  set (sw2 := hedgeManagement config exchange sym symbolConfig lastPx now sw1)
    in *.
  destruct (mainProtection_step p t1 sw2) as (Htr3 & Hh3 & Hop3 & Hst3 & _).
  set (r := mainProtection sym symbolConfig p t1 sw2) in *.
  cbv zeta in *.
  assert (Hopen2 : openTrade (fst sw2) = Some t1).
  { rewrite Hop2, Hop1. reflexivity. }
  destruct (trackPrice_fields lastPx t) as (_ & _ & _ & Hstop1).
  fold t1 in Hstop1.
  split; [apply Hop3, Hopen2|].
  split.
  { right. exists t, (fst r). repeat split.
    destruct Hst3 as [Hst3 | Hst3]; [left | right]; congruence. }
  split.
  { intros Hh. rewrite Hh3.
    assert (Hh0 : hedgeTrade (fst sw0) = hedgeTrade state) by reflexivity.
    rewrite <- Hh0 in *. rewrite <- (Hh1 Hh). exact Hev2. }
  destruct Hap2 as (new & Enew & Fnew). exists new. split; [|exact Fnew].
  rewrite Htr3, Enew, Htr1. reflexivity.
Qed.

Lemma tradeManagement_step (lastPx : Q) (now : Z) (t : Trade) (sw : Sys) :
  openTrade (fst sw) = Some t ->
  let sw' := tradeManagement config exchange sym symbolConfig lastPx now t sw in
  evolves (Some t) (openTrade (fst sw'))
  /\ (hedgeTrade (fst sw) <> None ->
      evolves (hedgeTrade (fst sw)) (hedgeTrade (fst sw')))
  /\ appends (fun r => r = "HEDGE_SL_HIT" \/ r = mainReason symbolConfig (profitPercent t lastPx)
                       \/ r = "MAIN_CLOSED")
       (fst sw) (fst sw').
Proof.
  intros Ht. cbv zeta. rewrite tradeManagement_split.
  destruct (beforeTakeProfit_step lastPx now t sw Ht) as (Hop & Hev & Hh & Hap).
  cbv zeta in *.
  destruct (mainTakeProfitStopLoss_step lastPx now (profitPercent t lastPx)
              (fst (beforeTakeProfit config exchange sym symbolConfig lastPx now t sw))
              (snd (beforeTakeProfit config exchange sym symbolConfig lastPx now t sw))) as (Hev' & Hh' & Hap').
  cbv zeta in *. rewrite Hop in Hev'.
  split; [eapply evolves_trans; eassumption|].
  split; [intros Hne; eapply evolves_trans; [apply Hh, Hne | exact Hh']|].
  eapply appends_trans.
  - eapply appends_weaken; [|exact Hap]. intros r <-. left. reflexivity.
  - eapply appends_weaken; [|exact Hap']. intros r [-> | ->]; auto.
Qed.


(** *** One tick *)

Lemma tradeEntry_state (candles : list Candle) (lastPx : Q) (now : Z) (sw : Sys) :
  let sw' := tradeEntry config exchange EMA RSI MACD_histogram SMA
               sym symbolConfig candles lastPx now sw in
  trades (fst sw') = trades (fst sw)
  /\ hedgeTrade (fst sw') = hedgeTrade (fst sw).
Proof.
  destruct sw as [state w]. unfold tradeEntry. cbv zeta.
  destruct (fst (multiFactorEntry _ _ _ _ candles)) as [signal|];
    [|split; reflexivity].
  destruct (ltb _ _).
  - destruct (if isRealTrade config then _ else _) as [[r | msg] w2];
      split; reflexivity.
  - destruct (if isRealTrade config then _ else _) as [[r | msg] w2];
      split; reflexivity.
Qed.

Lemma tickSymbol_manage (candles : list Candle) (c : Candle) (now : Z)
    (t : Trade) (sw : Sys) :
  last candles = Some c ->
  openTrade (fst sw) = Some t ->
  tickSymbol config exchange EMA RSI MACD_histogram SMA
             sym symbolConfig candles now sw
  = tradeManagement config exchange sym symbolConfig (close c) now t
      (gridManagement sym symbolConfig (close c) sw).
Proof.
  intros Hc Ht. unfold tickSymbol. rewrite Hc.
  destruct (gridManagement_state (close c) sw) as (_ & Ho & _).
  cbv zeta in Ho. rewrite Ho, Ht. reflexivity.
Qed.

Lemma tickSymbol_entry (candles : list Candle) (c : Candle) (now : Z) (sw : Sys) :
  last candles = Some c ->
  openTrade (fst sw) = None ->
  tickSymbol config exchange EMA RSI MACD_histogram SMA
             sym symbolConfig candles now sw
  = tradeEntry config exchange EMA RSI MACD_histogram SMA
      sym symbolConfig candles (close c) now
      (gridManagement sym symbolConfig (close c) sw).
Proof.
  intros Hc Ht. unfold tickSymbol. rewrite Hc.
  destruct (gridManagement_state (close c) sw) as (_ & Ho & _).
  cbv zeta in Ho. rewrite Ho, Ht. reflexivity.
Qed.

Lemma tickSymbol_main (candles : list Candle) (now : Z) (sw : Sys) :
  openTrade (fst sw) <> None ->
  evolves (openTrade (fst sw))
    (openTrade (fst (tickSymbol config exchange EMA RSI MACD_histogram SMA
                       sym symbolConfig candles now sw))).
Proof.
  intros Hne. destruct (openTrade (fst sw)) as [t|] eqn:Ht; [|contradiction].
  destruct (last candles) as [c|] eqn:Hc.
  - rewrite (tickSymbol_manage candles c now t sw Hc Ht).
    destruct (gridManagement_state (close c) sw) as (_ & Ho & _).
    cbv zeta in Ho. rewrite Ht in Ho.
    apply (tradeManagement_step (close c) now t _ Ho).
  - unfold tickSymbol. rewrite Hc, Ht. apply evolves_refl.
Qed.

Lemma tickSymbol_hedge (candles : list Candle) (now : Z) (sw : Sys) :
  hedgeTrade (fst sw) <> None ->
  evolves (hedgeTrade (fst sw))
    (hedgeTrade (fst (tickSymbol config exchange EMA RSI MACD_histogram SMA
                        sym symbolConfig candles now sw))).
Proof.
  intros Hne. destruct (last candles) as [c|] eqn:Hc.
  2:{ unfold tickSymbol. rewrite Hc. apply evolves_refl. }
  destruct (gridManagement_state (close c) sw) as (_ & Ho & Hh & _).
  cbv zeta in Ho, Hh.
  destruct (openTrade (fst sw)) as [t|] eqn:Ht.
  - rewrite (tickSymbol_manage candles c now t sw Hc Ht).
    rewrite <- Hh.
    apply (tradeManagement_step (close c) now t _ Ho).
    rewrite Hh. exact Hne.
  - rewrite (tickSymbol_entry candles c now sw Hc Ht).
    destruct (tradeEntry_state candles (close c) now
                (gridManagement sym symbolConfig (close c) sw)) as (_ & Hh').
    cbv zeta in Hh'. rewrite Hh', Hh. apply evolves_refl.
Qed.


(** *** Runs of ticks *)

Lemma stopOf_evolves (slot : SymbolState -> option Trade) (sw sw' : Sys) (v : Q) :
  evolves (slot (fst sw)) (slot (fst sw')) ->
  stopOf slot sw = Some v -> truthy v = true ->
  slot (fst sw') <> None ->
  stopOf slot sw' = Some v.
Proof.
  unfold stopOf. intros [Hnone | (t & t' & Ha & Hb & Hst)] Hv Htr Hheld.
  - contradiction.
  - rewrite Ha in Hv. rewrite Hb.
    destruct Hst as [Hst | Hst]; [congruence|].
    rewrite Hv in Hst. simpl in Hst. congruence.
Qed.

Lemma stopOf_held (slot : SymbolState -> option Trade) (sw : Sys) (v : Q) :
  stopOf slot sw = Some v -> slot (fst sw) <> None.
Proof.
  unfold stopOf. destruct (slot (fst sw)); [discriminate | discriminate].
Qed.

(** C2, amended. On every run of ticks of a symbol, for the main and for
    the hedge position alike: once a non-zero stop-loss price is attached
    to the position, the position carries that same price after the run,
    whatever the prices of the run, as long as the position is not
    closed.  (A stop computed as exactly zero reads as no stop at all.) *)
Theorem stop_loss_ratchet :
  forall (ticks : list (list Candle * Z)) (sw : Sys) (v : Q),
    truthy v = true ->
    (stopOf openTrade sw = Some v ->
     heldThrough config exchange EMA RSI MACD_histogram SMA sym symbolConfig
       openTrade ticks sw ->
     stopOf openTrade
       (runTicks config exchange EMA RSI MACD_histogram SMA sym symbolConfig
          ticks sw) = Some v)
    /\ (stopOf hedgeTrade sw = Some v ->
        heldThrough config exchange EMA RSI MACD_histogram SMA sym symbolConfig
          hedgeTrade ticks sw ->
        stopOf hedgeTrade
          (runTicks config exchange EMA RSI MACD_histogram SMA sym symbolConfig
             ticks sw) = Some v).
Proof.
  intros ticks sw v Htr. split.
  - revert sw. induction ticks as [|i ticks IH]; intros sw Hv Hheld.
    + exact Hv.
    + destruct Hheld as [Hopen Hrest]. simpl. apply IH; [|exact Hrest].
      apply (stopOf_evolves openTrade sw); try assumption.
      apply tickSymbol_main. apply (stopOf_held _ _ _ Hv).
  - revert sw. induction ticks as [|i ticks IH]; intros sw Hv Hheld.
    + exact Hv.
    + destruct Hheld as [Hopen Hrest]. simpl. apply IH; [|exact Hrest].
      apply (stopOf_evolves hedgeTrade sw); try assumption.
      apply tickSymbol_hedge. apply (stopOf_held _ _ _ Hv).
Qed.

(** *** Take profit and stop loss of the main position *)



(** *** Entry *)


End TickFacts.

(** ** The hedge and the main position *)

Section Pairing.
Import JS HedgeBot HedgeRun.
Local Open Scope Q_scope.
Local Open Scope string_scope.

Variable config : Config.
Variable exchange : nat -> Outcome string.
Variable EMA : nat -> list Q -> list Q.
Variable RSI : nat -> list Q -> list Q.
Variable MACD_histogram : list Q -> list (option Q).
Variable SMA : nat -> list Q -> list Q.



End Pairing.

(** ** Worked inputs *)

Section WorkedInputs.
Import JS GridBot BotRun Defaults HedgeBot HedgeRun.
Local Open Scope Q_scope.
Local Open Scope string_scope.


(** Outside the accepted case: when the exchange accepts the request
    that closes the main position and rejects the one that closes the
    hedge, the main slot is empty and the hedge is still held. *)
Lemma hedge_kept_when_its_close_is_rejected :
  let step :=
    tick liveConfig (acceptingFirst 2) bullishEMA bullishRSI bullishMACD
         flatSMA "BTCUSDT" BTCUSDT_config in
  let closed := step (candlesAt 150, 3%Z)
                  (step (candlesAt 92, 2%Z) (holding (longAt 100))) in
  openTrade (fst closed) = None
  /\ option_map entryPx (hedgeTrade (fst closed)) = Some 92
  /\ map (fun r => (tradeType r, closeReason r)) (trades (fst closed))
     = [("main", "MAIN_TP_50%")].
Proof.
  cbv zeta. split; [vm_compute; reflexivity|].
  split; vm_compute; reflexivity.
Qed.


(** C2, as stated, fails: with a negative [HEDGE_SL_PERCENT] of -50, a
    long main position entered at 200 is hedged at 100; at 50 the hedge
    has a profit of 50% and its stop is computed as 100 x (1 - 100/100),
    which is 0; at 60 the same hedge gets the stop 10. *)
Lemma zero_stop_is_replaced :
  let hedged :=
    demoTick negativeStopConfig (candlesAt 50, 2%Z)
      (demoTick negativeStopConfig (candlesAt 100, 1%Z) (holding (longAt 200))) in
  let later := demoTick negativeStopConfig (candlesAt 60, 3%Z) hedged in
  exists v v',
    stopOf hedgeTrade hedged = Some v
    /\ stopOf hedgeTrade later = Some v'
    /\ option_map openTime (hedgeTrade (fst later))
       = option_map openTime (hedgeTrade (fst hedged))
    /\ v == 0 /\ v' == 10 /\ ~ v' == v.
Proof.
  cbv zeta. eexists _, _.
  split; [vm_compute; reflexivity|].
  split; [vm_compute; reflexivity|].
  split; [vm_compute; reflexivity|].
  split; [reflexivity|]. split; [reflexivity|].
  intros H. vm_compute in H. discriminate H.
Qed.

(** The profit sequence 21%, 25%, 18% on a long position entered at 100:
    the stop attached at 121 is still there after 125 and 118. *)
Lemma stop_loss_ratchet_witness :
  let attached := demoTick BTCUSDT_config (candlesAt 121, 1%Z) (holding (longAt 100)) in
  stopOf openTrade
    (runTicks demoConfig acceptingExchange bullishEMA bullishRSI bullishMACD
       flatSMA "BTCUSDT" BTCUSDT_config
       [(candlesAt 125, 2%Z); (candlesAt 118, 3%Z)] attached)
  = Some (100 * (1 + 10 / 100)).
Proof.
  cbv zeta.
  apply (proj1 (stop_loss_ratchet demoConfig acceptingExchange bullishEMA
                  bullishRSI bullishMACD flatSMA "BTCUSDT" BTCUSDT_config
                  [(candlesAt 125, 2%Z); (candlesAt 118, 3%Z)] _
                  (100 * (1 + 10 / 100)) eq_refl)).
  - vm_compute. reflexivity.
  - simpl. split; [vm_compute; discriminate|].
    split; [vm_compute; discriminate | exact I].
Defined.



(** C5, as stated, fails: on [server.js], with no bar at all on any
    interval, the ATR computation of a live bot that has seen the single
    price 100 returns the number 1. *)
Lemma short_history_gives_demo_atr :
  (forall interval, fewBars CONFIG_server (klinesOf [] interval))
  /\ exists a,
       fst (calculateATR (fun x => x) server_js CONFIG_server (klinesOf [])
              volatileBot) = Returned a
       /\ a == 1.
Proof.
  split.
  - intros interval. exists {| retCode := 0; result_list := Some [] |}, [].
    repeat split. simpl. lia.
  - eexists. split; [vm_compute; reflexivity | reflexivity].
Qed.

Lemma calculateATR_few_bars_witness :
  calculateATR (fun x => x) part_000 CONFIG_part_000 (klinesOf []) volatileBot
  = (Thrown "Invalid ATR data", volatileBot).
Proof.
  assert (Hfew : forall interval, fewBars CONFIG_part_000 (klinesOf [] interval)).
  { intros interval. exists {| retCode := 0; result_list := Some [] |}, [].
    repeat split. simpl. lia. }
  apply (calculateATR_few_bars (fun x => x) CONFIG_part_000
           (klinesOf []) (klinesOf []) volatileBot Hfew Hfew).
Defined.

(** C6, as stated, fails: in a volatile market with an ATR of 5 at the
    price 100, the spacing of [part_000] is the maximum 0.025, not
    clamp(0.04) x 1.5 = 0.0375. *)
Lemma spacing_is_clamped_again :
  calculateDynamicGridSpacing part_000 CONFIG_part_000 volatileBot == 0.025
  /\ clampSpacing CONFIG_part_000 (5 / 100 * 0.8) * 1.5 == 0.0375
  /\ ~ calculateDynamicGridSpacing part_000 CONFIG_part_000 volatileBot
       == clampSpacing CONFIG_part_000
            (atr volatileBot / currentPrice volatileBot * 0.8) * 1.5.
Proof.
  split; [reflexivity|]. split; [reflexivity|].
  intros H. vm_compute in H. discriminate H.
Qed.

Lemma calculateDynamicGridSpacing_clamped_witness :
  MIN_GRID_SPACING CONFIG_part_000
  <= calculateDynamicGridSpacing part_000 CONFIG_part_000 volatileBot
  /\ calculateDynamicGridSpacing part_000 CONFIG_part_000 volatileBot
     <= MAX_GRID_SPACING CONFIG_part_000.
Proof.
  assert (Hmm : MIN_GRID_SPACING CONFIG_part_000 <= MAX_GRID_SPACING CONFIG_part_000)
    by (vm_compute; discriminate).
  destruct (proj2 (calculateDynamicGridSpacing_clamped part_000 CONFIG_part_000
                     volatileBot Hmm)) as (_ & Hlo & Hhi & _).
  - vm_compute. discriminate.
  - vm_compute. discriminate.
  - split; assumption.
Defined.

Lemma generateGridLevels_grid_witness :
  StronglySorted closerOrEqual
    (fst (generateGridLevels part_000 CONFIG_part_000 volatileBot)).
Proof.
  assert (Hp : ~ currentPrice volatileBot == 0) by (vm_compute; discriminate).
  assert (Hn : (0 < GRID_LEVELS CONFIG_part_000)%nat) by (simpl; lia).
  apply (generateGridLevels_grid part_000 CONFIG_part_000 volatileBot Hp Hn).
Defined.

(** C8, as stated, fails: in a volatile market the quantity at the price
    100 is min(1000/12/100, 1000 x 0.09/100) x 0.7 = 7/12, not the value
    scaled by the factor 1.5 of the spacing. *)
Lemma quantity_has_its_own_factors :
  calculateOrderQuantity CONFIG_part_000 volatileBot 100 == 7 # 12
  /\ ~ calculateOrderQuantity CONFIG_part_000 volatileBot 100
       == Qmax (Qmin (1000 / 12 / 100) (1000 * 0.09 / 100)
                * spacingMultiplier part_000 (marketCondition volatileBot))
               0.001
  /\ ~ calculateOrderQuantity CONFIG_server volatileBot 100
       == Qmax (Qmin (1000 / 15 / 100) (1000 * 0.08 / 100)
                * spacingMultiplier server_js (marketCondition volatileBot))
               0.001.
Proof.
  split; [reflexivity|]. split.
  - intros H. vm_compute in H. discriminate H.
  - intros H. vm_compute in H. discriminate H.
Qed.

Lemma calculateOrderQuantity_formula_witness :
  0.001 <= calculateOrderQuantity CONFIG_part_000 volatileBot 100.
Proof.
  assert (Hp : ~ 100 == 0) by (vm_compute; discriminate).
  assert (Hn : (0 < GRID_LEVELS CONFIG_part_000)%nat) by (simpl; lia).
  apply (calculateOrderQuantity_formula CONFIG_part_000 volatileBot 100 Hp Hn).
Defined.



(** Ten samples at 100 followed by ten at 103: a momentum of 3% at no
    volatility, a bull market. *)
Lemma detectMarketCondition_decision_table_witness :
  fst (detectMarketCondition part_001 CONFIG_server risingBot) = BULL.
Proof.
  assert (Hpos : Forall (fun p => 0 < p) (priceHistory risingBot)).
  { simpl. repeat (constructor; [reflexivity|]). constructor. }
  rewrite (detectMarketCondition_decision_table part_001 CONFIG_server
             risingBot Hpos).
  vm_compute. reflexivity.
Defined.

Lemma stored_regime_never_unknown_witness :
  marketCondition
    (call (fun x => x) part_000 CONFIG_part_000 CallDetectMarketCondition
       (call (fun x => x) part_000 CONFIG_part_000
          (CallGetCurrentPrice (Some 100) 0) (constructor 0 false)))
  <> UNKNOWN.
Proof.
  apply (stored_regime_never_unknown (fun x => x) part_000 CONFIG_part_000).
  apply reach_call, reach_call, reach_constructor.
Defined.

End WorkedInputs.
(** ** More facts about the primitives *)

Section ArrayFacts.
Import JS.
Local Open Scope Q_scope.

(** [xs.slice(-n)] is the suffix of the last [n] elements. *)
Lemma slice_suffix (A : Type) (n : nat) (xs : list A) :
  (0 < n)%nat ->
  slice (- Z.of_nat n) None xs = skipn (length xs - n) xs.
Proof.
  intros Hpos. unfold slice.
  assert (E : (- Z.of_nat n <? 0)%Z = true) by (apply Z.ltb_lt; lia).
  rewrite E.
  assert (K : Z.to_nat (Z.max (Z.of_nat (length xs) + - Z.of_nat n) 0)
              = (length xs - n)%nat).
  { destruct (Z.max_spec (Z.of_nat (length xs) + - Z.of_nat n) 0)
      as [[? ->] | [? ->]]; lia. }
  rewrite K. apply firstn_all2. rewrite length_skipn. lia.
Qed.

Lemma last_skipn (A : Type) (k : nat) (xs : list A) :
  (k < length xs)%nat -> last (skipn k xs) = last xs.
Proof.
  intros Hk. rewrite <- (firstn_skipn k xs) at 2. rewrite last_app.
  destruct (last (skipn k xs)) eqn:E; [reflexivity|].
  apply last_None in E.
  apply (f_equal (@length A)) in E. rewrite length_skipn in E.
  change (length (@nil A)) with 0%nat in E. lia.
Qed.

Lemma slice_suffix_last (A : Type) (n : nat) (xs : list A) :
  (0 < n)%nat -> last (slice (- Z.of_nat n) None xs) = last xs.
Proof.
  intros Hpos. rewrite slice_suffix by exact Hpos.
  destruct xs as [|x xs]; [reflexivity|].
  apply last_skipn. simpl. lia.
Qed.

Lemma slice_suffix_length (A : Type) (n : nat) (xs : list A) :
  (0 < n)%nat ->
  length (slice (- Z.of_nat n) None xs) = Nat.min n (length xs).
Proof.
  intros Hpos. rewrite slice_suffix by exact Hpos.
  rewrite length_skipn. lia.
Qed.

Lemma fold_min_le (r : list Q) (a : Q) :
  fold_left Math_min r a <= a
  /\ forall x, In x r -> fold_left Math_min r a <= x.
Proof.
  revert a. induction r as [|y r IH]; intros a; simpl.
  - split; [apply Qle_refl | intros x []].
  - destruct (IH (Math_min a y)) as [H1 H2]. split.
    + eapply Qle_trans; [exact H1 | apply Q.le_min_l].
    + intros x [<- | Hx]; [|apply H2, Hx].
      eapply Qle_trans; [exact H1 | apply Q.le_min_r].
Qed.

Lemma fold_max_ge (r : list Q) (a : Q) :
  a <= fold_left Math_max r a
  /\ forall x, In x r -> x <= fold_left Math_max r a.
Proof.
  revert a. induction r as [|y r IH]; intros a; simpl.
  - split; [apply Qle_refl | intros x []].
  - destruct (IH (Math_max a y)) as [H1 H2]. split.
    + eapply Qle_trans; [apply Q.le_max_l | exact H1].
    + intros x [<- | Hx]; [|apply H2, Hx].
      eapply Qle_trans; [apply Q.le_max_r | exact H1].
Qed.

Lemma Math_min_list_le (xs : list Q) (x : Q) :
  In x xs -> Math_min_list xs <= x.
Proof.
  destruct xs as [|a r]; intros Hx; [destruct Hx|]. simpl.
  destruct (fold_min_le r a) as [H1 H2].
  destruct Hx as [<- | Hx]; [exact H1 | apply H2, Hx].
Qed.

Lemma Math_max_list_ge (xs : list Q) (x : Q) :
  In x xs -> x <= Math_max_list xs.
Proof.
  destruct xs as [|a r]; intros Hx; [destruct Hx|]. simpl.
  destruct (fold_max_ge r a) as [H1 H2].
  destruct Hx as [<- | Hx]; [exact H1 | apply H2, Hx].
Qed.

(** The minimum of a non-empty array is one of its elements. *)
Lemma fold_min_in (r : list Q) (a : Q) :
  exists x, In x (a :: r) /\ fold_left Math_min r a == x.
Proof.
  revert a. induction r as [|y r IH]; intros a; simpl.
  - exists a. split; [left; reflexivity | reflexivity].
  - destruct (IH (Math_min a y)) as (x & [Hx | Hx] & E).
    + unfold Math_min in Hx.
      destruct (Q.min_dec a y) as [Hm | Hm].
      * exists a. split; [left; reflexivity|]. rewrite E, <- Hx. exact Hm.
      * exists y. split; [right; left; reflexivity|]. rewrite E, <- Hx. exact Hm.
    + exists x. split; [right; right; exact Hx | exact E].
Qed.

Lemma Math_min_list_in (xs : list Q) :
  xs <> [] -> exists x, In x xs /\ Math_min_list xs == x.
Proof.
  destruct xs as [|a r]; intros H; [contradiction|]. apply fold_min_in.
Qed.

End ArrayFacts.

(** ** The samples of the grid bot *)

Section Samples.
Import JS GridBot BotRun BotAudit.
Local Open Scope Q_scope.

Variable Math_sqrt : Q -> Q.
Variable v : SourceFile.

Lemma push_bounded_length (cap : nat) (x : Q) (xs : list Q) :
  (length xs <= cap)%nat -> (length (push_bounded cap x xs) <= cap)%nat.
Proof.
  intros H. unfold push_bounded.
  destruct (cap <? length (xs ++ [x]))%nat eqn:E.
  - destruct xs as [|y xs]; simpl in *; [lia|].
    rewrite length_app in *. simpl in *. lia.
  - apply Nat.ltb_ge in E. exact E.
Qed.

Lemma push_bounded_grows (cap : nat) (x : Q) (xs : list Q) :
  (length xs <= length (push_bounded cap x xs))%nat.
Proof.
  unfold push_bounded.
  destruct (cap <? length (xs ++ [x]))%nat.
  - destruct xs as [|y xs]; simpl; [lia|]. rewrite length_app. simpl. lia.
  - rewrite length_app. simpl. lia.
Qed.

Lemma push_bounded_last (cap : nat) (x : Q) (xs : list Q) :
  (0 < cap)%nat -> last (push_bounded cap x xs) = Some x.
Proof.
  intros Hc. unfold push_bounded.
  destruct (cap <? length (xs ++ [x]))%nat eqn:E.
  - apply Nat.ltb_lt in E. destruct xs as [|y xs]; simpl in *; [lia|].
    apply last_snoc.
  - apply last_snoc.
Qed.

Lemma sameSamples_refl (b : Bot) : sameSamples b b.
Proof. repeat split. left. reflexivity. Qed.

Lemma sameSamples_trans (b1 b2 b3 : Bot) :
  sameSamples b1 b2 -> sameSamples b2 b3 -> sameSamples b1 b3.
Proof.
  intros (Hh & Hp & Hb & Hm & Hv) (Hh' & Hp' & Hb' & Hm' & Hv').
  repeat split; try congruence.
  destruct Hv' as [Hv' | Hv']; [|right; congruence].
  destruct Hv as [Hv | Hv]; [left; congruence | right; exact Hv].
Qed.

Lemma calculateVolatilityIndex_samples (b : Bot) :
  sameSamples b (calculateVolatilityIndex Math_sqrt b).
Proof.
  unfold calculateVolatilityIndex.
  destruct (length (priceChangeBuffer b) <? 10)%nat eqn:E.
  - apply sameSamples_refl.
  - apply Nat.ltb_ge in E. repeat split. right. exact E.
Qed.

Lemma set_atr_samples (a : Q) (b : Bot) : sameSamples b (set_atr a b).
Proof. repeat split. left. reflexivity. Qed.

Lemma calculateATR_samples (cfg : Config) getKline (b : Bot) :
  sameSamples b (snd (calculateATR Math_sqrt v cfg getKline b)).
Proof.
  assert (H0 : forall a, sameSamples b
                 (calculateVolatilityIndex Math_sqrt (set_atr a b))).
  { intros a. eapply sameSamples_trans; [apply set_atr_samples|].
    apply calculateVolatilityIndex_samples. }
  assert (H1 : sameSamples b (snd (calculateATR_001 Math_sqrt cfg getKline b))).
  { unfold calculateATR_001.
    destruct (atrOverIntervals cfg getKline) as [atrSum n].
    destruct (0 <? n)%nat; [apply H0 | apply sameSamples_refl]. }
  assert (Hd : sameSamples b (snd (calculateDemoATR Math_sqrt b))).
  { unfold calculateDemoATR. cbn [snd]. apply H0. }
  unfold calculateATR. destruct v.
  - unfold calculateATR_000.
    destruct (getKline "15"%string) as [resp | msg]; [|apply sameSamples_refl].
    destruct (validKlines cfg resp); [apply H0 | apply sameSamples_refl].
  - exact H1.
  - unfold calculateATR_server.
    destruct (calculateDemoATR Math_sqrt b) as [a bd].
    destruct (useDemo b); [exact Hd|].
    destruct (calculateATR_001 Math_sqrt cfg getKline b) as [[a1 | msg] b1];
      simpl in *; assumption.
Qed.

Lemma detectMarketCondition_samples (cfg : Config) (b : Bot) :
  sameSamples b (snd (detectMarketCondition v cfg b)).
Proof.
  unfold detectMarketCondition.
  destruct (length (priceHistory b) <? 20)%nat; [apply sameSamples_refl|].
  repeat split. left. reflexivity.
Qed.

Lemma generateGridLevels_samples (cfg : Config) (b : Bot) :
  sameSamples b (snd (generateGridLevels v cfg b)).
Proof. repeat split. left. reflexivity. Qed.

Lemma rebalanceGrid_samples (cfg : Config) getKline now ordersSize (b : Bot) :
  sameSamples b (snd (rebalanceGrid Math_sqrt v cfg getKline now ordersSize b)).
Proof.
  unfold rebalanceGrid.
  destruct (now - lastRebalance b <? REBALANCE_COOLDOWN cfg)%Z;
    [apply sameSamples_refl|].
  destruct (nth_error _ _) as [centerLevel|]; [|apply sameSamples_refl].
  destruct (shouldRebalance cfg ordersSize b centerLevel);
    [|apply sameSamples_refl].
  pose proof (detectMarketCondition_samples cfg b) as Hd.
  destruct (detectMarketCondition v cfg b) as [r b1]. simpl in Hd.
  pose proof (calculateATR_samples cfg getKline b1) as Ha.
  destruct (calculateATR Math_sqrt v cfg getKline b1) as [[a | msg] b2];
    simpl in Ha.
  - eapply sameSamples_trans; [exact Hd|].
    eapply sameSamples_trans; [exact Ha|].
    repeat split. left. reflexivity.
  - eapply sameSamples_trans; eassumption.
Qed.

Lemma sound_sameSamples (b b' : Bot) :
  sameSamples b b' -> sound b -> sound b'.
Proof.
  intros (Hh & Hp & Hb & _ & Hv) ((H1 & H2) & H3 & H4).
  unfold sound, samplesBounded, priceIsNewestSample, quietStart in *.
  rewrite Hh, Hp, Hb. repeat split; try assumption.
  intros Hlen. destruct Hv as [Hv | Hv]; [|lia].
  rewrite Hv. apply H4, Hlen.
Qed.

Lemma sound_recordPrice (newPrice : Q) (b : Bot) :
  sound b -> sound (recordPrice newPrice b).
Proof.
  intros ((H1 & H2) & H3 & H4).
  unfold sound, samplesBounded, priceIsNewestSample, quietStart in *.
  unfold recordPrice. cbn [priceHistory priceChangeBuffer currentPrice
                             volatilityIndex].
  repeat split.
  - apply push_bounded_length, H1.
  - destruct (gtb (currentPrice b) 0); [|exact H2].
    apply push_bounded_length, H2.
  - pose proof (push_bounded_last 200 newPrice (priceHistory b)) as Hl.
    destruct (push_bounded 200 newPrice (priceHistory b)) eqn:E.
    + assert (Hs : last (@nil Q) = Some newPrice) by (apply Hl; lia).
      discriminate.
    + apply Hl. lia.
  - intros Hlen. apply H4.
    destruct (gtb (currentPrice b) 0); [|exact Hlen].
    pose proof (push_bounded_grows 20
                  ((newPrice - currentPrice b) / currentPrice b)
                  (priceChangeBuffer b)). lia.
Qed.

Lemma sound_set_useDemo (d : bool) (b : Bot) :
  sound b -> sound (set_useDemo d b).
Proof. intros H. exact H. Qed.

Lemma sound_getCurrentPrice (ticker : option Q) (random : Q) (b : Bot) :
  sound b -> sound (snd (getCurrentPrice v ticker random b)).
Proof.
  intros H. unfold getCurrentPrice, getDemoPrice.
  destruct v, ticker; simpl; try (apply sound_recordPrice, H); try exact H;
    destruct (useDemo b); simpl; apply sound_recordPrice; exact H.
Qed.

Lemma sound_loopRound (cfg : Config) (i : Round) (b : Bot) :
  sound b -> sound (loopRound Math_sqrt v cfg i b).
Proof.
  intros H. unfold loopRound.
  pose proof (sound_getCurrentPrice (ticker i) (random i) b H) as Hp.
  destruct (getCurrentPrice v (ticker i) (random i) b) as [[p | msg] b1];
    simpl in Hp; [|exact Hp].
  destruct (negb (truthy (currentPrice b1))); [exact Hp|].
  pose proof (calculateATR_samples cfg (klines i) b1) as Ha.
  destruct (calculateATR Math_sqrt v cfg (klines i) b1) as [[a | msg] b2];
    simpl in Ha; [|apply (sound_sameSamples _ _ Ha Hp)].
  pose proof (detectMarketCondition_samples cfg b2) as Hd.
  destruct (detectMarketCondition v cfg b2) as [r b3]. simpl in Hd.
  apply (sound_sameSamples _ _ (rebalanceGrid_samples cfg _ _ _ _)).
  assert (H3 : sound b3).
  { apply (sound_sameSamples _ _ Hd), (sound_sameSamples _ _ Ha), Hp. }
  destruct (gridLevels b3); [|exact H3].
  apply (sound_sameSamples _ _ (generateGridLevels_samples cfg b3)), H3.
Qed.

Lemma sound_call (cfg : Config) (c : Call) (b : Bot) :
  sound b -> sound (call Math_sqrt v cfg c b).
Proof.
  intros H. destruct c; simpl.
  - apply sound_getCurrentPrice, H.
  - apply (sound_sameSamples _ _ (calculateATR_samples cfg _ b)), H.
  - apply (sound_sameSamples _ _ (detectMarketCondition_samples cfg b)), H.
  - apply (sound_sameSamples _ _ (generateGridLevels_samples cfg b)), H.
  - apply (sound_sameSamples _ _ (rebalanceGrid_samples cfg _ _ _ b)), H.
  - apply sound_loopRound, H.
Qed.

Lemma runCalls_reachable (cs : list (Config * Call)) (b : Bot) :
  Reachable Math_sqrt v b -> Reachable Math_sqrt v (runCalls Math_sqrt v cs b).
Proof.
  unfold runCalls. revert b.
  induction cs as [|c cs IH]; intros b Hr; simpl; [exact Hr|].
  apply IH. constructor. exact Hr.
Qed.

Lemma reachable_sound (b : Bot) : Reachable Math_sqrt v b -> sound b.
Proof.
  intros Hr. induction Hr as [now demo | cfg c b Hr IH].
  - repeat split; simpl; try lia.
  - apply sound_call, IH.
Qed.

End Samples.

(** ** The samples on every reachable instance *)

Section ReachableSamples.
Import JS GridBot BotRun BotAudit GridTrading WebUI.
Local Open Scope Q_scope.

Variable Math_sqrt : Q -> Q.
Variable v : SourceFile.

(** X1. On every instance a bot can reach from the constructor, under
    any configurations: the price history holds at most 200 samples and
    the buffer of price changes at most 20; and the current price is the
    newest sample of the history, or the 0 of the constructor while the
    history is empty. *)
Theorem samples_bounded_and_current :
  forall b : Bot,
    Reachable Math_sqrt v b ->
    (length (priceHistory b) <= 200)%nat
    /\ (length (priceChangeBuffer b) <= 20)%nat
    /\ (priceHistory b = [] -> currentPrice b = 0)
    /\ (priceHistory b <> [] -> last (priceHistory b) = Some (currentPrice b)).
Proof.
  intros b Hr.
  destruct (reachable_sound Math_sqrt v b Hr) as ((H1 & H2) & H3 & _).
  unfold priceIsNewestSample in H3.
  split; [exact H1|]. split; [exact H2|].
  destruct (priceHistory b) as [|x xs].
  - split; [intros _; exact H3 | intros H; contradiction].
  - split; [discriminate | intros _; exact H3].
Qed.

(** X2. On every reachable instance with fewer than ten recorded price
    changes the volatility index is still the 0 of the constructor; so,
    under a volatility threshold that is not negative, the classifier
    does not answer VOLATILE there. *)
Theorem volatility_zero_before_ten_changes :
  forall (cfg : Config) (b : Bot),
    Reachable Math_sqrt v b ->
    (length (priceChangeBuffer b) < 10)%nat ->
    0 <= VOLATILITY_THRESHOLD cfg ->
    volatilityIndex b = 0
    /\ calculateVolatilityIndex Math_sqrt b = b
    /\ fst (detectMarketCondition v cfg b) <> VOLATILE.
Proof.
  intros cfg b Hr Hlen Hthr.
  destruct (reachable_sound Math_sqrt v b Hr) as (_ & _ & Hq).
  pose proof (Hq Hlen) as Hv. split; [exact Hv|]. split.
  { unfold calculateVolatilityIndex.
    apply Nat.ltb_lt in Hlen. rewrite Hlen. reflexivity. }
  unfold detectMarketCondition.
  destruct (length (priceHistory b) <? 20)%nat; [discriminate|].
  cbn [fst]. rewrite Hv.
  assert (E : gtb 0 (VOLATILITY_THRESHOLD cfg) = false)
    by (apply ltb_false, Hthr).
  rewrite E.
  repeat match goal with
         | |- context [if ?c then _ else _] => destruct c
         end; discriminate.
Qed.

(** X3. On every reachable instance with a price that is not negative,
    the support level shown by the web interface is at most the current
    price and the resistance level at least the current price. *)
Theorem support_below_price_below_resistance :
  forall b : Bot,
    Reachable Math_sqrt v b ->
    0 <= currentPrice b ->
    calculateSupport b <= currentPrice b
    /\ currentPrice b <= calculateResistance b.
Proof.
  intros b Hr Hp.
  destruct (reachable_sound Math_sqrt v b Hr) as (_ & Hn & _).
  unfold priceIsNewestSample in Hn.
  unfold calculateSupport, calculateResistance.
  destruct (length (priceHistory b) <? 10)%nat eqn:E.
  - split; lra.
  - apply Nat.ltb_ge in E.
    assert (Hin : In (currentPrice b) (slice (-20) None (priceHistory b))).
    { destruct (priceHistory b) as [|x xs] eqn:Eh; [simpl in E; lia|].
      rewrite <- Eh in *.
      change (-20)%Z with (- Z.of_nat 20)%Z.
      pose proof (slice_suffix_last Q 20 (priceHistory b)) as Hl.
      rewrite Hn in Hl.
      apply last_Some in Hl; [|lia]. destruct Hl as [l' ->].
      apply in_or_app. right. left. reflexivity. }
    split; [apply Math_min_list_le, Hin | apply Math_max_list_ge, Hin].
Qed.

End ReachableSamples.

(** ** The demo mode of [server.js] *)

Section DemoMode.
Import JS GridBot BotRun BotAudit.
Local Open Scope Q_scope.

Variable Math_sqrt : Q -> Q.
Variable v : SourceFile.

Lemma loopRound_samples (cfg : Config) (i : Round) (b : Bot) :
  sameSamples (snd (getCurrentPrice v (ticker i) (random i) b))
              (loopRound Math_sqrt v cfg i b).
Proof.
  unfold loopRound.
  destruct (getCurrentPrice v (ticker i) (random i) b) as [[p | msg] b1];
    cbn [snd]; [|apply sameSamples_refl].
  destruct (negb (truthy (currentPrice b1))); [apply sameSamples_refl|].
  pose proof (calculateATR_samples Math_sqrt v cfg (klines i) b1) as Ha.
  destruct (calculateATR Math_sqrt v cfg (klines i) b1) as [[a | msg] b2];
    simpl in Ha; [|exact Ha].
  pose proof (detectMarketCondition_samples v cfg b2) as Hd.
  destruct (detectMarketCondition v cfg b2) as [r b3]. simpl in Hd.
  eapply sameSamples_trans; [exact Ha|].
  eapply sameSamples_trans; [exact Hd|].
  eapply sameSamples_trans; [|apply rebalanceGrid_samples].
  destruct (gridLevels b3); [|apply sameSamples_refl].
  apply generateGridLevels_samples.
Qed.

Lemma getCurrentPrice_useDemo (ticker : option Q) (random : Q) (b : Bot) :
  useDemo b = true ->
  useDemo (snd (getCurrentPrice v ticker random b)) = true.
Proof.
  intros H. unfold getCurrentPrice, getDemoPrice.
  destruct v, ticker; simpl; try exact H; rewrite H; exact H.
Qed.

Lemma call_useDemo (cfg : Config) (c : Call) (b : Bot) :
  useDemo b = true -> useDemo (call Math_sqrt v cfg c b) = true.
Proof.
  intros H.
  destruct c as [ticker random | getKline | | | getKline now ordersSize | i];
    simpl.
  - apply getCurrentPrice_useDemo, H.
  - destruct (calculateATR_samples Math_sqrt v cfg getKline b)
      as (_ & _ & _ & Hm & _). congruence.
  - destruct (detectMarketCondition_samples v cfg b) as (_ & _ & _ & Hm & _).
    congruence.
  - exact H.
  - destruct (rebalanceGrid_samples Math_sqrt v cfg getKline now ordersSize b)
      as (_ & _ & _ & Hm & _). congruence.
  - destruct (loopRound_samples cfg i b) as (_ & _ & _ & Hm & _).
    rewrite Hm. apply getCurrentPrice_useDemo, H.
Qed.

(** X4. Once an instance is in demo mode it stays in demo mode through
    every later call, under any configurations.  In [server.js] a live
    instance whose ticker request fails or is answered badly enters demo
    mode; there neither the price refresh nor the ATR refresh ever
    throws, and a demo instance does not read the ticker. *)
Theorem demo_mode_is_permanent :
  forall (cs : list (Config * Call)) (b : Bot),
    useDemo b = true ->
    useDemo (runCalls Math_sqrt v cs b) = true
    /\ (forall random b0,
          useDemo (snd (getCurrentPrice server_js None random b0)) = true)
    /\ (forall ticker random b0,
          exists p, fst (getCurrentPrice server_js ticker random b0) = Returned p)
    /\ (forall cfg getKline b0,
          exists a, fst (calculateATR Math_sqrt server_js cfg getKline b0)
                    = Returned a)
    /\ (forall ticker random,
          getCurrentPrice server_js ticker random b
          = getCurrentPrice server_js None random b).
Proof.
  intros cs b H. split.
  { revert b H. unfold runCalls.
    induction cs as [|c cs IH]; intros b H; simpl; [exact H|].
    apply IH, call_useDemo, H. }
  split.
  { intros random b0. unfold getCurrentPrice, getDemoPrice.
    destruct (useDemo b0) eqn:E; simpl; [exact E | reflexivity]. }
  split.
  { intros ticker random b0. unfold getCurrentPrice, getDemoPrice.
    destruct (useDemo b0); [eexists; reflexivity|].
    destruct ticker; eexists; reflexivity. }
  split.
  { intros cfg getKline b0. unfold calculateATR, calculateATR_server.
    destruct (calculateDemoATR Math_sqrt b0) as [a bd].
    destruct (useDemo b0); [eexists; reflexivity|].
    destruct (calculateATR_001 Math_sqrt cfg getKline b0) as [[a1 | msg] b1];
      eexists; reflexivity. }
  intros ticker random. unfold getCurrentPrice. rewrite H. reflexivity.
Qed.

End DemoMode.

(** ** Dollar-cost averaging *)

Section DollarCostAveraging.
Import JS GridBot BotRun BotAudit GridTrading.
Local Open Scope Q_scope.

Variable Math_sqrt : Q -> Q.
Variable v : SourceFile.

(** X5. On a reachable instance with a positive price, under a positive
    [DCA_PERCENTAGE]: when [executeDCA] asks for a buy order, the stored
    regime is SIDEWAYS or BULL, the order is priced at 0.999 of the
    current price for 0.6 of the quantity of a grid order at that price,
    and one of the four samples before the newest lies below the current
    price by the percentage or more.  So the method buys after the price
    has risen from a recent low, and never while the current price is the
    lowest of the last five samples. *)
Theorem executeDCA_buys_after_a_rebound :
  forall (cfg : Config) (tcfg : TradeConfig) (b : Bot) (price qty : Q),
    Reachable Math_sqrt v b ->
    0 < currentPrice b ->
    0 < DCA_PERCENTAGE tcfg ->
    executeDCA_order cfg tcfg b = Some (price, qty) ->
    (marketCondition b = SIDEWAYS \/ marketCondition b = BULL)
    /\ price = currentPrice b * 0.999
    /\ qty = calculateOrderQuantity cfg b (currentPrice b) * 0.6
    /\ exists x,
         In x (removelast (slice (-5) None (priceHistory b)))
         /\ x <= currentPrice b * (1 - DCA_PERCENTAGE tcfg)
         /\ x < currentPrice b.
Proof.
  intros cfg tcfg b price qty Hr Hp Hd H.
  destruct (reachable_sound Math_sqrt v b Hr) as (_ & Hn & _).
  unfold priceIsNewestSample in Hn.
  unfold executeDCA_order in H.
  destruct (slice (-5) None (priceHistory b)) as [|y recent] eqn:Es;
    [discriminate|].
  rewrite <- Es in *.
  destruct (leb (Math_min_list (slice (-5) None (priceHistory b)))
                (currentPrice b * (1 - DCA_PERCENTAGE tcfg))) eqn:El;
    [|discriminate].
  apply leb_true in El.
  assert (Hreg : marketCondition b = SIDEWAYS \/ marketCondition b = BULL).
  { destruct (marketCondition b); simpl in H; try discriminate; auto. }
  assert (Ht : (match marketCondition b with
                | SIDEWAYS | BULL => true | _ => false end) = true).
  { destruct Hreg as [-> | ->]; reflexivity. }
  rewrite Ht in H. simpl in H. injection H as <- <-.
  split; [exact Hreg|]. split; [reflexivity|]. split; [reflexivity|].
  assert (Hne : slice (-5) None (priceHistory b) <> []) by (rewrite Es; discriminate).
  destruct (Math_min_list_in _ Hne) as (x & Hx & Ex).
  assert (Hlow : x <= currentPrice b * (1 - DCA_PERCENTAGE tcfg))
    by (rewrite <- Ex; exact El).
  assert (Hlt : x < currentPrice b) by nra.
  exists x. split; [|split; assumption].
  assert (Hh : priceHistory b <> []).
  { intros E. rewrite E in Es. discriminate. }
  assert (Hl : last (slice (-5) None (priceHistory b)) = Some (currentPrice b)).
  { change (-5)%Z with (- Z.of_nat 5)%Z. rewrite slice_suffix_last by lia.
    destruct (priceHistory b); [contradiction | exact Hn]. }
  apply last_Some in Hl. destruct Hl as [l' El'].
  rewrite El' in Hx |- *. rewrite removelast_last.
  apply in_app_or in Hx. destruct Hx as [Hx | [Hx | []]]; [exact Hx|].
  subst x. exfalso. apply (Qlt_irrefl _ Hlt).
Qed.

End DollarCostAveraging.

(** ** Rounding *)

Section Rounding.
Import JS.
Local Open Scope Q_scope.

Lemma scale_pos (d : nat) : 0 < inject_Z (10 ^ Z.of_nat d).
Proof.
  change 0 with (inject_Z 0). rewrite <- Zlt_Qlt.
  apply Z.pow_pos_nonneg; lia.
Qed.

Lemma ltb_compat (x y a : Q) : x == y -> ltb x a = ltb y a.
Proof.
  intros E. destruct (ltb y a) eqn:H.
  - apply ltb_true. rewrite E. apply ltb_true, H.
  - apply ltb_false. rewrite E. apply ltb_false, H.
Qed.

(** The rounded value depends on the number only, not on the fraction
    that denotes it. *)
Lemma toFixed_compat (d : nat) (x y : Q) : x == y -> toFixed d x = toFixed d y.
Proof.
  intros E. unfold toFixed. rewrite (ltb_compat x y 0 E).
  assert (E1 : Qfloor (- x * inject_Z (10 ^ Z.of_nat d) + (1 # 2))
               = Qfloor (- y * inject_Z (10 ^ Z.of_nat d) + (1 # 2)))
    by (apply Qfloor_comp; rewrite E; reflexivity).
  assert (E2 : Qfloor (x * inject_Z (10 ^ Z.of_nat d) + (1 # 2))
               = Qfloor (y * inject_Z (10 ^ Z.of_nat d) + (1 # 2)))
    by (apply Qfloor_comp; rewrite E; reflexivity).
  rewrite E1, E2. reflexivity.
Qed.

Lemma div_scale_le (d : nat) (a b : Z) :
  (a <= b)%Z ->
  inject_Z a / inject_Z (10 ^ Z.of_nat d) <= inject_Z b / inject_Z (10 ^ Z.of_nat d).
Proof.
  intros H. unfold Qdiv. apply Qmult_le_compat_r.
  - rewrite <- Zle_Qle. exact H.
  - apply Qinv_le_0_compat, Qlt_le_weak, scale_pos.
Qed.

Lemma toFixed_nonneg (d : nat) (x : Q) : 0 <= x -> 0 <= toFixed d x.
Proof.
  intros H. unfold toFixed.
  assert (E : ltb x 0 = false) by (apply ltb_false, H). rewrite E.
  pose proof (scale_pos d) as Hs.
  assert (H0 : (0 <= Qfloor (x * inject_Z (10 ^ Z.of_nat d) + (1 # 2)))%Z).
  { change 0%Z with (Qfloor 0). apply Qfloor_resp_le. nra. }
  pose proof (div_scale_le d _ _ H0) as Hd.
  unfold Qdiv in Hd at 1. rewrite Qmult_0_l in Hd. exact Hd.
Qed.

(** Rounding keeps the order. *)
Lemma toFixed_mono (d : nat) (x y : Q) : x <= y -> toFixed d x <= toFixed d y.
Proof.
  intros H. pose proof (scale_pos d) as Hs.
  destruct (ltb y 0) eqn:Ey.
  - pose proof Ey as Ey'. apply ltb_true in Ey'.
    assert (Ex : ltb x 0 = true) by (apply ltb_true; lra).
    unfold toFixed. rewrite Ex, Ey. apply Qopp_le_compat, div_scale_le.
    apply Qfloor_resp_le. nra.
  - apply ltb_false in Ey.
    destruct (ltb x 0) eqn:Ex.
    + apply ltb_true in Ex.
      apply Qle_trans with 0; [|apply toFixed_nonneg, Ey].
      unfold toFixed.
      assert (Ex' : ltb x 0 = true) by (apply ltb_true, Ex). rewrite Ex'.
      assert (H0 : (0 <= Qfloor (- x * inject_Z (10 ^ Z.of_nat d) + (1 # 2)))%Z).
      { change 0%Z with (Qfloor 0). apply Qfloor_resp_le. nra. }
      pose proof (div_scale_le d _ _ H0) as Hd.
      unfold Qdiv in Hd at 1. rewrite Qmult_0_l in Hd. lra.
    + apply ltb_false in Ex.
      unfold toFixed.
      assert (Ex' : ltb x 0 = false) by (apply ltb_false, Ex).
      assert (Ey' : ltb y 0 = false) by (apply ltb_false, Ey).
      rewrite Ex', Ey'. apply div_scale_le, Qfloor_resp_le. nra.
Qed.

End Rounding.

(** ** The shape of the generated grid *)

Section GridShape.
Import JS GridBot BotRun.
Local Open Scope Q_scope.

Variable v : SourceFile.
Variable cfg : Config.
Variable b : Bot.

Lemma gridLevelAt_fields (i : nat) (g : GridLevel) :
  gridLevelAt v cfg b i = Some g ->
  level g = i
  /\ buyPrice g = toFixed 6 (rawBuyPrice cfg b i)
  /\ sellPrice g
     = toFixed 6 (rawBuyPrice cfg b i * (1 + calculateDynamicGridSpacing v cfg b))
  /\ quantity g = toFixed 8 (calculateOrderQuantity cfg b (rawBuyPrice cfg b i)).
Proof.
  unfold gridLevelAt. destruct (ltb _ _); [discriminate|].
  intros H. injection H as <-. repeat split.
Qed.

Lemma levelsAt_length (l : list nat) :
  (length (flat_map (fun i => match gridLevelAt v cfg b i with
                              | Some g => [g]
                              | None => []
                              end) l) <= length l)%nat.
Proof.
  induction l as [|i l IH]; simpl; [lia|].
  rewrite length_app. destruct (gridLevelAt v cfg b i); simpl; lia.
Qed.

Lemma levelsAt_index (l : list nat) (x : nat) :
  In x (map level (flat_map (fun i => match gridLevelAt v cfg b i with
                                      | Some g => [g]
                                      | None => []
                                      end) l)) ->
  In x l.
Proof.
  induction l as [|i l IH]; simpl; [tauto|].
  rewrite map_app, in_app_iff. intros [H | H]; [|right; apply IH, H].
  destruct (gridLevelAt v cfg b i) as [g|] eqn:E; simpl in H; [|contradiction].
  destruct H as [H | []]. left. rewrite <- H.
  symmetry. apply (gridLevelAt_fields i g E).
Qed.

Lemma levelsAt_NoDup (l : list nat) :
  List.NoDup l ->
  List.NoDup (map level (flat_map (fun i => match gridLevelAt v cfg b i with
                                            | Some g => [g]
                                            | None => []
                                            end) l)).
Proof.
  induction l as [|i l IH]; intros Hl; simpl; [constructor|].
  inversion Hl as [|? ? Hi Hl']; subst.
  rewrite map_app.
  destruct (gridLevelAt v cfg b i) as [g|] eqn:E; simpl; [|apply IH, Hl'].
  constructor; [|apply IH, Hl'].
  intros Hin. apply levelsAt_index in Hin.
  destruct (gridLevelAt_fields i g E) as (Hg & _). rewrite Hg in Hin.
  contradiction.
Qed.

(** A point of the grid that falls on the current price gives no level
    under a positive spacing. *)
Lemma gridLevelAt_centre (i : nat) :
  ~ currentPrice b == 0 ->
  0 < calculateDynamicGridSpacing v cfg b ->
  rawBuyPrice cfg b i == currentPrice b ->
  gridLevelAt v cfg b i = None.
Proof.
  intros Hp Hs Hraw. unfold gridLevelAt.
  assert (Hd : distanceFromCenter b (rawBuyPrice cfg b i) == 0).
  { unfold distanceFromCenter, Math_abs.
    assert (E : rawBuyPrice cfg b i - currentPrice b == 0) by lra.
    rewrite E. change (Qabs 0) with 0. field. exact Hp. }
  assert (E : ltb (distanceFromCenter b (rawBuyPrice cfg b i))
                  (calculateDynamicGridSpacing v cfg b * 0.5) = true).
  { apply ltb_true. rewrite Hd. lra. }
  rewrite E. reflexivity.
Qed.

Lemma rawBuyPrice_middle (k : nat) :
  GRID_LEVELS cfg = (2 * k)%nat -> (0 < k)%nat ->
  rawBuyPrice cfg b k == currentPrice b.
Proof.
  intros HN Hk. unfold rawBuyPrice, levelSpacing, lowerBound, upperBound.
  rewrite HN, Nat2Z.inj_mul, inject_Z_mult. change (inject_Z (Z.of_nat 2)) with 2.
  field. intros H0. unfold Qeq in H0. simpl in H0. lia.
Qed.

Lemma rawBuyPrice_flat (i : nat) :
  atr b == 0 -> rawBuyPrice cfg b i == currentPrice b.
Proof.
  intros Ha. unfold rawBuyPrice, levelSpacing, lowerBound, upperBound.
  rewrite Ha. unfold Qdiv. ring.
Qed.

End GridShape.

Section GridShapeTheorems.
Import JS GridBot BotRun.
Local Open Scope Q_scope.

(** X6. For a non-zero price and a positive spacing: the generated
    levels carry pairwise distinct indexes and are at most [GRID_LEVELS]
    many; under an even number of levels 2k the index k, whose point is
    the current price itself, is never generated, so that fewer levels
    than configured are generated; and under an ATR of zero no level is
    generated at all. *)
Theorem generated_grid_shape :
  forall (v : SourceFile) (cfg : Config) (b : Bot),
    ~ currentPrice b == 0 ->
    0 < calculateDynamicGridSpacing v cfg b ->
    let levels := fst (generateGridLevels v cfg b) in
    List.NoDup (map level levels)
    /\ (length levels <= GRID_LEVELS cfg)%nat
    /\ (forall k, GRID_LEVELS cfg = (2 * k)%nat -> (0 < k)%nat ->
          (forall g, In g levels -> level g <> k)
          /\ (length levels < GRID_LEVELS cfg)%nat)
    /\ (atr b == 0 -> levels = []).
Proof.
  intros v cfg b Hp Hs levels.
  assert (Hperm : Permutation levels (unsortedGridLevels v cfg b))
    by apply sortByDistance_perm.
  split.
  { apply (Permutation_NoDup (Permutation_map level (Permutation_sym Hperm))).
    apply levelsAt_NoDup, seq_NoDup. }
  split.
  { rewrite (Permutation_length Hperm). unfold unsortedGridLevels.
    eapply Nat.le_trans; [apply levelsAt_length|]. rewrite length_seq. lia. }
  split.
  { intros k HN Hk.
    pose proof (gridLevelAt_centre v cfg b k Hp Hs
                  (rawBuyPrice_middle cfg b k HN Hk)) as Hnone.
    split.
    - intros g Hg Hl. apply in_generateGridLevels in Hg.
      destruct Hg as (i & _ & Hg).
      destruct (gridLevelAt_fields v cfg b i g Hg) as (Hi & _).
      rewrite Hl in Hi. subst i. rewrite Hnone in Hg. discriminate.
    - rewrite (Permutation_length Hperm). unfold unsortedGridLevels.
      rewrite HN. replace (2 * k)%nat with (k + S (k - 1))%nat by lia.
      rewrite seq_app, flat_map_app, length_app. simpl seq. simpl flat_map.
      rewrite Hnone. simpl app.
      pose proof (levelsAt_length v cfg b (seq 0 k)) as H1.
      pose proof (levelsAt_length v cfg b (seq (S k) (k - 1))) as H2.
      rewrite length_seq in H1, H2. lia. }
  intros Ha.
  assert (Hu : unsortedGridLevels v cfg b = []).
  { unfold unsortedGridLevels.
    induction (seq 0 (GRID_LEVELS cfg)) as [|i l IH]; [reflexivity|].
    simpl. rewrite IH.
    rewrite (gridLevelAt_centre v cfg b i Hp Hs (rawBuyPrice_flat cfg b i Ha)).
    reflexivity. }
  subst levels. simpl. rewrite Hu. reflexivity.
Qed.

(** X7. With at least one level, an ATR range [ATR x multiplier] that
    is not negative and is below the price, and a spacing that is not
    negative: every generated level buys at a price that is not negative,
    sells at or above its buy price, and carries a quantity of at least
    0.001. *)
Theorem generated_levels_sell_above_buy :
  forall (v : SourceFile) (cfg : Config) (b : Bot) (g : GridLevel),
    (0 < GRID_LEVELS cfg)%nat ->
    0 <= atr b * ATR_MULTIPLIER cfg ->
    atr b * ATR_MULTIPLIER cfg < currentPrice b ->
    0 <= calculateDynamicGridSpacing v cfg b ->
    In g (fst (generateGridLevels v cfg b)) ->
    0 <= buyPrice g
    /\ buyPrice g <= sellPrice g
    /\ 0.001 <= quantity g.
Proof.
  intros v cfg b g HN Hr0 Hr1 Hs Hg.
  apply in_generateGridLevels in Hg. destruct Hg as (i & Hi & Hg).
  destruct (gridLevelAt_fields v cfg b i g Hg) as (_ & -> & -> & ->).
  assert (Hraw : 0 < rawBuyPrice cfg b i).
  { unfold rawBuyPrice, levelSpacing, lowerBound, upperBound.
    assert (Hn : 0 <= / inject_Z (Z.of_nat (GRID_LEVELS cfg))).
    { apply Qinv_le_0_compat. change 0 with (inject_Z 0).
      rewrite <- Zle_Qle. lia. }
    assert (Hii : 0 <= inject_Z (Z.of_nat i)).
    { change 0 with (inject_Z 0). rewrite <- Zle_Qle. lia. }
    unfold Qdiv.
    set (q := / inject_Z (Z.of_nat (GRID_LEVELS cfg))) in *.
    set (j := inject_Z (Z.of_nat i)) in *.
    set (r := atr b * ATR_MULTIPLIER cfg) in *.
    assert (0 <= r * q) by nra.
    assert (0 <= (r * q) * j) by nra.
    nra. }
  split; [apply toFixed_nonneg; lra|].
  split; [apply toFixed_mono; nra|].
  apply Qle_trans with (toFixed 8 0.001); [vm_compute; discriminate|].
  apply toFixed_mono. unfold calculateOrderQuantity, Math_max.
  apply Q.le_max_r.
Qed.

End GridShapeTheorems.

(** ** The true range and the ATR *)

Section AverageTrueRange.
Import JS GridBot BotRun.
Local Open Scope Q_scope.

Variable Math_sqrt : Q -> Q.

Lemma trueRange_nonneg (prev cur : Kline) : 0 <= trueRange prev cur.
Proof.
  unfold trueRange, Math_max, Math_abs.
  eapply Qle_trans; [|apply Q.le_max_r]. apply Qabs_nonneg.
Qed.

Lemma trSum_nonneg (klines : list Kline) : 0 <= trSum klines.
Proof.
  unfold trSum.
  assert (H : forall l acc, 0 <= acc ->
            0 <= fold_left (fun acc pc => acc + trueRange (fst pc) (snd pc))
                           l acc).
  { induction l as [|pc l IH]; intros acc Hacc; simpl; [exact Hacc|].
    apply IH. pose proof (trueRange_nonneg (fst pc) (snd pc)). lra. }
  apply H. lra.
Qed.

Lemma count_inv_nonneg (n : nat) : 0 <= / inject_Z (Z.of_nat n).
Proof.
  apply Qinv_le_0_compat. change 0 with (inject_Z 0).
  rewrite <- Zle_Qle. lia.
Qed.

Lemma intervalATR_nonneg (cfg : Config) (l : list Kline) :
  0 <= intervalATR cfg l.
Proof.
  unfold intervalATR, Qdiv.
  pose proof (trSum_nonneg (rev l)).
  pose proof (count_inv_nonneg (ATR_PERIOD cfg)). nra.
Qed.

Lemma atrOverIntervals_nonneg (cfg : Config) getKline :
  0 <= fst (atrOverIntervals cfg getKline).
Proof.
  unfold atrOverIntervals.
  assert (H : forall l acc, 0 <= fst acc ->
            0 <= fst (fold_left
                        (fun (acc : Q * nat) interval =>
                           match getKline interval with
                           | Returned resp =>
                               match validKlines cfg resp with
                               | Some l => (fst acc + intervalATR cfg l, S (snd acc))
                               | None => acc
                               end
                           | Thrown _ => acc
                           end) l acc)).
  { induction l as [|i l IH]; intros acc Hacc; simpl; [exact Hacc|].
    apply IH. destruct (getKline i) as [resp | msg]; [|exact Hacc].
    destruct (validKlines cfg resp) as [bars|]; [|exact Hacc].
    simpl. pose proof (intervalATR_nonneg cfg bars). lra. }
  apply H. simpl. lra.
Qed.

Lemma calculateVolatilityIndex_atr (b : Bot) :
  atr (calculateVolatilityIndex Math_sqrt b) = atr b.
Proof.
  unfold calculateVolatilityIndex.
  destruct (length (priceChangeBuffer b) <? 10)%nat; reflexivity.
Qed.

Lemma calculateATR_001_nonneg (cfg : Config) getKline (b b' : Bot) (a : Q) :
  calculateATR_001 Math_sqrt cfg getKline b = (Returned a, b') ->
  0 <= a /\ atr b' = a.
Proof.
  unfold calculateATR_001.
  pose proof (atrOverIntervals_nonneg cfg getKline) as Hs.
  destruct (atrOverIntervals cfg getKline) as [atrSum n]. simpl in Hs.
  destruct (0 <? n)%nat; [|discriminate].
  intros H. injection H as <- <-.
  rewrite calculateVolatilityIndex_atr. simpl. split; [|reflexivity].
  unfold Qdiv. pose proof (count_inv_nonneg n). nra.
Qed.

Lemma calculateDemoATR_nonneg (b : Bot) :
  0 <= currentPrice b ->
  0 <= fst (calculateDemoATR Math_sqrt b)
  /\ atr (snd (calculateDemoATR Math_sqrt b)) = fst (calculateDemoATR Math_sqrt b).
Proof.
  intros Hp. unfold calculateDemoATR. cbn [fst snd].
  rewrite calculateVolatilityIndex_atr. cbn [atr set_atr].
  split; [|reflexivity].
  destruct (10 <=? length (priceHistory b))%nat eqn:E; [|lra].
  apply Nat.leb_le in E.
  change (-10)%Z with (- Z.of_nat 10)%Z.
  assert (Hl : length (slice (- Z.of_nat 10) None (priceHistory b)) = 10%nat).
  { rewrite slice_suffix_length; lia. }
  destruct (slice (- Z.of_nat 10) None (priceHistory b)) as [|x xs] eqn:Es.
  { discriminate. }
  pose proof (Math_min_list_le (x :: xs) x (or_introl eq_refl)).
  pose proof (Math_max_list_ge (x :: xs) x (or_introl eq_refl)).
  generalize dependent (Math_min_list (x :: xs)).
  generalize dependent (Math_max_list (x :: xs)).
  intros mx Hmx mn Hmn. apply Qle_shift_div_l; lra.
Qed.

(** X8. Under a positive [ATR_PERIOD] and a current price that is not
    negative, a call of [calculateATR] that returns gives a value that is
    not negative, and that value is the one stored in [atr]. *)
Theorem calculateATR_not_negative :
  forall (v : SourceFile) (cfg : Config)
         (getKline : string -> Outcome KlineResponse) (b b' : Bot) (a : Q),
    (0 < ATR_PERIOD cfg)%nat ->
    0 <= currentPrice b ->
    calculateATR Math_sqrt v cfg getKline b = (Returned a, b') ->
    0 <= a /\ atr b' = a.
Proof.
  intros v cfg getKline b b' a _ Hp H. destruct v; simpl in H.
  - unfold calculateATR_000 in H.
    destruct (getKline "15"%string) as [resp | msg]; [|discriminate].
    destruct (validKlines cfg resp) as [bars|]; [|discriminate].
    injection H as <- <-. rewrite calculateVolatilityIndex_atr. simpl.
    split; [apply intervalATR_nonneg | reflexivity].
  - apply (calculateATR_001_nonneg cfg getKline b b' a H).
  - unfold calculateATR_server in H.
    pose proof (calculateDemoATR_nonneg b Hp) as Hd.
    destruct (calculateDemoATR Math_sqrt b) as [ad bd]. simpl in Hd.
    destruct (useDemo b).
    + injection H as <- <-. exact Hd.
    + pose proof (calculateATR_001_nonneg cfg getKline b) as H1.
      destruct (calculateATR_001 Math_sqrt cfg getKline b) as [[a1 | msg] b1].
      * injection H as <- <-. apply H1. reflexivity.
      * injection H as <- <-. exact Hd.
Qed.

End AverageTrueRange.

(** ** Rebalancing *)

Section Rebalancing.
Import JS GridBot BotRun.
Local Open Scope Q_scope.

Variable Math_sqrt : Q -> Q.
Variable v : SourceFile.
Variable cfg : Config.

(** X9. A call of [rebalanceGrid] made before the cooldown has elapsed
    changes nothing.  Any call either leaves the grid and the time of the
    last rebalance as they were (so does a call whose ATR refresh throws),
    or, the cooldown having elapsed, returns with the time of the call
    stored and with the whole grid replaced by the one generated from the
    price, ATR, regime and volatility then stored.  So after a completed
    rebalance every call made before the cooldown has elapsed again
    changes nothing. *)
Theorem rebalanceGrid_all_or_nothing :
  forall (getKline : string -> Outcome KlineResponse) (now : Z)
         (ordersSize : nat) (b : Bot),
    let r := rebalanceGrid Math_sqrt v cfg getKline now ordersSize b in
    ((now - lastRebalance b < REBALANCE_COOLDOWN cfg)%Z -> r = (Returned tt, b))
    /\ ((gridLevels (snd r) = gridLevels b
         /\ lastRebalance (snd r) = lastRebalance b)
        \/ (fst r = Returned tt
            /\ (REBALANCE_COOLDOWN cfg <= now - lastRebalance b)%Z
            /\ lastRebalance (snd r) = now
            /\ gridLevels (snd r) = fst (generateGridLevels v cfg (snd r))))
    /\ (forall getKline' now' ordersSize',
          lastRebalance (snd r) = now ->
          (now' - now < REBALANCE_COOLDOWN cfg)%Z ->
          rebalanceGrid Math_sqrt v cfg getKline' now' ordersSize' (snd r)
          = (Returned tt, snd r)).
Proof.
  intros getKline now ordersSize b r.
  assert (Hcool : forall getKline0 now0 ordersSize0 b0,
            (now0 - lastRebalance b0 < REBALANCE_COOLDOWN cfg)%Z ->
            rebalanceGrid Math_sqrt v cfg getKline0 now0 ordersSize0 b0
            = (Returned tt, b0)).
  { intros getKline0 now0 ordersSize0 b0 H. unfold rebalanceGrid.
    apply Z.ltb_lt in H. rewrite H. reflexivity. }
  split; [apply Hcool|]. split.
  - subst r. unfold rebalanceGrid.
    destruct (now - lastRebalance b <? REBALANCE_COOLDOWN cfg)%Z eqn:Ec;
      [left; split; reflexivity|].
    apply Z.ltb_ge in Ec.
    destruct (nth_error _ _) as [centerLevel|]; [|left; split; reflexivity].
    destruct (shouldRebalance cfg ordersSize b centerLevel);
      [|left; split; reflexivity].
    assert (Hd : gridLevels (snd (detectMarketCondition v cfg b)) = gridLevels b
                 /\ lastRebalance (snd (detectMarketCondition v cfg b))
                    = lastRebalance b).
    { unfold detectMarketCondition.
      destruct (length (priceHistory b) <? 20)%nat; split; reflexivity. }
    destruct (detectMarketCondition v cfg b) as [reg b1]. simpl in Hd.
    assert (Ha : gridLevels (snd (calculateATR Math_sqrt v cfg getKline b1))
                 = gridLevels b1
                 /\ lastRebalance (snd (calculateATR Math_sqrt v cfg getKline b1))
                    = lastRebalance b1).
    { assert (H0 : forall a,
                gridLevels (calculateVolatilityIndex Math_sqrt (set_atr a b1))
                = gridLevels b1
                /\ lastRebalance (calculateVolatilityIndex Math_sqrt (set_atr a b1))
                   = lastRebalance b1).
      { intros a. unfold calculateVolatilityIndex.
        destruct (length (priceChangeBuffer (set_atr a b1)) <? 10)%nat;
          split; reflexivity. }
      assert (H1 : gridLevels (snd (calculateATR_001 Math_sqrt cfg getKline b1))
                   = gridLevels b1
                   /\ lastRebalance (snd (calculateATR_001 Math_sqrt cfg getKline b1))
                      = lastRebalance b1).
      { unfold calculateATR_001.
        destruct (atrOverIntervals cfg getKline) as [atrSum n].
        destruct (0 <? n)%nat; [apply H0 | split; reflexivity]. }
      unfold calculateATR. destruct v.
      - unfold calculateATR_000.
        destruct (getKline "15"%string) as [resp | msg]; [|split; reflexivity].
        destruct (validKlines cfg resp); [apply H0 | split; reflexivity].
      - exact H1.
      - unfold calculateATR_server, calculateDemoATR.
        destruct (useDemo b1); [apply H0|].
        destruct (calculateATR_001 Math_sqrt cfg getKline b1)
          as [[a1 | msg] bb]; simpl in *; [exact H1 | apply H0]. }
    destruct (calculateATR Math_sqrt v cfg getKline b1) as [[a | msg] b2];
      simpl in Ha.
    + right. simpl. repeat split. exact Ec.
    + left. simpl. destruct Hd, Ha. split; congruence.
  - intros getKline' now' ordersSize' Hl Hn. apply Hcool. rewrite Hl. exact Hn.
Qed.

End Rebalancing.

(** ** The trades file *)

Section TradesFile.
Import JS GridTrading.

(** X10. [saveTrade] puts the entry last and keeps the newest 1000
    entries: the saved file is a suffix of the old content followed by
    the entry, it is that whole list while the old content has fewer than
    1000 entries, and it never has more than 1000 entries. *)
Theorem saveTrade_keeps_newest_1000 :
  forall (A : Type) (entry : A) (file : list A),
    length (saveTrade entry file) = Nat.min (length file + 1) 1000
    /\ last (saveTrade entry file) = Some entry
    /\ (exists dropped, (file ++ [entry])%list = (dropped ++ saveTrade entry file)%list)
    /\ ((length file < 1000)%nat -> saveTrade entry file = (file ++ [entry])%list).
Proof.
  intros A entry file. unfold saveTrade.
  destruct (1000 <? length (file ++ [entry]))%nat eqn:E.
  - apply Nat.ltb_lt in E. rewrite length_app in *. cbn [length] in *.
    split; [rewrite length_skipn, length_app; cbn [length]; lia|].
    split.
    { rewrite last_skipn; [apply last_snoc|].
      rewrite length_app. cbn [length]. lia. }
    split.
    { exists (firstn (length file + 1 - 1000) (file ++ [entry])).
      symmetry. apply firstn_skipn. }
    intros H. lia.
  - apply Nat.ltb_ge in E. rewrite length_app in *. cbn [length] in *.
    split; [lia|]. split; [apply last_snoc|].
    split; [exists []; reflexivity | reflexivity].
Qed.

End TradesFile.

(** ** The daily counter and the books *)

Section Fills.
Import JS GridBot GridTrading.
Local Open Scope Q_scope.

Variable v : SourceFile.

Lemma fills_refl (ok : string * OrderInfo -> Q -> Q -> Prop)
    (es : list (string * OrderInfo)) (a : Account) :
  fills ok es a a.
Proof.
  induction es as [|e es IH]; [apply fills_nil | apply fills_keep, IH].
Qed.

Lemma fills_impl (ok ok' : string * OrderInfo -> Q -> Q -> Prop)
    (es : list (string * OrderInfo)) (a a' : Account) :
  (forall e p q, ok e p q -> ok' e p q) ->
  fills ok es a a' -> fills ok' es a a'.
Proof.
  intros Hok H. induction H as [a | e es a a' H IH | e es p q a a' Hf H IH].
  - apply fills_nil.
  - apply fills_keep, IH.
  - apply (fills_fill ok' e es p q); [apply Hok, Hf | exact IH].
Qed.

(** What every fill keeps, the whole walk keeps. *)
Lemma fills_invariant (P : Account -> Prop)
    (ok : string * OrderInfo -> Q -> Q -> Prop)
    (es : list (string * OrderInfo)) (a a' : Account) :
  (forall orderId orderInfo p q a0,
      P a0 -> P (bookFill orderId orderInfo p q a0)) ->
  fills ok es a a' -> P a -> P a'.
Proof.
  intros Hstep H. induction H as [a | e es a a' H IH | e es p q a a' Hf H IH];
    intros Ha.
  - exact Ha.
  - apply IH, Ha.
  - apply IH, Hstep, Ha.
Qed.

Lemma monitorOrder_fills (b : Bot) (activeOrders : list string)
    (getOrderHistory : string -> Outcome (Z * option (list FilledOrder)))
    (es : list (string * OrderInfo)) (a : Account) :
  fills (liveFill activeOrders) es a
        (fold_left (monitorOrder v b activeOrders getOrderHistory) es a).
Proof.
  revert a. induction es as [|e es IH]; intros a; cbn [fold_left].
  - apply fills_nil.
  - unfold monitorOrder at 2.
    destruct (existsb (String.eqb (fst e)) activeOrders) eqn:Eactive;
      [apply fills_keep, IH|].
    destruct (checkOrderStatus v b getOrderHistory (fst e)) as [filledOrder|];
      [|apply fills_keep, IH].
    destruct (String.eqb (orderStatus filledOrder) "Filled");
      [|apply fills_keep, IH].
    apply (fills_fill _ e es (fill_price filledOrder) (fill_qty filledOrder));
      [exact Eactive | apply IH].
Qed.

Lemma monitorDemoOrder_fills (random : nat -> Q)
    (es : list (string * OrderInfo)) (i : nat) (a : Account) :
  fills demoFill es a (snd (fold_left (monitorDemoOrder random) es (i, a))).
Proof.
  revert i a. induction es as [|e es IH]; intros i a; cbn [fold_left].
  - apply fills_nil.
  - unfold monitorDemoOrder at 2.
    destruct (ltb (random i) 0.05); [|apply fills_keep, IH].
    eapply fills_fill; [|apply IH]. split; reflexivity.
Qed.

Lemma monitorOrders_fills (b : Bot)
    (getActiveOrders : Outcome (Z * option (list string)))
    (getOrderHistory : string -> Outcome (Z * option (list FilledOrder)))
    (random : nat -> Q) (a : Account) :
  fills (fun _ _ _ => True) (orders a) a
        (monitorOrders v b getActiveOrders getOrderHistory random a).
Proof.
  unfold monitorOrders. destruct (demoOrdersOnly v b).
  - apply (fills_impl demoFill); [intros; exact I|].
    apply monitorDemoOrder_fills.
  - destruct getActiveOrders as [[code list] | msg]; [|apply fills_refl].
    destruct code; try apply fills_refl.
    apply (fills_impl (liveFill (match list with Some l => l | None => [] end)));
      [intros; exact I|].
    apply monitorOrder_fills.
Qed.

Lemma Map_delete_here (kept es : list (string * OrderInfo))
    (e : string * OrderInfo) :
  NoDup (map fst (kept ++ e :: es)%list) ->
  Map_delete (fst e) (kept ++ e :: es)%list = (kept ++ es)%list.
Proof.
  intros H. unfold Map_delete. rewrite List.filter_app. cbn [List.filter].
  rewrite String.eqb_refl. cbn [negb].
  rewrite map_app in H. cbn [map] in H.
  apply NoDup_app in H. destruct H as (Hk & Hne & He).
  apply NoDup_cons in He. destruct He as [He _].
  f_equal.
  - clear Hk. induction kept as [|x kept IH]; [reflexivity|].
    cbn [List.filter].
    destruct (String.eqb (fst x) (fst e)) eqn:E.
    + exfalso. apply String.eqb_eq in E.
      apply (Hne (fst e)); [rewrite <- E; cbn [map]; left | left].
    + cbn [negb]. f_equal. apply IH.
      intros y Hy. apply Hne. cbn [map]. right. exact Hy.
  - clear Hne. induction es as [|x es IH]; [reflexivity|].
    cbn [List.filter].
    destruct (String.eqb (fst x) (fst e)) eqn:E.
    + exfalso. apply String.eqb_eq in E. apply He. rewrite <- E.
      cbn [map]. left.
    + cbn [negb]. f_equal. apply IH.
      intros Hy. apply He. cbn [map]. right. exact Hy.
Qed.

(** The walk over the tracked orders, from an account that tracks
    [kept ++ es] under distinct ids: the orders that stay are [kept],
    then some of [es] in their order; each order that goes is one more
    trade; the daily counter stays where it is. *)
Lemma fills_spec (ok : string * OrderInfo -> Q -> Q -> Prop)
    (es : list (string * OrderInfo)) (a a' : Account) :
  fills ok es a a' ->
  forall kept,
    orders a = (kept ++ es)%list ->
    NoDup (map fst (kept ++ es)%list) ->
    exists es',
      orders a' = (kept ++ es')%list
      /\ sublist es' es
      /\ (totalTrades a' + length es' = totalTrades a + length es)%nat
      /\ dailyTrades a' = dailyTrades a
      /\ lastTradeReset a' = lastTradeReset a
      /\ (forall e, In e es -> (forall p q, ~ ok e p q) -> In e es').
Proof.
  intros H. induction H as [a | e es a a' H IH | e es p q a a' Hf H IH];
    intros kept Ho Hd.
  - exists []. split; [exact Ho|]. split; [constructor|].
    split; [reflexivity|]. split; [reflexivity|]. split; [reflexivity|].
    intros e He _. exact He.
  - destruct (IH (kept ++ [e])%list) as (es' & E1 & E2 & E3 & E4 & E5 & E6).
    { rewrite <- app_assoc. exact Ho. }
    { rewrite <- app_assoc. exact Hd. }
    exists (e :: es'). rewrite <- app_assoc in E1.
    split; [exact E1|]. split; [constructor; exact E2|].
    split; [cbn [length]; lia|]. split; [exact E4|]. split; [exact E5|].
    intros x [Hx | Hx] Hno; [left; exact Hx | right; apply E6; assumption].
  - assert (Ho1 : orders (bookFill (fst e) (snd e) p q a) = (kept ++ es)%list).
    { unfold bookFill. cbn [orders set_orders handleFilledOrder].
      rewrite Ho. apply Map_delete_here, Hd. }
    assert (Hd1 : NoDup (map fst (kept ++ es)%list)).
    { rewrite map_app in Hd |- *. cbn [map] in Hd.
      apply NoDup_app in Hd. destruct Hd as (Hk & Hne & He).
      apply NoDup_cons in He. destruct He as [_ He].
      apply NoDup_app. split; [exact Hk|]. split; [|exact He].
      intros y Hy Hy'. apply (Hne y Hy). right. exact Hy'. }
    destruct (IH kept Ho1 Hd1) as (es' & E1 & E2 & E3 & E4 & E5 & E6).
    exists es'. split; [exact E1|]. split; [constructor; exact E2|].
    split.
    { unfold bookFill in E3. cbn [totalTrades set_orders handleFilledOrder] in E3.
      cbn [length]. lia. }
    split; [exact E4|]. split; [exact E5|].
    intros x [Hx | Hx] Hno; [subst x; destruct (Hno p q Hf) | apply E6; assumption].
Qed.

Lemma bookFill_books (orderId : string) (orderInfo : OrderInfo)
    (p q : Q) (a : Account) :
  dailyTrades (bookFill orderId orderInfo p q a) = dailyTrades a
  /\ lastTradeReset (bookFill orderId orderInfo p q a) = lastTradeReset a.
Proof. split; reflexivity. Qed.

Lemma monitorOrders_dailyTrades (b : Bot)
    (getActiveOrders : Outcome (Z * option (list string)))
    (getOrderHistory : string -> Outcome (Z * option (list FilledOrder)))
    (random : nat -> Q) (a : Account) :
  dailyTrades (monitorOrders v b getActiveOrders getOrderHistory random a)
  = dailyTrades a.
Proof.
  apply (fills_invariant (fun a' => dailyTrades a' = dailyTrades a)
           _ _ _ _ (fun _ _ _ _ _ H => H)
           (monitorOrders_fills b getActiveOrders getOrderHistory random a)).
  reflexivity.
Qed.

Lemma cancelAllOrders_books (b : Bot) (answer : Outcome Z) (a : Account) :
  let a' := snd (cancelAllOrders v b answer a) in
  sameBooks a a' /\ dailyTrades a' = dailyTrades a
  /\ (orders a' = [] \/ a' = a)
  /\ (fst (cancelAllOrders v b answer a) = true <-> orders a' = [] /\
       (demoOrdersOnly v b = true \/ answer = Returned 0%Z)).
Proof.
  cbv zeta. unfold cancelAllOrders.
  destruct (demoOrdersOnly v b).
  - cbn [fst snd]. repeat split; auto.
  - destruct answer as [code | msg]; [destruct code|]; cbn [fst snd];
      repeat split; auto; try discriminate.
    all: intros [_ [H | H]]; discriminate.
Qed.

End Fills.

Section Counters.
Import JS GridBot GridTrading.
Local Open Scope Q_scope.

Variable v : SourceFile.
Variable cfg : Config.
Variable tcfg : TradeConfig.
Variable submitOrder : nat -> Outcome (Z * string).
Variable demoOrderId : nat -> string.

Lemma sameBooks_refl (a : Account) : sameBooks a a.
Proof. repeat split. Qed.

Lemma sameBooks_trans (a1 a2 a3 : Account) :
  sameBooks a1 a2 -> sameBooks a2 a3 -> sameBooks a1 a3.
Proof.
  intros (H1 & H2 & H3 & H4 & H5) (K1 & K2 & K3 & K4 & K5).
  repeat split; congruence.
Qed.

Lemma Map_set_length {A : Type} (k : string) (x : A) (m : list (string * A)) :
  (length (Map_set k x m) <= S (length m))%nat.
Proof.
  induction m as [|e m IH]; cbn [Map_set length]; [lia|].
  destruct (String.eqb (fst e) k); cbn [length]; lia.
Qed.

Lemma Map_set_keys {A : Type} (k : string) (x : A) (m : list (string * A)) :
  map fst (Map_set k x m)
  = if existsb (String.eqb k) (map fst m) then map fst m
    else (map fst m ++ [k])%list.
Proof.
  induction m as [|e m IH]; cbn [Map_set map existsb app]; [reflexivity|].
  rewrite (String.eqb_sym k (fst e)).
  destruct (String.eqb (fst e) k) eqn:E; cbn [orb map fst].
  - apply String.eqb_eq in E. rewrite E. reflexivity.
  - rewrite IH. destruct (existsb (String.eqb k) (map fst m)); reflexivity.
Qed.

Lemma Map_set_distinct {A : Type} (k : string) (x : A) (m : list (string * A)) :
  NoDup (map fst m) -> NoDup (map fst (Map_set k x m)).
Proof.
  intros H. rewrite Map_set_keys.
  destruct (existsb (String.eqb k) (map fst m)) eqn:E; [exact H|].
  apply NoDup_app. split; [exact H|]. split; [|apply NoDup_singleton].
  intros y Hy Hk. apply list_elem_of_singleton in Hk. subst y.
  apply list_elem_of_In in Hy.
  assert (Ht : existsb (String.eqb k) (map fst m) = true).
  { apply existsb_exists. exists k. split; [exact Hy | apply String.eqb_refl]. }
  congruence.
Qed.

(** One call of [placeBuyOrder] or [placeSellOrder]. *)
Lemma placeOrder_step (side : string) (b : Bot) (price quantity : Q) (d : Desk) :
  let r := placeOrder v tcfg submitOrder demoOrderId side b price quantity d in
  sameBooks (fst d) (fst (snd r))
  /\ orders (fst (snd r)) = orders (fst d)
  /\ match fst r with
     | Some _ =>
         (dailyTrades (fst d) < MAX_DAILY_TRADES tcfg)%nat
         /\ if demoOrdersOnly v b
            then dailyTrades (fst (snd r)) = dailyTrades (fst d)
                 /\ submitted (snd (snd r)) = submitted (snd d)
                 /\ demoOrders (snd (snd r)) = S (demoOrders (snd d))
            else dailyTrades (fst (snd r)) = S (dailyTrades (fst d))
                 /\ (exists request,
                       submitted (snd (snd r))
                       = (submitted (snd d) ++ [request])%list)
                 /\ demoOrders (snd (snd r)) = demoOrders (snd d)
     | None =>
         fst (snd r) = fst d
         /\ demoOrders (snd (snd r)) = demoOrders (snd d)
         /\ (submitted (snd (snd r)) = submitted (snd d)
             \/ (dailyTrades (fst d) < MAX_DAILY_TRADES tcfg)%nat
                /\ demoOrdersOnly v b = false
                /\ exists request,
                     submitted (snd (snd r))
                     = (submitted (snd d) ++ [request])%list)
     end.
Proof.
  destruct d as [a o]. unfold placeOrder. cbn [fst snd].
  destruct (MAX_DAILY_TRADES tcfg <=? dailyTrades a)%nat eqn:Ecap.
  { cbn [fst snd]. repeat split. left. reflexivity. }
  apply Nat.leb_gt in Ecap.
  destruct (demoOrdersOnly v b) eqn:Edemo.
  { cbn [fst snd]. repeat split. exact Ecap. }
  destruct (submitOrder (length (submitted o))) as [[code orderId] | msg].
  - destruct code; cbn [fst snd].
    + repeat split; [exact Ecap|]. eexists. reflexivity.
    + repeat split. right. repeat split; [exact Ecap|]. eexists. reflexivity.
    + repeat split. right. repeat split; [exact Ecap|]. eexists. reflexivity.
  - cbn [fst snd]. repeat split. right. repeat split; [exact Ecap|].
    eexists. reflexivity.
Qed.

(** At the cap no order method does anything. *)
Lemma placeOrder_at_cap (side : string) (b : Bot) (price quantity : Q) (d : Desk) :
  (MAX_DAILY_TRADES tcfg <= dailyTrades (fst d))%nat ->
  placeOrder v tcfg submitOrder demoOrderId side b price quantity d = (None, d).
Proof.
  intros H. destruct d as [a o]. unfold placeOrder.
  apply Nat.leb_le in H. cbn [fst] in H. rewrite H. reflexivity.
Qed.

Lemma counted_trans (b : Bot) (n1 n2 : nat) (d1 d2 d3 : Desk) :
  counted v tcfg b n1 d1 d2 -> counted v tcfg b n2 d2 d3 ->
  counted v tcfg b (n1 + n2) d1 d3.
Proof.
  unfold counted.
  intros (Hb & Hs & Hc & Hd) (Hb' & Hs' & Hc' & Hd').
  split; [eapply sameBooks_trans; eassumption|].
  split; [lia|].
  destruct (demoOrdersOnly v b).
  - destruct Hd as (H1 & H2 & H3), Hd' as (K1 & K2 & K3).
    split; [lia|]. repeat split; [congruence | congruence | lia].
  - destruct Hd as (H1 & H2 & H3), Hd' as (K1 & K2 & K3).
    split; [lia|]. repeat split; [lia | lia | congruence].
Qed.

Lemma counted_refl (b : Bot) (d : Desk) : counted v tcfg b 0 d d.
Proof.
  unfold counted. split; [apply sameBooks_refl|]. split; [lia|].
  split; [left; reflexivity|].
  destruct (demoOrdersOnly v b); repeat split; lia.
Qed.

(** An order method followed by the tracking of the placed order. *)
Lemma tracked_counted (side type : string) (b : Bot) (level : GridLevel)
    (price quantity : Q) (d : Desk) :
  let r :=
    match placeOrder v tcfg submitOrder demoOrderId side b price quantity d with
    | (Some orderId, (a, o)) =>
        (1%nat,
         (set_orders (Map_set orderId {| info_level := level;
                                         info_type := type |} (orders a)) a,
          o))
    | (None, d') => (0%nat, d')
    end in
  (fst r <= 1)%nat /\ counted v tcfg b (fst r) d (snd r).
Proof.
  pose proof (placeOrder_step side b price quantity d) as H.
  cbv zeta in H.
  destruct (placeOrder v tcfg submitOrder demoOrderId side b price quantity d)
    as [[orderId|] [a o]]; cbn [fst snd] in *.
  - split; [lia|]. destruct H as (Hb & Ho & Hcap & Hd).
    unfold counted. cbn [fst snd].
    split; [exact Hb|]. split.
    { cbn [orders set_orders]. rewrite Ho.
      pose proof (Map_set_length orderId {| info_level := level;
                                            info_type := type |}
                    (orders (fst d))). lia. }
    split; [right; exact Hcap|].
    destruct (demoOrdersOnly v b).
    + destruct Hd as (H1 & H2 & H3). cbn [dailyTrades set_orders].
      repeat split; [exact H1 | exact H2 | lia].
    + destruct Hd as (H1 & H2 & H3). cbn [dailyTrades set_orders].
      repeat split; [lia | lia | exact H3].
  - split; [lia|]. destruct H as (_ & _ & Ha & Hd & Hs).
    subst a. unfold counted. cbn [fst snd].
    split; [apply sameBooks_refl|]. split; [lia|].
    split; [left; reflexivity|].
    destruct (demoOrdersOnly v b).
    + repeat split; [|lia].
      destruct Hs as [Hs | (_ & Hf & _)]; [exact Hs | discriminate].
    + repeat split; [lia | lia | exact Hd].
Qed.

Lemma placeLevelOrders_counted (b : Bot) (n : nat) (d : Desk) (level : GridLevel) :
  let r := placeLevelOrders v tcfg submitOrder demoOrderId b (n, d) level in
  exists k, (k <= 2)%nat /\ fst r = (n + k)%nat /\ counted v tcfg b k d (snd r).
Proof.
  unfold placeLevelOrders, placeBuyOrder, placeSellOrder.
  pose proof (tracked_counted "Buy" "buy" b level (buyPrice level)
                (quantity level) d) as Hbuy.
  cbv zeta in Hbuy.
  set (afterBuy :=
         if ltb (buyPrice level) (currentPrice b * 0.995)
         then
           match placeOrder v tcfg submitOrder demoOrderId "Buy" b
                   (buyPrice level) (quantity level) d with
           | (Some orderId, (a, o)) =>
               (S n,
                (set_orders (Map_set orderId {| info_level := level;
                                                info_type := "buy" |}
                                     (orders a)) a,
                 o))
           | (None, d') => (n, d')
           end
         else (n, d)).
  assert (H1 : exists k1, (k1 <= 1)%nat /\ fst afterBuy = (n + k1)%nat
                          /\ counted v tcfg b k1 d (snd afterBuy)).
  { subst afterBuy.
    destruct (ltb (buyPrice level) (currentPrice b * 0.995)).
    - destruct (placeOrder v tcfg submitOrder demoOrderId "Buy" b
                  (buyPrice level) (quantity level) d) as [[orderId|] [a o]];
        cbn [fst snd] in *.
      + exists 1%nat. split; [lia|]. split; [lia | apply Hbuy].
      + exists 0%nat. split; [lia|]. split; [lia | apply Hbuy].
    - exists 0%nat. split; [lia|]. split; [simpl; lia | apply counted_refl]. }
  destruct afterBuy as [n1 d1]. cbn [fst snd] in H1.
  destruct H1 as (k1 & Hk1 & -> & Hc1).
  pose proof (tracked_counted "Sell" "sell" b level (sellPrice level)
                (quantity level) d1) as Hsell.
  cbv zeta in Hsell.
  destruct (gtb (sellPrice level) (currentPrice b * 1.005)).
  - destruct (placeOrder v tcfg submitOrder demoOrderId "Sell" b
                (sellPrice level) (quantity level) d1) as [[orderId|] [a o]];
      cbn [fst snd] in *.
    + exists (k1 + 1)%nat. split; [lia|]. split; [lia|].
      apply (counted_trans _ _ _ _ _ _ Hc1), Hsell.
    + exists (k1 + 0)%nat. split; [lia|]. split; [lia|].
      apply (counted_trans _ _ _ _ _ _ Hc1), Hsell.
  - exists k1. split; [lia|]. split; [reflexivity | exact Hc1].
Qed.

Lemma placeLevels_counted (b : Bot) (levels : list GridLevel) (n : nat) (d : Desk) :
  let r := fold_left (placeLevelOrders v tcfg submitOrder demoOrderId b)
                     levels (n, d) in
  exists k, (k <= 2 * length levels)%nat /\ fst r = (n + k)%nat
            /\ counted v tcfg b k d (snd r).
Proof.
  revert n d. induction levels as [|level levels IH]; intros n d;
    cbn [fold_left length].
  - exists 0%nat. split; [lia|]. split; [cbn [fst]; lia | apply counted_refl].
  - destruct (placeLevelOrders_counted b n d level) as (k1 & Hk1 & E1 & Hc1).
    destruct (placeLevelOrders v tcfg submitOrder demoOrderId b (n, d) level)
      as [n1 d1]. cbn [fst snd] in *. subst n1.
    destruct (IH (n + k1)%nat d1) as (k2 & Hk2 & E2 & Hc2).
    exists (k1 + k2)%nat. split; [lia|]. split; [rewrite E2; lia|].
    apply (counted_trans _ _ _ _ _ _ Hc1 Hc2).
Qed.

Lemma placeGridOrders_counted (b : Bot) (d : Desk) :
  let r := placeGridOrders v cfg tcfg submitOrder demoOrderId b d in
  (fst r <= 2 * Nat.min (GRID_LEVELS cfg) 20)%nat
  /\ (fst r <= 2 * length (gridLevels b))%nat
  /\ counted v tcfg b (fst r) d (snd r).
Proof.
  cbv zeta. unfold placeGridOrders.
  set (levels := slice 0 (Some (Z.of_nat (Nat.min (GRID_LEVELS cfg) 20)))
                       (gridLevels b)).
  assert (Hlen : (length levels <= Nat.min (GRID_LEVELS cfg) 20)%nat
                 /\ (length levels <= length (gridLevels b))%nat).
  { subst levels. unfold slice. cbn [Z.ltb Z.compare].
    rewrite length_firstn, length_skipn.
    destruct (Z.of_nat (Nat.min (GRID_LEVELS cfg) 20) <? 0)%Z eqn:E.
    - apply Z.ltb_lt in E. lia.
    - split; lia. }
  destruct (placeLevels_counted b levels 0 d) as (k & Hk & E & Hc).
  rewrite E. cbn [Nat.add].
  split; [lia|]. split; [lia | exact Hc].
Qed.

Lemma placeLevels_at_cap (b : Bot) (levels : list GridLevel) (n : nat) (d : Desk) :
  (MAX_DAILY_TRADES tcfg <= dailyTrades (fst d))%nat ->
  fold_left (placeLevelOrders v tcfg submitOrder demoOrderId b) levels (n, d)
  = (n, d).
Proof.
  intros H. induction levels as [|level levels IH]; cbn [fold_left];
    [reflexivity|].
  assert (E : placeLevelOrders v tcfg submitOrder demoOrderId b (n, d) level
              = (n, d)).
  { unfold placeLevelOrders, placeBuyOrder, placeSellOrder.
    rewrite (placeOrder_at_cap "Buy" _ _ _ _ H).
    destruct (ltb _ _); cbv beta iota;
      (destruct (gtb _ _); [|reflexivity]);
      rewrite (placeOrder_at_cap "Sell" _ _ _ _ H); reflexivity. }
  rewrite E. exact IH.
Qed.

(** X11. [placeGridOrders], run without another call in between, walks
    the first min([GRID_LEVELS], 20) grid levels and reports at most two
    placed orders for each.  The books are left alone, and the tracked
    orders grow by at most the reported number.  On a live instance the
    daily counter grows by exactly the reported number, a positive number
    being reported only from below the cap; on a demo instance of
    [server.js] no request is sent and the daily counter does not move.
    The cap is tested before the demo branch: with the counter at the
    cap nothing is placed and nothing changes, on a live and on a demo
    instance alike. *)
Theorem placeGridOrders_accounting :
  forall (b : Bot) (d : Desk),
    let r := placeGridOrders v cfg tcfg submitOrder demoOrderId b d in
    (fst r <= 2 * Nat.min (GRID_LEVELS cfg) 20)%nat
    /\ (fst r <= 2 * length (gridLevels b))%nat
    /\ sameBooks (fst d) (fst (snd r))
    /\ (length (orders (fst (snd r))) <= length (orders (fst d)) + fst r)%nat
    /\ (fst r = 0%nat \/ (dailyTrades (fst d) < MAX_DAILY_TRADES tcfg)%nat)
    /\ (demoOrdersOnly v b = false ->
        dailyTrades (fst (snd r)) = (dailyTrades (fst d) + fst r)%nat
        /\ (dailyTrades (fst (snd r))
            <= Nat.max (dailyTrades (fst d)) (MAX_DAILY_TRADES tcfg))%nat)
    /\ (demoOrdersOnly v b = true ->
        dailyTrades (fst (snd r)) = dailyTrades (fst d)
        /\ submitted (snd (snd r)) = submitted (snd d)
        /\ demoOrders (snd (snd r)) = (demoOrders (snd d) + fst r)%nat)
    /\ ((MAX_DAILY_TRADES tcfg <= dailyTrades (fst d))%nat -> r = (0%nat, d)).
Proof.
  intros b d r. subst r.
  destruct (placeGridOrders_counted b d) as (H1 & H2 & Hc).
  destruct Hc as (Hb & Hs & Hcap & Hd).
  split; [exact H1|]. split; [exact H2|]. split; [exact Hb|].
  split; [exact Hs|]. split; [exact Hcap|].
  split; [|split].
  - intros Hlive. rewrite Hlive in Hd. destruct Hd as (K1 & K2 & _).
    split; assumption.
  - intros Hdemo. rewrite Hdemo in Hd. exact Hd.
  - intros Hfull. unfold placeGridOrders. apply placeLevels_at_cap, Hfull.
Qed.

(** One call of [op], run without another call in between and under
    one configuration. *)
Lemma op_dailyTrades (c : Op) (d : Desk) :
  (dailyTrades (fst (op v cfg tcfg submitOrder demoOrderId c d))
   <= Nat.max (dailyTrades (fst d)) (MAX_DAILY_TRADES tcfg))%nat.
Proof.
  assert (Hp : forall side b price quantity,
            (dailyTrades (fst (snd (placeOrder v tcfg submitOrder demoOrderId
                                      side b price quantity d)))
             <= Nat.max (dailyTrades (fst d)) (MAX_DAILY_TRADES tcfg))%nat).
  { intros side b price quantity.
    pose proof (placeOrder_step side b price quantity d) as H. cbv zeta in H.
    destruct H as (_ & _ & H).
    destruct (fst (placeOrder v tcfg submitOrder demoOrderId side b price
                     quantity d)).
    - destruct H as (Hcap & H). destruct (demoOrdersOnly v b).
      + destruct H as (-> & _). lia.
      + destruct H as (-> & _). lia.
    - destruct H as (-> & _). lia. }
  destruct c as [b price quantity | b price quantity | b | b | now
                 | orderInfo executedPrice executedQty
                 | b getActiveOrders getOrderHistory random | b answer];
    cbn [op].
  - apply Hp.
  - apply Hp.
  - destruct (placeGridOrders_counted b d) as (_ & _ & _ & _ & _ & H).
    destruct (demoOrdersOnly v b).
    + destruct H as (-> & _). lia.
    + destruct H as (_ & H & _). exact H.
  - unfold executeDCA. destruct (executeDCA_order cfg tcfg b) as [[p q]|];
      [apply Hp | lia].
  - cbn [fst]. unfold resetDailyTrades.
    destruct (86400000 <? now - lastTradeReset (fst d))%Z; cbn [dailyTrades]; lia.
  - cbn [fst dailyTrades handleFilledOrder]. lia.
  - cbn [fst]. rewrite monitorOrders_dailyTrades. lia.
  - cbn [fst].
    destruct (cancelAllOrders_books v b answer (fst d)) as (_ & -> & _). lia.
Qed.

Lemma schedule_head (gs : list Piece) (s : Flows) :
  exists rest, schedule gs s = s :: rest.
Proof. destruct gs; eexists; reflexivity. Qed.

(** One piece: a request is added to those in flight only from below
    the cap, an answer moves one request from those in flight to the
    counter or drops it, and nothing else makes the counter grow. *)
Lemma piece_bound (K M B : nat) (g : Piece) (s : Flows) :
  within K M (piece g s) ->
  (dailyTrades (account s) + inFlight s <= Nat.max B (M + K - 1))%nat ->
  (dailyTrades (account (piece g s)) + inFlight (piece g s)
   <= Nat.max B (M + K - 1))%nat.
Proof.
  unfold within.
  destruct g as [demo | answer | now | now | cap]; cbn [piece].
  - destruct (maxDailyTrades s <=? dailyTrades (account s))%nat eqn:Ecap;
      [intros _ H; exact H|].
    apply Nat.leb_gt in Ecap.
    destruct demo; [intros _ H; exact H|].
    cbn [account inFlight maxDailyTrades]. lia.
  - destruct (inFlight s) as [|n] eqn:En; [intros _ H; rewrite En; exact H|].
    cbn [account inFlight maxDailyTrades].
    destruct answer as [[code orderId] | msg]; [destruct code|];
      cbn [dailyTrades set_dailyTrades]; lia.
  - cbn [account inFlight maxDailyTrades]. unfold resetDailyTrades.
    destruct (86400000 <? now - lastTradeReset (account s))%Z;
      cbn [dailyTrades]; lia.
  - cbn [account inFlight maxDailyTrades dailyTrades]. lia.
  - cbn [account inFlight maxDailyTrades]. lia.
Qed.

Lemma schedule_bound (K M B : nat) (gs : list Piece) (s : Flows) :
  Forall (within K M) (schedule gs s) ->
  (dailyTrades (account s) + inFlight s <= Nat.max B (M + K - 1))%nat ->
  Forall (fun t => (dailyTrades (account t) + inFlight t
                    <= Nat.max B (M + K - 1))%nat)
         (schedule gs s).
Proof.
  revert s. induction gs as [|g gs IH]; intros s Hw Hs; cbn [schedule] in *.
  - constructor; [exact Hs | constructor].
  - apply List.Forall_cons_iff in Hw. destruct Hw as [_ Hw].
    constructor; [exact Hs|]. apply IH; [exact Hw|].
    apply piece_bound; [|exact Hs].
    destruct (schedule_head gs (piece g s)) as (rest & E).
    rewrite E in Hw. apply List.Forall_cons_iff in Hw. apply Hw.
Qed.

(** The method run without interruption is its two pieces in a row. *)
Lemma placeOrder_pieces (side : string) (b : Bot) (price quantity : Q)
    (d : Desk) :
  dailyTrades (fst (snd (placeOrder v tcfg submitOrder demoOrderId side b
                           price quantity d)))
  = dailyTrades
      (account
         (scheduled [Enter (demoOrdersOnly v b);
                     Resume (submitOrder (length (submitted (snd d))))]
                    {| account := fst d;
                       maxDailyTrades := MAX_DAILY_TRADES tcfg;
                       inFlight := 0 |})).
Proof.
  destruct d as [a o]. unfold placeOrder, scheduled.
  cbn [fold_left piece fst snd account maxDailyTrades inFlight].
  destruct (MAX_DAILY_TRADES tcfg <=? dailyTrades a)%nat; [reflexivity|].
  destruct (demoOrdersOnly v b); [reflexivity|].
  cbn [inFlight account].
  destruct (submitOrder (length (submitted o))) as [[code orderId] | msg];
    [destruct code|]; reflexivity.
Qed.

(** X12. The cap on the daily trades is tested when an order method is
    entered, and the counter grows when the answer to its request has
    come, with an [await] in between; several calls can be between the
    two, and [PUT /api/config] can change the cap.  For every schedule
    of these pieces, of the resets of the counter and of the changes of
    the cap, along which never more than [K] requests are in flight and
    the cap is never above [M]: the counter plus the requests in flight
    never exceed the larger of their starting value and [M + K - 1].  So
    with one call at a time, from a counter that is not above the cap,
    the counter never goes above the highest cap in force; with [K]
    calls at a time it can pass it, by less than [K].  The order method
    run without interruption moves the counter as its two pieces in a
    row do. *)
Theorem daily_trades_overshoot :
  forall (gs : list Piece) (s : Flows) (K M : nat),
    Forall (within K M) (schedule gs s) ->
    Forall (fun t => (dailyTrades (account t) + inFlight t
                      <= Nat.max (dailyTrades (account s) + inFlight s)
                                 (M + K - 1))%nat)
           (schedule gs s)
    /\ ((K <= 1)%nat -> inFlight s = 0%nat ->
        (dailyTrades (account s) <= M)%nat ->
        Forall (fun t => (dailyTrades (account t) <= M)%nat) (schedule gs s))
    /\ (forall side b price quantity d,
          dailyTrades (fst (snd (placeOrder v tcfg submitOrder demoOrderId side
                                   b price quantity d)))
          = dailyTrades
              (account
                 (scheduled [Enter (demoOrdersOnly v b);
                             Resume (submitOrder (length (submitted (snd d))))]
                            {| account := fst d;
                               maxDailyTrades := MAX_DAILY_TRADES tcfg;
                               inFlight := 0 |}))).
Proof.
  intros gs s K M Hw.
  assert (Hb : Forall (fun t => (dailyTrades (account t) + inFlight t
                                 <= Nat.max (dailyTrades (account s) + inFlight s)
                                            (M + K - 1))%nat)
                      (schedule gs s)).
  { apply schedule_bound; [exact Hw | lia]. }
  split; [exact Hb|]. split; [|apply placeOrder_pieces].
  intros HK Hp Hn. eapply List.Forall_impl; [|exact Hb].
  cbv beta. intros t Ht. lia.
Qed.

Lemma scheduled_app (gs gs' : list Piece) (s : Flows) :
  scheduled (gs ++ gs')%list s = scheduled gs' (scheduled gs s).
Proof. apply fold_left_app. Qed.

Lemma schedule_app (P : Flows -> Prop) (gs gs' : list Piece) (s : Flows) :
  Forall P (schedule gs s) -> Forall P (schedule gs' (scheduled gs s)) ->
  Forall P (schedule (gs ++ gs')%list s).
Proof.
  revert s. induction gs as [|g gs IH]; intros s H1 H2; cbn [app schedule] in *.
  - exact H2.
  - apply List.Forall_cons_iff in H1. destruct H1 as [Hs H1].
    constructor; [exact Hs|]. apply IH; [exact H1 | exact H2].
Qed.

(** [k] calls enter below the cap before any answer has come. *)
Lemma enter_repeat (K M : nat) (k : nat) (s : Flows) :
  (dailyTrades (account s) < maxDailyTrades s)%nat ->
  (maxDailyTrades s <= M)%nat ->
  (inFlight s + k <= K)%nat ->
  Forall (within K M) (schedule (repeat (Enter false) k) s)
  /\ scheduled (repeat (Enter false) k) s
     = {| account := account s; maxDailyTrades := maxDailyTrades s;
          inFlight := inFlight s + k |}.
Proof.
  revert s. induction k as [|k IH]; intros s Hn Hm Hp;
    cbn [repeat schedule].
  - split; [constructor; [split; lia | constructor]|].
    unfold scheduled. cbn [fold_left]. destruct s as [a m p].
    cbn [account maxDailyTrades inFlight]. f_equal. lia.
  - assert (E : piece (Enter false) s
                = {| account := account s; maxDailyTrades := maxDailyTrades s;
                     inFlight := S (inFlight s) |}).
    { cbn [piece]. apply Nat.leb_gt in Hn. rewrite Hn. reflexivity. }
    destruct (IH (piece (Enter false) s)) as [H1 H2];
      try (rewrite E; cbn [account maxDailyTrades inFlight]; lia).
    split.
    + constructor; [split; lia | exact H1].
    + unfold scheduled in *. cbn [fold_left]. rewrite H2, E.
      cbn [account maxDailyTrades inFlight]. f_equal. lia.
Qed.

(** The answers to [k] requests in flight come, all accepted. *)
Lemma resume_repeat (K M : nat) (id : string) (k : nat) (s : Flows) :
  (maxDailyTrades s <= M)%nat ->
  (inFlight s <= K)%nat ->
  (k <= inFlight s)%nat ->
  Forall (within K M) (schedule (repeat (Resume (Returned (0%Z, id))) k) s)
  /\ dailyTrades (account (scheduled (repeat (Resume (Returned (0%Z, id))) k) s))
     = (dailyTrades (account s) + k)%nat.
Proof.
  revert s. induction k as [|k IH]; intros s Hm Hp Hk;
    cbn [repeat schedule].
  - split; [constructor; [split; lia | constructor]|].
    unfold scheduled. cbn [fold_left]. lia.
  - destruct (inFlight s) as [|n] eqn:En; [lia|].
    assert (E : piece (Resume (Returned (0%Z, id))) s
                = {| account := set_dailyTrades (S (dailyTrades (account s)))
                                                (account s);
                     maxDailyTrades := maxDailyTrades s; inFlight := n |}).
    { cbn [piece]. rewrite En. reflexivity. }
    destruct (IH (piece (Resume (Returned (0%Z, id))) s)) as [H1 H2];
      try (rewrite E; cbn [account maxDailyTrades inFlight]; lia).
    split.
    + constructor; [split; lia | exact H1].
    + unfold scheduled in *. cbn [fold_left]. rewrite H2, E.
      cbn [account dailyTrades set_dailyTrades]. lia.
Qed.

(** X27. The cap on the daily trades can be passed: when [K] calls of
    an order method are entered one below the cap [M] before the answer
    to any of their requests has come, and the exchange accepts them
    all, never more than [K] requests are in flight, the cap stays at
    [M], and the counter ends at [M + K - 1], which is above the cap as
    soon as two calls run at the same time. *)
Theorem daily_cap_passed_by_calls_in_flight :
  forall (K M : nat),
    (1 <= K)%nat -> (1 <= M)%nat ->
    exists (gs : list Piece) (s : Flows),
      inFlight s = 0%nat
      /\ maxDailyTrades s = M
      /\ (dailyTrades (account s) < M)%nat
      /\ Forall (within K M) (schedule gs s)
      /\ dailyTrades (account (scheduled gs s)) = (M + K - 1)%nat.
Proof.
  intros K M HK HM.
  set (s := {| account := set_dailyTrades (M - 1) (newAccount 0);
               maxDailyTrades := M; inFlight := 0 |}).
  exists (repeat (Enter false) K
          ++ repeat (Resume (Returned (0%Z, "order"%string))) K)%list, s.
  destruct (enter_repeat K M K s) as [H1 H2];
    try (subst s; cbn [account maxDailyTrades inFlight dailyTrades
                       set_dailyTrades]; lia).
  destruct (resume_repeat K M "order" K (scheduled (repeat (Enter false) K) s))
    as [H3 H4];
    try (rewrite H2; subst s; cbn [account maxDailyTrades inFlight]; lia).
  split; [reflexivity|]. split; [reflexivity|].
  split; [subst s; cbn [account dailyTrades set_dailyTrades]; lia|].
  split; [apply schedule_app; assumption|].
  rewrite scheduled_app, H4, H2. subst s.
  cbn [account dailyTrades set_dailyTrades]. lia.
Qed.

End Counters.

(** ** The books *)

Section Books.
Import JS GridBot GridTrading.
Local Open Scope Q_scope.

Variable v : SourceFile.
Variable cfg : Config.
Variable tcfg : TradeConfig.
Variable submitOrder : nat -> Outcome (Z * string).
Variable demoOrderId : nat -> string.

Lemma booksAgree_sameBooks (a a' : Account) :
  sameBooks a a' -> booksAgree a -> booksAgree a'.
Proof.
  intros (_ & H2 & H3 & H4 & H5). unfold booksAgree.
  rewrite H2, H3, H4, H5. tauto.
Qed.

Lemma ratesAgree_sameBooks (a a' : Account) :
  sameBooks a a' -> ratesAgree a -> ratesAgree a'.
Proof.
  intros (_ & H2 & H3 & H4 & H5). unfold ratesAgree.
  rewrite H3, H4, H5. tauto.
Qed.

Lemma handleFilledOrder_books (orderInfo : OrderInfo)
    (executedPrice executedQty : Q) (a : Account) :
  booksAgree a ->
  booksAgree (handleFilledOrder orderInfo executedPrice executedQty a).
Proof.
  intros (H1 & H2 & H3 & H4 & H5 & H6 & H7 & H8).
  unfold booksAgree, handleFilledOrder.
  cbn [profitLoss totalTrades successfulTrades performance totalProfit
       totalLoss bestTrade worstTrade].
  destruct (String.eqb (info_type orderInfo) "sell").
  - set (p := (executedPrice - buyPrice (info_level orderInfo)) * executedQty).
    clearbody p. unfold Math_max, Math_min.
    assert (Hmax : 0 <= Qmax 0 p /\ p <= Qmax 0 p
                   /\ 0 <= Qmax 0 (- p) /\ - p <= Qmax 0 (- p)
                   /\ Qmax 0 p - Qmax 0 (- p) == p).
    { destruct (Qlt_le_dec p 0) as [Hn | Hn].
      - rewrite (Q.max_l 0 p) by lra. rewrite (Q.max_r 0 (- p)) by lra.
        repeat split; lra.
      - rewrite (Q.max_r 0 p) by lra. rewrite (Q.max_l 0 (- p)) by lra.
        repeat split; lra. }
    destruct Hmax as (M1 & M2 & M3 & M4 & M5).
    pose proof (Q.le_max_l (bestTrade (performance a)) p) as B1.
    pose proof (Q.le_min_l (worstTrade (performance a)) p) as W1.
    repeat split.
    + lra.
    + lra.
    + lra.
    + lra.
    + apply Q.max_lub; lra.
    + lra.
    + apply Q.min_glb; lra.
    + cbn [andb]. destruct (gtb p 0); lia.
  - cbn [andb]. repeat split; try assumption. lia.
Qed.

Lemma handleFilledOrder_rates (orderInfo : OrderInfo)
    (executedPrice executedQty : Q) (a : Account) :
  (successfulTrades a <= totalTrades a)%nat ->
  ratesAgree (handleFilledOrder orderInfo executedPrice executedQty a).
Proof.
  intros Hle. unfold ratesAgree, handleFilledOrder.
  cbn [totalTrades successfulTrades performance winRate avgTradeSize
       totalVolume].
  assert (Hgen : forall s' : nat,
            (s' <= S (totalTrades a))%nat ->
            let t := inject_Z (Z.of_nat (S (totalTrades a))) in
            let s := inject_Z (Z.of_nat s') in
            s / t * 100 * t == s * 100
            /\ (totalVolume (performance a) + executedPrice * executedQty)
               / t * t
               == totalVolume (performance a) + executedPrice * executedQty
            /\ 0 <= s / t * 100 /\ s / t * 100 <= 100).
  { intros s' Hs t s.
    assert (Ht : 0 < t).
    { subst t. change 0 with (inject_Z 0). rewrite <- Zlt_Qlt. lia. }
    assert (Hs0 : 0 <= s).
    { subst s. change 0 with (inject_Z 0). rewrite <- Zle_Qle. lia. }
    assert (Hst : s <= t).
    { subst s t. rewrite <- Zle_Qle. lia. }
    clearbody t s.
    assert (Hne : ~ t == 0) by lra.
    split; [field; exact Hne|]. split; [field; exact Hne|].
    assert (Hq : 0 <= s / t /\ s / t <= 1).
    { split.
      - apply Qle_shift_div_l; lra.
      - apply Qle_shift_div_r; lra. }
    set (q := s / t) in *. clearbody q. split; lra. }
  apply Hgen. destruct (_ && _); lia.
Qed.

Lemma bookFill_agrees (orderId : string) (orderInfo : OrderInfo)
    (p q : Q) (a : Account) :
  booksAgree a /\ ratesAgree a ->
  booksAgree (bookFill orderId orderInfo p q a)
  /\ ratesAgree (bookFill orderId orderInfo p q a).
Proof.
  intros [Hb Hr]. split.
  - exact (handleFilledOrder_books orderInfo p q a Hb).
  - apply (handleFilledOrder_rates orderInfo p q a), Hb.
Qed.

Lemma op_sameBooks (c : Op) (d : Desk) :
  match c with
  | OpHandleFilledOrder _ _ _ => True
  | OpMonitorOrders _ _ _ _ => True
  | _ => sameBooks (fst d) (fst (op v cfg tcfg submitOrder demoOrderId c d))
         \/ exists now, fst (op v cfg tcfg submitOrder demoOrderId c d)
                        = {| orders := orders (fst d); dailyTrades := 0;
                             lastTradeReset := now;
                             profitLoss := profitLoss (fst d);
                             totalTrades := totalTrades (fst d);
                             successfulTrades := successfulTrades (fst d);
                             performance := performance (fst d) |}
  end.
Proof.
  destruct c as [b price quantity | b price quantity | b | b | now
                 | orderInfo executedPrice executedQty
                 | b getActiveOrders getOrderHistory random | b answer];
    cbn [op]; try exact I.
  - left. apply (placeOrder_step v tcfg submitOrder demoOrderId).
  - left. apply (placeOrder_step v tcfg submitOrder demoOrderId).
  - left. apply (placeGridOrders_counted v cfg tcfg submitOrder demoOrderId).
  - left. unfold executeDCA.
    destruct (executeDCA_order cfg tcfg b) as [[p q]|];
      [apply (placeOrder_step v tcfg submitOrder demoOrderId)
      | apply sameBooks_refl].
  - cbn [fst]. unfold resetDailyTrades.
    destruct (86400000 <? now - lastTradeReset (fst d))%Z.
    + right. exists now. reflexivity.
    + left. apply sameBooks_refl.
  - left. cbn [fst]. apply (cancelAllOrders_books v b answer (fst d)).
Qed.

Lemma op_books (c : Op) (d : Desk) :
  booksAgree (fst d) /\ ratesAgree (fst d) ->
  booksAgree (fst (op v cfg tcfg submitOrder demoOrderId c d))
  /\ ratesAgree (fst (op v cfg tcfg submitOrder demoOrderId c d)).
Proof.
  intros [Hb Hr]. pose proof (op_sameBooks c d) as H.
  destruct c as [b price quantity | b price quantity | b | b | now
                 | orderInfo executedPrice executedQty
                 | b getActiveOrders getOrderHistory random | b answer].
  1-5, 8: destruct H as [H | [t ->]];
    [split; [apply (booksAgree_sameBooks _ _ H Hb)
            | apply (ratesAgree_sameBooks _ _ H Hr)]
    | split; [exact Hb | exact Hr]].
  - cbn [op fst]. split.
    + apply handleFilledOrder_books, Hb.
    + apply handleFilledOrder_rates, Hb.
  - cbn [op fst].
    apply (fills_invariant (fun a => booksAgree a /\ ratesAgree a)
             _ _ _ _ bookFill_agrees
             (monitorOrders_fills v b getActiveOrders getOrderHistory random
                (fst d))).
    split; assumption.
Qed.

(** X13. From books that agree, as those that the constructor sets
    do, the books agree after any calls (fills, orders, DCA, resets of
    the daily counter, rounds of monitoring, cancellations), whatever
    the filled prices and quantities: the profit and loss is the profit
    total minus the loss total; both totals, and the best trade, are not
    negative; the best trade is at most the profit total and the worst
    trade, which is not positive, at least minus the loss total; no more
    trades are counted as won than were counted; the win rate is the
    share of won trades in percent, between 0 and 100, and the average
    trade size is the volume divided by the number of trades, among all
    fills, buys included. *)
Theorem books_agree :
  forall (cs : list Op) (d : Desk),
    booksAgree (fst d) ->
    ratesAgree (fst d) ->
    let a := fst (ops v cfg tcfg submitOrder demoOrderId cs d) in
    booksAgree a /\ ratesAgree a.
Proof.
  intros cs d Hb Hr. cbv zeta.
  assert (H : booksAgree (fst d) /\ ratesAgree (fst d)) by (split; assumption).
  clear Hb Hr. revert d H. unfold ops.
  induction cs as [|c cs IH]; intros d H; simpl; [exact H|].
  apply IH, op_books, H.
Qed.

End Books.

(** ** The monitoring of the tracked orders *)

Section OrderMonitoring.
Import JS GridBot GridTrading.
Local Open Scope Q_scope.

Variable v : SourceFile.
Variable cfg : Config.
Variable tcfg : TradeConfig.
Variable submitOrder : nat -> Outcome (Z * string).
Variable demoOrderId : nat -> string.

Lemma Map_delete_distinct (k : string) (m : list (string * OrderInfo)) :
  distinctKeys m -> distinctKeys (Map_delete k m).
Proof.
  unfold distinctKeys, Map_delete. induction m as [|e m IH]; intros H;
    cbn [List.filter map]; [constructor|].
  cbn [map] in H. apply NoDup_cons in H. destruct H as [Hn H].
  destruct (negb (String.eqb (fst e) k)); [|apply IH, H].
  cbn [map]. apply NoDup_cons. split; [|apply IH, H].
  intros Hin. apply Hn. apply list_elem_of_In in Hin.
  apply list_elem_of_In. apply in_map_iff in Hin.
  destruct Hin as (x & Ex & Hx). apply List.filter_In in Hx.
  apply in_map_iff. exists x. split; [exact Ex | apply Hx].
Qed.

Lemma Map_delete_typed (k : string) (m : list (string * OrderInfo)) :
  typedOrders m -> typedOrders (Map_delete k m).
Proof.
  unfold typedOrders, Map_delete. intros H.
  apply List.Forall_forall. intros e He. apply List.filter_In in He.
  apply (proj1 (List.Forall_forall _ _) H), He.
Qed.

Lemma Map_set_typed (k : string) (level : GridLevel) (type : string)
    (m : list (string * OrderInfo)) :
  type = "buy"%string \/ type = "sell"%string ->
  typedOrders m ->
  typedOrders (Map_set k {| info_level := level; info_type := type |} m).
Proof.
  unfold typedOrders. intros Ht H.
  induction m as [|e m IH]; cbn [Map_set].
  - constructor; [exact Ht | constructor].
  - apply List.Forall_cons_iff in H. destruct H as [He H].
    destruct (String.eqb (fst e) k).
    + constructor; [exact Ht | exact H].
    + constructor; [exact He | apply IH, H].
Qed.

(** What holds of no tracked orders, and is kept when an order is
    tracked as a ['buy'] or a ['sell'] order and when an order is
    forgotten, holds of the tracked orders of every account that the
    calls lead to. *)
Section TrackedOrders.

Variable Inv : list (string * OrderInfo) -> Prop.
Hypothesis Inv_clear : Inv [].
Hypothesis Inv_delete : forall k m, Inv m -> Inv (Map_delete k m).
Hypothesis Inv_set :
  forall k level type m,
    type = "buy"%string \/ type = "sell"%string ->
    Inv m -> Inv (Map_set k {| info_level := level; info_type := type |} m).

Lemma bookFill_tracked (orderId : string) (orderInfo : OrderInfo)
    (p q : Q) (a : Account) :
  Inv (orders a) -> Inv (orders (bookFill orderId orderInfo p q a)).
Proof.
  unfold bookFill. cbn [orders set_orders handleFilledOrder]. apply Inv_delete.
Qed.

Lemma tracked_tracked (side type : string) (b : Bot) (level : GridLevel)
    (price quantity : Q) (d : Desk) :
  type = "buy"%string \/ type = "sell"%string ->
  Inv (orders (fst d)) ->
  Inv (orders
    (fst (snd
       match placeOrder v tcfg submitOrder demoOrderId side b price quantity d
       with
       | (Some orderId, (a, o)) =>
           (1%nat,
            (set_orders (Map_set orderId {| info_level := level;
                                            info_type := type |} (orders a)) a,
             o))
       | (None, d') => (0%nat, d')
       end))).
Proof.
  intros Ht Hd.
  pose proof (placeOrder_step v tcfg submitOrder demoOrderId side b price
                quantity d) as H.
  cbv zeta in H. destruct H as (_ & Ho & _).
  destruct (placeOrder v tcfg submitOrder demoOrderId side b price quantity d)
    as [[orderId|] [a o]]; cbn [fst snd] in *.
  - cbn [orders set_orders]. apply Inv_set; [exact Ht|]. rewrite Ho. exact Hd.
  - rewrite Ho. exact Hd.
Qed.

Lemma placeLevelOrders_tracked (b : Bot) (n : nat) (d : Desk)
    (level : GridLevel) :
  Inv (orders (fst d)) ->
  Inv (orders
    (fst (snd (placeLevelOrders v tcfg submitOrder demoOrderId b (n, d) level)))).
Proof.
  intros Hd. unfold placeLevelOrders, placeBuyOrder, placeSellOrder.
  pose proof (tracked_tracked "Buy" "buy" b level (buyPrice level)
                (quantity level) d (or_introl eq_refl) Hd) as Hbuy.
  set (afterBuy :=
         if ltb (buyPrice level) (currentPrice b * 0.995)
         then
           match placeOrder v tcfg submitOrder demoOrderId "Buy" b
                   (buyPrice level) (quantity level) d with
           | (Some orderId, (a, o)) =>
               (S n,
                (set_orders (Map_set orderId {| info_level := level;
                                                info_type := "buy" |}
                                     (orders a)) a,
                 o))
           | (None, d') => (n, d')
           end
         else (n, d)).
  assert (H1 : Inv (orders (fst (snd afterBuy)))).
  { subst afterBuy.
    destruct (ltb (buyPrice level) (currentPrice b * 0.995)); [|exact Hd].
    destruct (placeOrder v tcfg submitOrder demoOrderId "Buy" b
                (buyPrice level) (quantity level) d) as [[orderId|] [a o]];
      exact Hbuy. }
  destruct afterBuy as [n1 d1]. cbn [fst snd] in H1.
  pose proof (tracked_tracked "Sell" "sell" b level (sellPrice level)
                (quantity level) d1 (or_intror eq_refl) H1) as Hsell.
  destruct (gtb (sellPrice level) (currentPrice b * 1.005)); [|exact H1].
  destruct (placeOrder v tcfg submitOrder demoOrderId "Sell" b
              (sellPrice level) (quantity level) d1) as [[orderId|] [a o]];
    exact Hsell.
Qed.

Lemma placeLevels_tracked (b : Bot) (levels : list GridLevel) (n : nat)
    (d : Desk) :
  Inv (orders (fst d)) ->
  Inv (orders
    (fst (snd (fold_left (placeLevelOrders v tcfg submitOrder demoOrderId b)
                         levels (n, d))))).
Proof.
  revert n d. induction levels as [|level levels IH]; intros n d Hd;
    cbn [fold_left]; [exact Hd|].
  pose proof (placeLevelOrders_tracked b n d level Hd) as H1.
  destruct (placeLevelOrders v tcfg submitOrder demoOrderId b (n, d) level)
    as [n1 d1]. apply IH, H1.
Qed.

Lemma monitorOrders_tracked (b : Bot)
    (getActiveOrders : Outcome (Z * option (list string)))
    (getOrderHistory : string -> Outcome (Z * option (list FilledOrder)))
    (random : nat -> Q) (a : Account) :
  Inv (orders a) ->
  Inv (orders (monitorOrders v b getActiveOrders getOrderHistory random a)).
Proof.
  apply (fills_invariant (fun a0 => Inv (orders a0)) _ _ _ _ bookFill_tracked
           (monitorOrders_fills v b getActiveOrders getOrderHistory random a)).
Qed.

Lemma op_tracked (c : Op) (d : Desk) :
  Inv (orders (fst d)) ->
  Inv (orders (fst (op v cfg tcfg submitOrder demoOrderId c d))).
Proof.
  intros Hd.
  assert (Hp : forall side b price quantity,
            Inv (orders
              (fst (snd (placeOrder v tcfg submitOrder demoOrderId side b price
                           quantity d))))).
  { intros side b price quantity.
    pose proof (placeOrder_step v tcfg submitOrder demoOrderId side b price
                  quantity d) as H.
    cbv zeta in H. destruct H as (_ & Ho & _).
    rewrite Ho. exact Hd. }
  destruct c as [b price quantity | b price quantity | b | b | now
                 | orderInfo executedPrice executedQty
                 | b getActiveOrders getOrderHistory random | b answer];
    cbn [op].
  - apply Hp.
  - apply Hp.
  - unfold placeGridOrders. apply placeLevels_tracked, Hd.
  - unfold executeDCA. destruct (executeDCA_order cfg tcfg b) as [[p q]|];
      [apply Hp | exact Hd].
  - cbn [fst]. unfold resetDailyTrades.
    destruct (86400000 <? now - lastTradeReset (fst d))%Z; exact Hd.
  - exact Hd.
  - cbn [fst]. apply monitorOrders_tracked, Hd.
  - cbn [fst].
    destruct (cancelAllOrders_books v b answer (fst d)) as (_ & _ & [H | H] & _).
    + rewrite H. exact Inv_clear.
    + rewrite H. exact Hd.
Qed.

Lemma ops_tracked (cs : list Op) (d : Desk) :
  Inv (orders (fst d)) ->
  Inv (orders (fst (ops v cfg tcfg submitOrder demoOrderId cs d))).
Proof.
  revert d. unfold ops. induction cs as [|c cs IH]; intros d H; simpl;
    [exact H|].
  apply IH, op_tracked, H.
Qed.

End TrackedOrders.

Lemma Map_set_distinct_order (k : string) (level : GridLevel) (type : string)
    (m : list (string * OrderInfo)) :
  type = "buy"%string \/ type = "sell"%string ->
  distinctKeys m ->
  distinctKeys (Map_set k {| info_level := level; info_type := type |} m).
Proof. intros _. apply Map_set_distinct. Qed.

Lemma distinctKeys_nil : distinctKeys [].
Proof. constructor. Qed.

Lemma typedOrders_nil : typedOrders [].
Proof. constructor. Qed.

(** X24. On an instance that starts without tracked orders, as the
    constructor leaves it, after any calls no two tracked orders have
    the same id, and [monitorOrders] keeps it so.  The orders that
    [monitorOrders] still tracks are tracked orders of before, in their
    order, and each order that it forgets is counted as exactly one
    trade; the daily counter and the time of its reset stay.  On a live
    instance an order that the exchange lists as active stays tracked,
    and when the request for the active orders fails or is refused
    nothing changes at all. *)
Theorem monitorOrders_accounting :
  forall (cs : list Op) (d : Desk) (b : Bot)
         (getActiveOrders : Outcome (Z * option (list string)))
         (getOrderHistory : string -> Outcome (Z * option (list FilledOrder)))
         (random : nat -> Q),
    orders (fst d) = [] ->
    let a := fst (ops v cfg tcfg submitOrder demoOrderId cs d) in
    let a' := monitorOrders v b getActiveOrders getOrderHistory random a in
    distinctKeys (orders a)
    /\ distinctKeys (orders a')
    /\ sublist (orders a') (orders a)
    /\ (totalTrades a' + length (orders a')
        = totalTrades a + length (orders a))%nat
    /\ dailyTrades a' = dailyTrades a
    /\ lastTradeReset a' = lastTradeReset a
    /\ (demoOrdersOnly v b = false ->
        (forall list e,
            getActiveOrders = Returned (0%Z, list) ->
            In e (orders a) ->
            In (fst e) (match list with Some l => l | None => [] end) ->
            In e (orders a'))
        /\ ((forall list, getActiveOrders <> Returned (0%Z, list)) -> a' = a)).
Proof.
  intros cs d b getActiveOrders getOrderHistory random Hstart a a'.
  assert (Hd : distinctKeys (orders a)).
  { apply (ops_tracked distinctKeys distinctKeys_nil Map_delete_distinct
             Map_set_distinct_order).
    rewrite Hstart. apply distinctKeys_nil. }
  pose proof (monitorOrders_fills v b getActiveOrders getOrderHistory random a)
    as Hf.
  fold a' in Hf.
  split; [exact Hd|].
  split.
  { apply (monitorOrders_tracked distinctKeys Map_delete_distinct), Hd. }
  destruct (fills_spec _ _ _ _ Hf [] eq_refl Hd)
    as (es' & E1 & E2 & E3 & E4 & E5 & _).
  cbn [app] in E1. rewrite E1.
  split; [exact E2|]. split; [exact E3|]. split; [exact E4|].
  split; [exact E5|].
  intros Hlive. split.
  - intros list e Hg He Hactive.
    assert (Hl : fills (liveFill (match list with Some l => l | None => [] end))
                       (orders a) a a').
    { subst a'. unfold monitorOrders. rewrite Hlive, Hg.
      apply monitorOrder_fills. }
    destruct (fills_spec _ _ _ _ Hl [] eq_refl Hd)
      as (es2 & K1 & _ & _ & _ & _ & K6).
    cbn [app] in K1. rewrite <- E1, K1. apply K6; [exact He|].
    intros p q Hno. unfold liveFill in Hno.
    assert (Ht : existsb (String.eqb (fst e))
                   (match list with Some l => l | None => [] end) = true).
    { apply existsb_exists. exists (fst e).
      split; [exact Hactive | apply String.eqb_refl]. }
    congruence.
  - intros Hfail. clear Hf E1. subst a'. unfold monitorOrders.
    rewrite Hlive.
    destruct getActiveOrders as [[code list] | msg]; [|reflexivity].
    destruct code; try reflexivity. destruct (Hfail list eq_refl).
Qed.

(** X26. On an instance that starts without tracked orders, after any
    calls every tracked order is a ['buy'] or a ['sell'] order: in the
    statistics of the orders endpoint of [server.js] the buy orders and
    the sell orders add up to the total, which is the number of tracked
    orders. *)
Theorem order_statistics_add_up :
  forall (cs : list Op) (d : Desk),
    orders (fst d) = [] ->
    let a := fst (ops v cfg tcfg submitOrder demoOrderId cs d) in
    typedOrders (orders a)
    /\ (let '(total, buyOrders, sellOrders) := WebUI.orderStats a in
        total = length (orders a)
        /\ (buyOrders + sellOrders)%nat = total).
Proof.
  intros cs d Hstart a.
  assert (Ht : typedOrders (orders a)).
  { apply (ops_tracked typedOrders typedOrders_nil Map_delete_typed
             Map_set_typed).
    rewrite Hstart. apply typedOrders_nil. }
  split; [exact Ht|]. unfold WebUI.orderStats.
  split; [reflexivity|].
  unfold typedOrders in Ht. induction Ht as [|e m He Hm IH];
    [reflexivity|].
  cbn [List.filter length].
  destruct He as [He | He]; rewrite He.
  - change (String.eqb "buy" "buy") with true.
    change (String.eqb "buy" "sell") with false. cbn [length]. lia.
  - change (String.eqb "sell" "buy") with false.
    change (String.eqb "sell" "sell") with true. cbn [length]. lia.
Qed.

Lemma demoFill_step (e : string * OrderInfo) (p q : Q) (a : Account) :
  demoFill e p q -> soundOrder (snd e) -> booksAgree a ->
  noLoss a (bookFill (fst e) (snd e) p q a).
Proof.
  intros [-> ->] (Hbuy & Hsell & Hqty) (_ & _ & _ & _ & _ & Hworst & _).
  unfold noLoss, bookFill.
  cbn [performance profitLoss set_orders handleFilledOrder totalLoss
       worstTrade totalProfit totalVolume].
  set (lvl := info_level (snd e)) in *.
  destruct (String.eqb (info_type (snd e)) "sell") eqn:Esell.
  - apply String.eqb_eq in Esell. rewrite Esell.
    change (String.eqb "sell" "buy") with false. cbv iota.
    set (profit := (sellPrice lvl - buyPrice lvl) * quantity lvl).
    assert (Hp : 0 <= profit).
    { subst profit. apply Qmult_le_0_compat; lra. }
    assert (Hv : 0 <= sellPrice lvl * quantity lvl).
    { apply Qmult_le_0_compat; lra. }
    clearbody profit. unfold Math_max, Math_min.
    rewrite (Q.max_l 0 (- profit)) by lra.
    rewrite (Q.max_r 0 profit) by lra.
    rewrite (Q.min_l (worstTrade (performance a)) profit) by lra.
    repeat split; lra.
  - assert (Hv : 0 <= (if String.eqb (info_type (snd e)) "buy"
                       then buyPrice lvl else sellPrice lvl) * quantity lvl).
    { destruct (String.eqb (info_type (snd e)) "buy");
        apply Qmult_le_0_compat; lra. }
    repeat split; lra.
Qed.

Lemma noLoss_trans (a1 a2 a3 : Account) :
  noLoss a1 a2 -> noLoss a2 a3 -> noLoss a1 a3.
Proof.
  intros (H1 & H2 & H3 & H4 & H5) (K1 & K2 & K3 & K4 & K5).
  unfold noLoss. repeat split; lra.
Qed.

Lemma demoFills_noLoss (es : list (string * OrderInfo)) (a a' : Account) :
  fills demoFill es a a' ->
  Forall soundOrder (map snd es) -> booksAgree a ->
  noLoss a a'.
Proof.
  intros H. induction H as [a | e es a a' H IH | e es p q a a' Hf H IH];
    intros Hs Hb.
  - unfold noLoss. repeat split; lra.
  - cbn [map] in Hs. apply List.Forall_cons_iff in Hs. apply IH; tauto.
  - cbn [map] in Hs. apply List.Forall_cons_iff in Hs. destruct Hs as [He Hs].
    apply (noLoss_trans _ (bookFill (fst e) (snd e) p q a)).
    + apply demoFill_step; assumption.
    + apply IH; [exact Hs|].
      exact (handleFilledOrder_books (snd e) p q a Hb).
Qed.

(** X25. On a demo instance of [server.js], where each tracked order
    is filled at its own price with one chance in twenty, a round of
    [monitorOrders] never books a loss when every tracked level sells
    at or above its buy price, for positive prices and quantities: from
    books that agree, the loss total and the worst trade stay as they
    are, the profit and loss grows by exactly what the profit total
    grows by, and the volume does not shrink, whatever the draws.  The
    sell fill books the gain of its level whether or not the buy order
    of the level was ever filled. *)
Theorem demo_fills_never_lose :
  forall (b : Bot)
         (getActiveOrders : Outcome (Z * option (list string)))
         (getOrderHistory : string -> Outcome (Z * option (list FilledOrder)))
         (random : nat -> Q) (a : Account),
    demoOrdersOnly v b = true ->
    booksAgree a ->
    Forall soundOrder (map snd (orders a)) ->
    let a' := monitorOrders v b getActiveOrders getOrderHistory random a in
    totalLoss (performance a') == totalLoss (performance a)
    /\ worstTrade (performance a') == worstTrade (performance a)
    /\ profitLoss a <= profitLoss a'
    /\ totalProfit (performance a') - totalProfit (performance a)
       == profitLoss a' - profitLoss a
    /\ totalVolume (performance a) <= totalVolume (performance a').
Proof.
  intros b getActiveOrders getOrderHistory random a Hdemo Hb Hs a'.
  apply (demoFills_noLoss (orders a)); [|exact Hs | exact Hb].
  subst a'. unfold monitorOrders. rewrite Hdemo.
  apply monitorDemoOrder_fills.
Qed.

End OrderMonitoring.

(** ** One tick, position by position *)

Section TickAudit.
Import JS HedgeBot HedgeRun HedgeAudit.
Local Open Scope Q_scope.
Local Open Scope string_scope.

Variable config : Config.
Variable exchange : nat -> Outcome string.
Variable EMA : nat -> list Q -> list Q.
Variable RSI : nat -> list Q -> list Q.
Variable MACD_histogram : list Q -> list (option Q).
Variable SMA : nat -> list Q -> list Q.
Variable sym : string.
Variable symbolConfig : SymbolConfig.

Lemma samePosition_refl (t : Trade) : samePosition t t.
Proof. repeat split. Qed.

Lemma samePosition_trans (t1 t2 t3 : Trade) :
  samePosition t1 t2 -> samePosition t2 t3 -> samePosition t1 t3.
Proof.
  intros (A1 & A2 & A3 & A4 & A5 & A6) (B1 & B2 & B3 & B4 & B5 & B6).
  repeat split; congruence.
Qed.

Lemma keeps_refl (a : option Trade) : keeps a a.
Proof.
  destruct a as [t|]; [|left; reflexivity].
  right. exists t, t. repeat split.
Qed.

Lemma keeps_trans (a b c : option Trade) : keeps a b -> keeps b c -> keeps a c.
Proof.
  intros Hab [-> | (t2 & t3 & -> & -> & H23)]; [left; reflexivity|].
  destruct Hab as [Hab | (t1 & t2' & -> & E & H12)]; [discriminate|].
  injection E as <-. right. exists t1, t3. repeat split;
    apply (samePosition_trans _ _ _ H12 H23).
Qed.

Lemma keeps_same_or_none (a b : option Trade) : b = a \/ b = None -> keeps a b.
Proof. intros [-> | ->]; [apply keeps_refl | left; reflexivity]. Qed.

Lemma logs_refl (P : TradeRecord -> Prop) (s : SymbolState) : logs P s s.
Proof. exists []. split; [symmetry; apply app_nil_r | constructor]. Qed.

Lemma logs_same (P : TradeRecord -> Prop) (s s' : SymbolState) :
  trades s' = trades s -> logs P s s'.
Proof.
  intros E. exists []. split; [rewrite E; symmetry; apply app_nil_r|constructor].
Qed.

Lemma logs_trans (P : TradeRecord -> Prop) (s1 s2 s3 : SymbolState) :
  logs P s1 s2 -> logs P s2 s3 -> logs P s1 s3.
Proof.
  intros (n1 & E1 & F1) (n2 & E2 & F2). exists (n1 ++ n2)%list. split.
  - rewrite E2, E1, app_assoc. reflexivity.
  - apply Forall_app. split; assumption.
Qed.

Lemma logs_weaken (P P' : TradeRecord -> Prop) (s s' : SymbolState) :
  (forall r, P r -> P' r) -> logs P s s' -> logs P' s s'.
Proof.
  intros H (new & E & F). exists new. split; [exact E|].
  eapply List.Forall_impl; [|exact F]. exact H.
Qed.

Lemma sameGrid_refl (s : SymbolState) : sameGrid s s.
Proof. repeat split. Qed.

Lemma sameGrid_trans (s1 s2 s3 : SymbolState) :
  sameGrid s1 s2 -> sameGrid s2 s3 -> sameGrid s1 s3.
Proof.
  intros (A1 & A2 & A3) (B1 & B2 & B3). repeat split; congruence.
Qed.

(** The record of a closed position. *)
Lemma recordOf_closedAt (t : Trade) (type reason : string) (px : Q) (now : Z) :
  (type = "main" /\ (reason = "MAIN_TP_50%" \/ reason = "MAIN_SL_HIT"))
  \/ (type = "hedge" /\ (reason = "HEDGE_SL_HIT" \/ reason = "MAIN_CLOSED")) ->
  closedAt px now (recordOf t type reason px now).
Proof. intros H. unfold closedAt, recordOf. cbn. repeat split. exact H. Qed.

Lemma closing_refl (P : TradeRecord -> Prop) (s : SymbolState) : closing P s s.
Proof.
  split; [apply logs_refl|]. split; [apply sameGrid_refl|].
  split; left; reflexivity.
Qed.

Lemma closeTrade_hedge_closing (P : TradeRecord -> Prop) (now : Z)
    (reason : string) (px : Q) (sw : Sys) :
  (forall h, hedgeTrade (fst sw) = Some h ->
             P (recordOf h "hedge" reason px now)) ->
  let sw' := snd (closeTrade config exchange now sym reason px "hedge" sw) in
  closing P (fst sw) (fst sw') /\ openTrade (fst sw') = openTrade (fst sw).
Proof.
  intros HP. destruct sw as [state w]. cbv zeta. cbn [fst] in *.
  destruct (closeTrade_hedge_outcome config exchange now sym reason px state w)
    as [[_ ->] | (h & Hh & _ & ->)].
  - split; [apply closing_refl | reflexivity].
  - split; [|reflexivity]. split.
    { exists [recordOf h "hedge" reason px now]. split; [reflexivity|].
      constructor; [apply HP, Hh | constructor]. }
    split; [repeat split|]. split; [left; reflexivity | right; reflexivity].
Qed.

Lemma closeTrade_main_closing (P : TradeRecord -> Prop) (now : Z)
    (reason : string) (px : Q) (sw : Sys) :
  (forall t, openTrade (fst sw) = Some t ->
             P (recordOf t "main" reason px now)) ->
  (forall h, hedgeTrade (fst sw) = Some h ->
             P (recordOf h "hedge" "MAIN_CLOSED" px now)) ->
  let sw' := snd (closeTrade config exchange now sym reason px "main" sw) in
  closing P (fst sw) (fst sw').
Proof.
  intros HPm HPh. destruct sw as [state w]. cbv zeta. cbn [fst] in *.
  destruct (closeTrade_main_outcome config exchange now sym reason px state w)
    as [-> | (t & Ht & [-> | (h & Hh & ->)])].
  - apply closing_refl.
  - split.
    { exists [recordOf t "main" reason px now]. split; [reflexivity|].
      constructor; [apply HPm, Ht | constructor]. }
    split; [repeat split|]. split; [right; reflexivity | left; reflexivity].
  - split.
    { exists [recordOf t "main" reason px now;
              recordOf h "hedge" "MAIN_CLOSED" px now].
      split; [cbn; rewrite <- app_assoc; reflexivity|].
      constructor; [apply HPm, Ht|].
      constructor; [apply HPh, Hh | constructor]. }
    split; [repeat split|]. split; right; reflexivity.
Qed.

Lemma closing_trans (P : TradeRecord -> Prop) (s1 s2 s3 : SymbolState) :
  closing P s1 s2 -> closing P s2 s3 -> closing P s1 s3.
Proof.
  intros (L1 & G1 & O1 & H1) (L2 & G2 & O2 & H2).
  split; [eapply logs_trans; eassumption|].
  split; [eapply sameGrid_trans; eassumption|].
  split.
  - destruct O2 as [O2 | O2]; [|right; exact O2].
    destruct O1 as [O1 | O1]; [left | right]; congruence.
  - destruct H2 as [H2 | H2]; [|right; exact H2].
    destruct H1 as [H1 | H1]; [left | right]; congruence.
Qed.

Lemma hedgingLogic_audit (lastPx : Q) (now : Z) (t : Trade) (p : Q) (sw : Sys) :
  let sw' := hedgingLogic config exchange sym symbolConfig lastPx now t p sw in
  trades (fst sw') = trades (fst sw)
  /\ sameGrid (fst sw) (fst sw')
  /\ openTrade (fst sw') = openTrade (fst sw)
  /\ (hedgeTrade (fst sw') = hedgeTrade (fst sw)
      \/ (hedgeTrade (fst sw) = None
          /\ p <= - HEDGE_LOSS_PERCENT symbolConfig
          /\ exists h, hedgeTrade (fst sw') = Some h
               /\ side h = (if String.eqb (side t) "long" then "sell" else "buy")
               /\ entryPx h = lastPx /\ size h = size t /\ openTime h = now
               /\ orderId h = None /\ isHedge h = true)).
Proof.
  destruct sw as [state w]. unfold hedgingLogic. cbv zeta.
  destruct (hedgeTrade state) as [h|] eqn:Hh.
  { cbn [fst]. repeat split. left. reflexivity. }
  destruct (leb p (- HEDGE_LOSS_PERCENT symbolConfig)) eqn:El.
  2:{ cbn [fst]. repeat split. left. reflexivity. }
  apply leb_true in El.
  destruct (if isRealTrade config then _ else _) as [[id | msg] w1];
    cbn [fst].
  - repeat split. right. split; [exact Hh|]. split; [exact El|].
    eexists. split; [reflexivity|]. cbn.
    destruct (String.eqb (side t) "long"); repeat split.
  - repeat split. left. reflexivity.
Qed.

Lemma stopCrossed_orderSided (h : Trade) (lastPx stop : Q) :
  orderSided h -> stopCrossed h lastPx stop = false.
Proof. intros [E | E]; unfold stopCrossed; rewrite E; reflexivity. Qed.

Lemma hedgeManagement_audit (lastPx : Q) (now : Z) (sw : Sys) :
  let sw' := hedgeManagement config exchange sym symbolConfig lastPx now sw in
  logs (closedAt lastPx now) (fst sw) (fst sw')
  /\ sameGrid (fst sw) (fst sw')
  /\ openTrade (fst sw') = openTrade (fst sw)
  /\ keeps (hedgeTrade (fst sw)) (hedgeTrade (fst sw'))
  /\ (hedgeIsOrderSided (fst sw) -> trades (fst sw') = trades (fst sw)).
Proof.
  destruct sw as [state w]. unfold hedgeManagement. cbv zeta.
  destruct (hedgeTrade state) as [h|] eqn:Hh.
  2:{ cbn [fst]. rewrite Hh.
      repeat split; [apply logs_refl | left; reflexivity]. }
  assert (Hstep : forall h1 w1,
            samePosition h h1 ->
            let sw' :=
              match stopLossPrice h1 with
              | Some stop =>
                  if truthy stop && stopCrossed h1 lastPx stop
                  then snd (closeTrade config exchange now sym "HEDGE_SL_HIT"
                              lastPx "hedge" (set_hedgeTrade (Some h1) state, w1))
                  else (set_hedgeTrade (Some h1) state, w1)
              | None => (set_hedgeTrade (Some h1) state, w1)
              end in
            logs (closedAt lastPx now) state (fst sw')
            /\ sameGrid state (fst sw')
            /\ openTrade (fst sw') = openTrade state
            /\ keeps (Some h) (hedgeTrade (fst sw'))
            /\ (hedgeIsOrderSided state -> trades (fst sw') = trades state)).
  { intros h1 w1 Hsame. cbv zeta.
    assert (Hidle : let sw' := (set_hedgeTrade (Some h1) state, w1) in
              logs (closedAt lastPx now) state (fst sw')
              /\ sameGrid state (fst sw')
              /\ openTrade (fst sw') = openTrade state
              /\ keeps (Some h) (hedgeTrade (fst sw'))
              /\ (hedgeIsOrderSided state -> trades (fst sw') = trades state)).
    { cbn. repeat split; [apply logs_same; reflexivity|].
      right. exists h, h1. repeat split; apply Hsame. }
    destruct (stopLossPrice h1) as [stop|]; [|exact Hidle].
    destruct (truthy stop && stopCrossed h1 lastPx stop) eqn:Ecross;
      [|exact Hidle].
    destruct (closeTrade_hedge_closing (closedAt lastPx now) now "HEDGE_SL_HIT"
                lastPx (set_hedgeTrade (Some h1) state, w1))
      as ((Hl & Hg & _ & Hhedge) & Ho).
    { intros h' _. apply recordOf_closedAt. right. auto. }
    cbn [fst snd] in *. split; [|split; [|split; [|split]]].
    - eapply logs_trans; [|exact Hl]. apply logs_same. reflexivity.
    - eapply sameGrid_trans; [|exact Hg]. repeat split.
    - exact Ho.
    - destruct Hhedge as [E | E]; rewrite E; [|left; reflexivity].
      right. exists h, h1. repeat split; apply Hsame.
    - intros Hbot. exfalso.
      assert (Hs : orderSided h1).
      { destruct Hsame as (Hside & _). unfold orderSided. rewrite Hside.
        apply (Hbot h Hh). }
      rewrite (stopCrossed_orderSided h1 lastPx stop Hs), andb_false_r in Ecross.
      discriminate. }
  cbv zeta in Hstep.
  destruct (geb (profitPercent h lastPx) (HEDGE_TP_PERCENT symbolConfig)
            && negb (truthy_opt (stopLossPrice h)));
    cbv beta iota zeta; cbn [fst snd]; rewrite Hh; apply Hstep; repeat split.
Qed.

Lemma mainProtection_audit (p : Q) (t : Trade) (sw : Sys) :
  let r := mainProtection sym symbolConfig p t sw in
  trades (fst (snd r)) = trades (fst sw)
  /\ sameGrid (fst sw) (fst (snd r))
  /\ hedgeTrade (fst (snd r)) = hedgeTrade (fst sw)
  /\ samePosition t (fst r)
  /\ (openTrade (fst sw) = Some t -> openTrade (fst (snd r)) = Some (fst r)).
Proof.
  destruct sw as [state w]. unfold mainProtection. cbv zeta.
  destruct (gtb p (MAIN_PROTECTION_START symbolConfig)
            && negb (truthy_opt (stopLossPrice t))); cbn; repeat split; auto.
Qed.

Lemma mainTakeProfitStopLoss_audit (lastPx : Q) (now : Z) (p : Q) (t : Trade)
    (sw : Sys) :
  let sw' := mainTakeProfitStopLoss config exchange sym symbolConfig
               lastPx now p t sw in
  closing (fun r => closedAt lastPx now r /\ closeReason r <> "HEDGE_SL_HIT")
          (fst sw) (fst sw').
Proof.
  unfold mainTakeProfitStopLoss. cbv zeta.
  assert (Hh : forall h, hedgeTrade (fst sw) = Some h ->
            closedAt lastPx now (recordOf h "hedge" "MAIN_CLOSED" lastPx now)
            /\ closeReason (recordOf h "hedge" "MAIN_CLOSED" lastPx now)
               <> "HEDGE_SL_HIT").
  { intros h _. split; [apply recordOf_closedAt; right; auto | discriminate]. }
  destruct (geb p (MAIN_TP_PERCENT symbolConfig)).
  - apply closeTrade_main_closing; [|exact Hh].
    intros t0 _. split; [apply recordOf_closedAt; left; auto | discriminate].
  - destruct (stopLossPrice t) as [stop|]; [|apply closing_refl].
    destruct (truthy stop && stopCrossed t lastPx stop); [|apply closing_refl].
    apply closeTrade_main_closing; [|exact Hh].
    intros t0 _. split; [apply recordOf_closedAt; left; auto | discriminate].
Qed.

Lemma trackPrice_samePosition (lastPx : Q) (t : Trade) :
  samePosition t (trackPrice lastPx t).
Proof.
  unfold trackPrice.
  destruct (truthy_opt (maxPrice t)), (truthy_opt (minPrice t)); cbn;
    repeat match goal with
           | |- context [if ?c then _ else _] => destruct c
           end; repeat split; reflexivity.
Qed.

Lemma openedHedge_samePosition (main : Trade) (px : Q) (now : Z) (h h' : Trade) :
  openedHedge symbolConfig main px now h -> samePosition h h' ->
  openedHedge symbolConfig main px now h'.
Proof.
  intros (A0 & A1 & A2 & A3 & A4 & A5 & A6) (B1 & B2 & B3 & B4 & B5 & B6).
  repeat split; congruence.
Qed.

(** The management of an open main position. *)
Lemma tradeManagement_audit (lastPx : Q) (now : Z) (t : Trade) (sw : Sys) :
  openTrade (fst sw) = Some t ->
  let sw' := tradeManagement config exchange sym symbolConfig lastPx now t sw in
  logs (closedAt lastPx now) (fst sw) (fst sw')
  /\ sameGrid (fst sw) (fst sw')
  /\ keeps (Some t) (openTrade (fst sw'))
  /\ hedgeStep symbolConfig t lastPx now
       (hedgeTrade (fst sw)) (hedgeTrade (fst sw'))
  /\ (hedgeIsOrderSided (fst sw) ->
      logs (fun r => closeReason r <> "HEDGE_SL_HIT") (fst sw) (fst sw')).
Proof.
  intros Ht. cbv zeta. rewrite tradeManagement_split.
  destruct sw as [state w]. unfold beforeTakeProfit. cbv zeta.
  cbn [fst snd] in *.
  rewrite (profitPercent_trackPrice lastPx lastPx t).
  set (t1 := trackPrice lastPx t).
  pose proof (trackPrice_samePosition lastPx t) as Htrack. fold t1 in Htrack.
  set (p := profitPercent t lastPx).
  set (sw0 := (set_openTrade (Some t1) state, w)).
  destruct (hedgingLogic_audit lastPx now t1 p sw0) as (Ltr & Lg & Lo & Lh).
  set (sw1 := hedgingLogic config exchange sym symbolConfig lastPx now t1 p sw0)
    in *.
  destruct (hedgeManagement_audit lastPx now sw1) as (Ml & Mg & Mo & Mh & Mb).
  set (sw2 := hedgeManagement config exchange sym symbolConfig lastPx now sw1)
    in *.
  destruct (mainProtection_audit p t1 sw2) as (Ptr & Pg & Ph & Pt & Po).
  set (r := mainProtection sym symbolConfig p t1 sw2) in *.
  destruct (mainTakeProfitStopLoss_audit lastPx now p (fst r) (snd r))
    as (Tl & Tg & To & Th).
  set (sw3 := mainTakeProfitStopLoss config exchange sym symbolConfig lastPx now
                p (fst r) (snd r)) in *.
  cbv zeta in *.
  assert (E0 : trades (fst sw0) = trades state
               /\ sameGrid state (fst sw0)
               /\ hedgeTrade (fst sw0) = hedgeTrade state
               /\ openTrade (fst sw0) = Some t1) by (repeat split).
  destruct E0 as (E0t & E0g & E0h & E0o).
  assert (Hopen2 : openTrade (fst sw2) = Some t1) by congruence.
  pose proof (Po Hopen2) as Hopen3.
  assert (Hlog2 : logs (closedAt lastPx now) state (fst (snd r))).
  { eapply logs_trans; [|apply logs_same; exact Ptr].
    eapply logs_trans; [|exact Ml]. apply logs_same. congruence. }
  split.
  { eapply logs_trans; [exact Hlog2|].
    eapply logs_weaken; [|exact Tl]. intros r0 [H _]. exact H. }
  split.
  { eapply sameGrid_trans; [exact E0g|].
    eapply sameGrid_trans; [exact Lg|].
    eapply sameGrid_trans; [exact Mg|].
    eapply sameGrid_trans; [exact Pg | exact Tg]. }
  split.
  { destruct To as [To | To]; rewrite To; [|left; reflexivity].
    rewrite Hopen3. right. exists t, (fst r). repeat split;
      apply (samePosition_trans _ _ _ Htrack Pt). }
  assert (Hh2 : hedgeStep symbolConfig t lastPx now
                  (hedgeTrade state) (hedgeTrade (fst sw2))).
  { destruct Lh as [Lh | (Hnone & Hp & h & Hh & Hs & He & Hz & Hot & Hid & Hih)].
    - left. rewrite <- E0h, <- Lh. exact Mh.
    - rewrite E0h in Hnone.
      destruct Mh as [Mh | (h1 & h2 & E1 & E2 & Hs12)]; [left; left; exact Mh|].
      right. split; [exact Hnone|]. exists h2. split; [exact E2|].
      rewrite Hh in E1. injection E1 as <-.
      apply (openedHedge_samePosition t lastPx now h h2); [|exact Hs12].
      destruct Htrack as (Hside & _ & Hsize & _).
      unfold openedHedge. rewrite <- Hside, <- Hsize.
      repeat split; assumption. }
  split.
  { destruct Th as [Th | Th]; rewrite Th; [|left; left; reflexivity].
    rewrite Ph. exact Hh2. }
  intros Hbot.
  assert (Hbot1 : hedgeIsOrderSided (fst sw1)).
  { intros h Hh.
    destruct Lh as [Lh | (_ & _ & h0 & Hh0 & Hs & _)].
    - apply Hbot. congruence.
    - rewrite Hh0 in Hh. injection Hh as <-. unfold orderSided. rewrite Hs.
      destruct (String.eqb (side t1) "long"); auto. }
  eapply logs_trans.
  - apply logs_same. rewrite Ptr, (Mb Hbot1). congruence.
  - eapply logs_weaken; [|exact Tl]. intros r0 [_ H]. exact H.
Qed.

Lemma gridManagement_audit (lastPx : Q) (sw : Sys) :
  let sw' := gridManagement sym symbolConfig lastPx sw in
  trades (fst sw') = trades (fst sw)
  /\ openTrade (fst sw') = openTrade (fst sw)
  /\ hedgeTrade (fst sw') = hedgeTrade (fst sw)
  /\ anchorNear symbolConfig lastPx (fst sw')
  /\ (gridFollows symbolConfig (fst sw) -> gridFollows symbolConfig (fst sw')).
Proof.
  destruct sw as [state w]. unfold gridManagement. cbv zeta.
  destruct (gridAnchor state) as [anchor|] eqn:Ha.
  - destruct (negb (truthy anchor)
              || gtb (Math_abs (lastPx / anchor - 1))
                     (or_default (GRID_TRAIL_THRESHOLD symbolConfig) 0.01))
      eqn:Emoved; cbn [fst].
    + split; [reflexivity|]. split; [reflexivity|]. split; [reflexivity|].
      split.
      * exists lastPx. split; [reflexivity | left; reflexivity].
      * intros _. unfold gridFollows. cbn. split; reflexivity.
    + apply orb_false_iff in Emoved. destruct Emoved as [E1 E2].
      apply negb_false_iff, truthy_true in E1.
      apply ltb_false in E2.
      split; [reflexivity|]. split; [reflexivity|]. split; [reflexivity|].
      split; [|intros H; exact H].
      exists anchor. split; [exact Ha|]. right. split; assumption.
  - cbn [fst]. split; [reflexivity|]. split; [reflexivity|].
    split; [reflexivity|]. split.
    + exists lastPx. split; [reflexivity | left; reflexivity].
    + intros _. unfold gridFollows. cbn. split; reflexivity.
Qed.

Lemma multiFactorEntry_signal (candles : list Candle) (signal : string) :
  fst (multiFactorEntry EMA RSI MACD_histogram SMA candles) = Some signal ->
  signal = "long" \/ signal = "short".
Proof.
  unfold multiFactorEntry. cbv zeta.
  destruct (length (map close candles) <? 55)%nat; [discriminate|].
  repeat match goal with
         | |- context [if ?c then _ else _] => destruct c
         end; cbn [fst]; intros H; try discriminate;
    injection H as <-; auto.
Qed.

Lemma tradeEntry_audit (candles : list Candle) (lastPx : Q) (now : Z) (sw : Sys) :
  let sw' := tradeEntry config exchange EMA RSI MACD_histogram SMA
               sym symbolConfig candles lastPx now sw in
  trades (fst sw') = trades (fst sw)
  /\ hedgeTrade (fst sw') = hedgeTrade (fst sw)
  /\ sameGrid (fst sw) (fst sw')
  /\ (fst sw' = fst sw
      \/ exists signal t,
           fst (multiFactorEntry EMA RSI MACD_histogram SMA candles) = Some signal
           /\ openTrade (fst sw') = Some t
           /\ entered sym symbolConfig signal lastPx now t).
Proof.
  destruct sw as [state w]. unfold tradeEntry. cbv zeta.
  destruct (fst (multiFactorEntry EMA RSI MACD_histogram SMA candles))
    as [signal|] eqn:Esig.
  2:{ cbn [fst]. repeat split. left. reflexivity. }
  destruct (ltb (entrySize symbolConfig lastPx) (minLotOf sym)) eqn:Elot.
  - destruct (if isRealTrade config then _ else _) as [[result | msg] w2];
      cbn [fst].
    + repeat split. right. exists signal. eexists.
      split; [reflexivity|]. split; [reflexivity|].
      unfold entered. cbn. rewrite Elot. repeat split.
    + repeat split. left. reflexivity.
  - destruct (if isRealTrade config then _ else _) as [[result | msg] w2];
      cbn [fst].
    + repeat split. right. exists signal. eexists.
      split; [reflexivity|]. split; [reflexivity|].
      unfold entered. cbn. rewrite Elot. repeat split.
    + repeat split. left. reflexivity.
Qed.

(** One tick on candles whose last one is [c]. *)
Lemma tickSymbol_audit (candles : list Candle) (c : Candle) (now : Z) (sw : Sys) :
  last candles = Some c ->
  let sw' := tickSymbol config exchange EMA RSI MACD_histogram SMA
               sym symbolConfig candles now sw in
  logs (closedAt (close c) now) (fst sw) (fst sw')
  /\ anchorNear symbolConfig (close c) (fst sw')
  /\ (gridFollows symbolConfig (fst sw) -> gridFollows symbolConfig (fst sw'))
  /\ match openTrade (fst sw) with
     | Some t =>
         keeps (Some t) (openTrade (fst sw'))
         /\ hedgeStep symbolConfig t (close c) now
              (hedgeTrade (fst sw)) (hedgeTrade (fst sw'))
     | None =>
         hedgeTrade (fst sw') = hedgeTrade (fst sw)
         /\ trades (fst sw') = trades (fst sw)
         /\ (openTrade (fst sw') = None
             \/ exists signal t,
                  fst (multiFactorEntry EMA RSI MACD_histogram SMA candles)
                  = Some signal
                  /\ openTrade (fst sw') = Some t
                  /\ entered sym symbolConfig signal (close c) now t)
     end
  /\ (hedgeIsOrderSided (fst sw) ->
      logs (fun r => closeReason r <> "HEDGE_SL_HIT") (fst sw) (fst sw')).
Proof.
  intros Hc. cbv zeta.
  destruct (gridManagement_audit (close c) sw) as (Gt & Go & Gh & Gn & Gf).
  set (sw0 := gridManagement sym symbolConfig (close c) sw) in *.
  assert (Hnear : forall s', sameGrid (fst sw0) s' ->
            anchorNear symbolConfig (close c) s'
            /\ (gridFollows symbolConfig (fst sw) -> gridFollows symbolConfig s')).
  { intros s' (A1 & A2 & A3). split.
    - destruct Gn as (anchor & Ea & Hn). exists anchor.
      split; [congruence | exact Hn].
    - intros Hf. specialize (Gf Hf). unfold gridFollows in *.
      rewrite A1, A2, A3. exact Gf. }
  destruct (openTrade (fst sw)) as [t|] eqn:Ho.
  - rewrite (tickSymbol_manage config exchange EMA RSI MACD_histogram SMA
               sym symbolConfig candles c now t sw Hc Ho). fold sw0.
    assert (Ho0 : openTrade (fst sw0) = Some t) by congruence.
    destruct (tradeManagement_audit (close c) now t sw0 Ho0)
      as (Ml & Mg & Mo & Mh & Mb).
    cbv zeta in *.
    split; [eapply logs_trans; [apply logs_same; exact Gt | exact Ml]|].
    split; [apply Hnear, Mg|]. split; [apply Hnear, Mg|].
    split; [split; [exact Mo | rewrite <- Gh; exact Mh]|].
    intros Hbot. eapply logs_trans; [apply logs_same; exact Gt|].
    apply Mb. intros h Hh. apply Hbot. congruence.
  - rewrite (tickSymbol_entry config exchange EMA RSI MACD_histogram SMA
               sym symbolConfig candles c now sw Hc Ho). fold sw0.
    destruct (tradeEntry_audit candles (close c) now sw0) as (Et & Eh & Eg & Eo).
    cbv zeta in *.
    split; [apply logs_same; congruence|].
    split; [apply Hnear, Eg|]. split; [apply Hnear, Eg|].
    split.
    { split; [congruence|]. split; [congruence|].
      destruct Eo as [Eo | Eo]; [left; rewrite Eo; congruence | right; exact Eo]. }
    intros _. apply logs_same. congruence.
Qed.

Lemma tickSymbol_no_candle (candles : list Candle) (now : Z) (sw : Sys) :
  last candles = None ->
  tickSymbol config exchange EMA RSI MACD_histogram SMA
             sym symbolConfig candles now sw = sw.
Proof. intros H. unfold tickSymbol. rewrite H. reflexivity. Qed.

End TickAudit.

(** ** The grid of the hedge bot *)

Section HedgeGrid.
Import JS HedgeBot HedgeRun HedgeAudit.
Local Open Scope Q_scope.

Lemma map_seq_sorted (f : nat -> Q) (start len : nat) :
  (forall i j, (i <= j)%nat -> f i <= f j) ->
  StronglySorted Qle (map f (seq start len)).
Proof.
  intros Hf. revert start. induction len as [|len IH]; intros start; simpl.
  - constructor.
  - constructor; [apply IH|].
    apply List.Forall_forall. intros x Hx. apply in_map_iff in Hx.
    destruct Hx as (j & <- & Hj). apply in_seq in Hj. apply Hf. lia.
Qed.

Lemma recalcGrid_length (anchorPx : Q) (symbolConfig : SymbolConfig) :
  length (recalcGrid anchorPx symbolConfig) = gridSteps symbolConfig.
Proof.
  unfold recalcGrid. fold (gridSteps symbolConfig).
  rewrite length_map, length_seq. reflexivity.
Qed.

(** X14. The grid of an anchor has [GRID_STEPS] levels, 5 when the field
    is absent or zero; the level at the middle index is the anchor rounded
    to two decimals; and for an anchor and a spacing that are not negative
    the levels ascend. *)
Theorem recalcGrid_shape :
  forall (anchorPx : Q) (symbolConfig : SymbolConfig),
    let steps := gridSteps symbolConfig in
    length (recalcGrid anchorPx symbolConfig) = steps
    /\ nth_error (recalcGrid anchorPx symbolConfig) (steps / 2)
       = Some (toFixed 2 anchorPx)
    /\ (0 <= anchorPx -> 0 <= or_default (GRID_SPACING symbolConfig) 0.003 ->
        StronglySorted Qle (recalcGrid anchorPx symbolConfig)).
Proof.
  intros anchorPx symbolConfig steps.
  assert (Hsteps : (0 < steps)%nat).
  { subst steps. unfold gridSteps.
    destruct (GRID_STEPS symbolConfig) as [[|n]|]; lia. }
  assert (Hfloor : Math_floor (inject_Z (Z.of_nat steps) / 2)
                   = Z.of_nat (steps / 2)).
  { unfold Math_floor.
    change 2 with (inject_Z 2). rewrite <- Zdiv_Qdiv.
    rewrite (Nat2Z.inj_div steps 2). reflexivity. }
  split; [apply recalcGrid_length|].
  unfold recalcGrid. fold (gridSteps symbolConfig). fold steps.
  rewrite Hfloor.
  split.
  { rewrite nth_error_map, nth_error_seq.
    assert (E : (steps / 2 <? steps)%nat = true).
    { apply Nat.ltb_lt. apply Nat.div_lt; lia. }
    rewrite E. cbn [option_map Nat.add]. f_equal.
    apply toFixed_compat. rewrite Z.sub_diag. ring. }
  intros Ha Hs. apply map_seq_sorted. intros i j Hij.
  apply toFixed_mono.
  assert (Hi : inject_Z (Z.of_nat i - Z.of_nat (steps / 2))
               <= inject_Z (Z.of_nat j - Z.of_nat (steps / 2))).
  { rewrite <- Zle_Qle. lia. }
  set (x := inject_Z (Z.of_nat i - Z.of_nat (steps / 2))) in *.
  set (y := inject_Z (Z.of_nat j - Z.of_nat (steps / 2))) in *.
  set (sp := or_default (GRID_SPACING symbolConfig) 0.003) in *.
  clearbody x y sp.
  assert (H1 : 0 <= (y - x) * sp) by nra.
  assert (H2 : 0 <= anchorPx * ((y - x) * sp)) by nra.
  nra.
Qed.

End HedgeGrid.

(** ** What the ticks do to the positions, the log and the grid *)

Section TickTheorems.
Import JS HedgeBot HedgeRun HedgeAudit.
Local Open Scope Q_scope.
Local Open Scope string_scope.

Variable config : Config.
Variable exchange : nat -> Outcome string.
Variable EMA : nat -> list Q -> list Q.
Variable RSI : nat -> list Q -> list Q.
Variable MACD_histogram : list Q -> list (option Q).
Variable SMA : nat -> list Q -> list Q.
Variable sym : string.
Variable symbolConfig : SymbolConfig.

(** X15. Through a tick an open position is closed or kept as it is:
    the main position held before the tick, and the hedge held before the
    tick, are after the tick either gone or the same position, with the
    side, entry price, size, opening time and order id they had.  The bot
    never adds to a position, resizes it or flips it. *)
Theorem positions_keep_their_entry :
  forall (candles : list Candle) (now : Z) (sw : Sys),
    let sw' := tickSymbol config exchange EMA RSI MACD_histogram SMA
                 sym symbolConfig candles now sw in
    (openTrade (fst sw) <> None ->
     keeps (openTrade (fst sw)) (openTrade (fst sw')))
    /\ (hedgeTrade (fst sw) <> None ->
        keeps (hedgeTrade (fst sw)) (hedgeTrade (fst sw'))).
Proof.
  intros candles now sw sw'. subst sw'.
  destruct (last candles) as [c|] eqn:Hc.
  2:{ rewrite (tickSymbol_no_candle config exchange EMA RSI MACD_histogram SMA
                 sym symbolConfig candles now sw Hc).
      split; intros _; apply keeps_refl. }
  destruct (tickSymbol_audit config exchange EMA RSI MACD_histogram SMA
              sym symbolConfig candles c now sw Hc) as (_ & _ & _ & H & _).
  cbv zeta in H.
  destruct (openTrade (fst sw)) as [t|] eqn:Ho.
  - destruct H as (Hm & Hh). split; [intros _; exact Hm|].
    intros Hne. destruct Hh as [Hh | (Hnone & _)]; [exact Hh | contradiction].
  - destruct H as (Hh & _). split; [intros H; contradiction|].
    intros _. rewrite Hh. apply keeps_refl.
Qed.

(** X16. A hedge appears in an empty hedge slot only beside the main
    position held before the tick (with a non-zero entry price), and only
    when the profit of that position at the last close is at or below
    minus [HEDGE_LOSS_PERCENT]; the hedge then carries the size of the
    main position, the last close as entry price, the time of the tick,
    and the lower-cased side of its order: ['sell'] against a long main
    position, ['buy'] against any other. *)
Theorem hedge_opens_at_the_loss_threshold :
  forall (candles : list Candle) (c : Candle) (now : Z) (sw : Sys) (h : Trade),
    last candles = Some c ->
    (forall t, openTrade (fst sw) = Some t -> ~ entryPx t == 0) ->
    hedgeTrade (fst sw) = None ->
    hedgeTrade (fst (tickSymbol config exchange EMA RSI MACD_histogram SMA
                       sym symbolConfig candles now sw)) = Some h ->
    exists t,
      openTrade (fst sw) = Some t
      /\ profitPercent t (close c) <= - HEDGE_LOSS_PERCENT symbolConfig
      /\ side h = (if String.eqb (side t) "long" then "sell" else "buy")
      /\ entryPx h = close c /\ size h = size t /\ openTime h = now
      /\ isHedge h = true.
Proof.
  intros candles c now sw h Hc _ Hnone Hh.
  destruct (tickSymbol_audit config exchange EMA RSI MACD_histogram SMA
              sym symbolConfig candles c now sw Hc) as (_ & _ & _ & H & _).
  cbv zeta in H.
  destruct (openTrade (fst sw)) as [t|] eqn:Ho.
  - destruct H as (_ & [Hk | (_ & h' & Hh' & Hopen)]).
    + destruct Hk as [Hk | (t0 & t1 & E & _)]; congruence.
    + rewrite Hh in Hh'. injection Hh' as <-. exists t.
      destruct Hopen as (A0 & A1 & A2 & A3 & A4 & A5 & A6).
      repeat split; assumption.
  - destruct H as (Hsame & _). congruence.
Qed.

(** X17. The trade log only grows, and every record a tick appends
    carries the last close as exit price, the time of the tick, the profit
    of the recorded position at that price, and a type with one of its two
    reasons: ['main'] with MAIN_TP_50% or MAIN_SL_HIT, ['hedge'] with
    HEDGE_SL_HIT or MAIN_CLOSED.  A tick without a candle changes
    nothing. *)
Theorem trade_log_records :
  forall (candles : list Candle) (now : Z) (sw : Sys),
    let sw' := tickSymbol config exchange EMA RSI MACD_histogram SMA
                 sym symbolConfig candles now sw in
    match last candles with
    | Some c =>
        exists new,
          trades (fst sw') = (trades (fst sw) ++ new)%list
          /\ Forall (closedAt (close c) now) new
    | None => sw' = sw
    end.
Proof.
  intros candles now sw sw'. subst sw'.
  destruct (last candles) as [c|] eqn:Hc.
  - apply (tickSymbol_audit config exchange EMA RSI MACD_histogram SMA
             sym symbolConfig candles c now sw Hc).
  - apply tickSymbol_no_candle, Hc.
Qed.

Lemma tickSymbol_orderSided (candles : list Candle) (now : Z) (sw : Sys) :
  hedgeIsOrderSided (fst sw) ->
  hedgeIsOrderSided
    (fst (tickSymbol config exchange EMA RSI MACD_histogram SMA
            sym symbolConfig candles now sw))
  /\ logs (fun r => closeReason r <> "HEDGE_SL_HIT") (fst sw)
       (fst (tickSymbol config exchange EMA RSI MACD_histogram SMA
               sym symbolConfig candles now sw)).
Proof.
  intros Hbot.
  destruct (last candles) as [c|] eqn:Hc.
  2:{ rewrite (tickSymbol_no_candle config exchange EMA RSI MACD_histogram SMA
                 sym symbolConfig candles now sw Hc).
      split; [exact Hbot | apply logs_refl]. }
  destruct (tickSymbol_audit config exchange EMA RSI MACD_histogram SMA
              sym symbolConfig candles c now sw Hc) as (_ & _ & _ & H & Hl).
  cbv zeta in *. split; [|apply Hl, Hbot].
  intros h Hh.
  destruct (openTrade (fst sw)) as [t|] eqn:Ho.
  - destruct H as (_ & [Hk | (_ & h' & Hh' & Hopen)]).
    + destruct Hk as [Hk | (h0 & h1 & E0 & E1 & Hs)]; [congruence|].
      rewrite Hh in E1. injection E1 as <-.
      destruct Hs as (Hside & _). unfold orderSided. rewrite Hside.
      apply (Hbot h0 E0).
    + rewrite Hh in Hh'. injection Hh' as <-.
      destruct Hopen as (_ & Hside & _). unfold orderSided. rewrite Hside.
      destruct (String.eqb (side t) "long"); auto.
  - destruct H as (Hsame & _). apply Hbot. congruence.
Qed.

Lemma runTicks_orderSided (ticks : list (list Candle * Z)) (sw : Sys) :
  hedgeIsOrderSided (fst sw) ->
  hedgeIsOrderSided
    (fst (runTicks config exchange EMA RSI MACD_histogram SMA
            sym symbolConfig ticks sw))
  /\ logs (fun r => closeReason r <> "HEDGE_SL_HIT") (fst sw)
       (fst (runTicks config exchange EMA RSI MACD_histogram SMA
               sym symbolConfig ticks sw)).
Proof.
  unfold runTicks. revert sw.
  induction ticks as [|i ticks IH]; intros sw Hbot; cbn [fold_left].
  - split; [exact Hbot | apply logs_refl].
  - unfold tick at 2 4.
    destruct (tickSymbol_orderSided (fst i) (snd i) sw Hbot) as (Hb1 & Hl1).
    destruct (IH _ Hb1) as (Hb2 & Hl2).
    split; [exact Hb2|]. eapply logs_trans; [exact Hl1 | exact Hl2].
Qed.

(** X18. The hedges that the bot opens carry the side ['sell'] or
    ['buy'], while the stop of a hedge is tested against the sides
    ['long'] and ['short'], and its profit is computed by the short
    formula whatever its side.  From a state whose hedge slot is empty or
    holds such a hedge, through any run of ticks, the hedge slot is empty
    or holds such a hedge, and no record with the reason HEDGE_SL_HIT is
    ever appended to the trade log: the stop of a hedge may be attached,
    but it never closes the hedge. *)
Theorem order_sided_hedge_is_never_stopped :
  forall (ticks : list (list Candle * Z)) (sw : Sys),
    hedgeIsOrderSided (fst sw) ->
    let sw' := runTicks config exchange EMA RSI MACD_histogram SMA
                 sym symbolConfig ticks sw in
    hedgeIsOrderSided (fst sw')
    /\ (exists new,
          trades (fst sw') = (trades (fst sw) ++ new)%list
          /\ Forall (fun r => closeReason r <> "HEDGE_SL_HIT") new)
    /\ (forall h lastPx stop,
          hedgeTrade (fst sw') = Some h ->
          stopCrossed h lastPx stop = false
          /\ profitPercent h lastPx = (entryPx h - lastPx) / entryPx h * 100).
Proof.
  intros ticks sw Hbot sw'. subst sw'.
  destruct (runTicks_orderSided ticks sw Hbot) as (Hb & Hl).
  split; [exact Hb|]. split; [exact Hl|].
  intros h lastPx stop Hh. pose proof (Hb h Hh) as Hs.
  split; [apply stopCrossed_orderSided, Hs|].
  unfold profitPercent. destruct Hs as [-> | ->]; reflexivity.
Qed.

(** X19. After a tick on candles the grid anchor is the last close
    itself or lies within the trail threshold of it (0.01 when the field
    is absent or zero); and if the stored grid was the grid of the stored
    anchor before the tick, it is so after the tick, with [GRID_STEPS]
    levels. *)
Theorem grid_trails_the_price :
  forall (candles : list Candle) (c : Candle) (now : Z) (sw : Sys),
    last candles = Some c ->
    let sw' := tickSymbol config exchange EMA RSI MACD_histogram SMA
                 sym symbolConfig candles now sw in
    (exists anchor,
       gridAnchor (fst sw') = Some anchor
       /\ (anchor = close c
           \/ (~ anchor == 0
               /\ Qabs (close c / anchor - 1)
                  <= or_default (GRID_TRAIL_THRESHOLD symbolConfig) 0.01)))
    /\ (gridFollows symbolConfig (fst sw) ->
        gridFollows symbolConfig (fst sw')
        /\ length (activeGrid (fst sw')) = gridSteps symbolConfig).
Proof.
  intros candles c now sw Hc sw'. subst sw'.
  destruct (tickSymbol_audit config exchange EMA RSI MACD_histogram SMA
              sym symbolConfig candles c now sw Hc) as (_ & Hn & Hf & _).
  cbv zeta in *. split; [exact Hn|].
  intros H. specialize (Hf H). split; [exact Hf|].
  destruct Hn as (anchor & Ea & _). unfold gridFollows in Hf.
  rewrite Ea in Hf. destruct Hf as (-> & _).
  apply recalcGrid_length.
Qed.

End TickTheorems.

(** ** Entries, refused closes and the demo mode of the hedge bot *)

Section EntriesAndCloses.
Import JS HedgeBot HedgeRun HedgeAudit.
Local Open Scope Q_scope.
Local Open Scope string_scope.

Variable config : Config.
Variable exchange : nat -> Outcome string.
Variable EMA : nat -> list Q -> list Q.
Variable RSI : nat -> list Q -> list Q.
Variable MACD_histogram : list Q -> list (option Q).
Variable SMA : nat -> list Q -> list Q.

Lemma minLotOf_floor (sym : string) : DEFAULT_MIN_LOT <= minLotOf sym.
Proof.
  unfold minLotOf, MIN_LOT_SIZES. rewrite !lookup_insert, lookup_empty.
  repeat case_decide; vm_compute; discriminate.
Qed.

Lemma minLotOf_unlisted (sym : string) :
  MIN_LOT_SIZES !! sym = None -> minLotOf sym = DEFAULT_MIN_LOT.
Proof. intros H. unfold minLotOf. rewrite H. reflexivity. Qed.

(** X20. A main position appears in an empty slot only on a signal of
    the entry rule, which is ['long'] or ['short'], and it is entered at
    the last close (not zero) and the time of the tick, without a stop,
    with the larger of the computed size and the minimum lot of the
    symbol; the minimum lot of a symbol that the table does not list is
    0.001, and no symbol has a smaller one, so that no position is opened
    below a size of 0.001.  The entry leaves the hedge slot and the trade
    log as they were. *)
Theorem entry_at_least_the_minimum_lot :
  forall (sym : string) (symbolConfig : SymbolConfig) (candles : list Candle)
         (c : Candle) (now : Z) (sw : Sys) (t : Trade),
    last candles = Some c ->
    ~ close c == 0 ->
    openTrade (fst sw) = None ->
    let sw' := tickSymbol config exchange EMA RSI MACD_histogram SMA
                 sym symbolConfig candles now sw in
    openTrade (fst sw') = Some t ->
    fst (multiFactorEntry EMA RSI MACD_histogram SMA candles) = Some (side t)
    /\ (side t = "long" \/ side t = "short")
    /\ entryPx t = close c /\ openTime t = now
    /\ stopLossPrice t = None
    /\ (size t = entrySize symbolConfig (close c) \/ size t = minLotOf sym)
    /\ entrySize symbolConfig (close c) <= size t
    /\ minLotOf sym <= size t
    /\ 0.001 <= minLotOf sym
    /\ (MIN_LOT_SIZES !! sym = None -> minLotOf sym = 0.001)
    /\ hedgeTrade (fst sw') = hedgeTrade (fst sw)
    /\ trades (fst sw') = trades (fst sw).
Proof.
  intros sym symbolConfig candles c now sw t Hc _ Ho sw' Ht. subst sw'.
  destruct (tickSymbol_audit config exchange EMA RSI MACD_histogram SMA
              sym symbolConfig candles c now sw Hc) as (_ & _ & _ & H & _).
  cbv zeta in H. rewrite Ho in H. destruct H as (Hh & Htr & Hopen).
  destruct Hopen as [Hnone | (signal & t' & Hsig & Ht' & Hent)]; [congruence|].
  rewrite Ht in Ht'. injection Ht' as <-.
  destruct Hent as (Hside & Hpx & Htime & Hsize & _ & Hstop & _).
  subst signal.
  split; [exact Hsig|].
  split; [apply (multiFactorEntry_signal EMA RSI MACD_histogram SMA candles), Hsig|].
  repeat (split; [assumption|]).
  rewrite Hsize.
  destruct (ltb (entrySize symbolConfig (close c)) (minLotOf sym)) eqn:E.
  - apply ltb_true in E.
    split; [right; reflexivity|]. split; [lra|]. split; [lra|].
    split; [apply (minLotOf_floor sym)|].
    split; [apply minLotOf_unlisted|]. split; assumption.
  - apply ltb_false in E.
    split; [left; reflexivity|]. split; [lra|]. split; [lra|].
    split; [apply (minLotOf_floor sym)|].
    split; [apply minLotOf_unlisted|]. split; assumption.
Qed.

End EntriesAndCloses.

(** ** Refused closes and the requests of the hedge bot *)

Section Requests.
Import JS HedgeBot HedgeRun HedgeAudit.
Local Open Scope Q_scope.
Local Open Scope string_scope.

Variable config : Config.
Variable exchange : nat -> Outcome string.
Variable EMA : nat -> list Q -> list Q.
Variable RSI : nat -> list Q -> list Q.
Variable MACD_histogram : list Q -> list (option Q).
Variable SMA : nat -> list Q -> list Q.

Lemma quiet_refl (w : World) : quiet w w.
Proof. split; reflexivity. Qed.

Lemma quiet_trans (w1 w2 w3 : World) : quiet w1 w2 -> quiet w2 w3 -> quiet w1 w3.
Proof. intros [A1 A2] [B1 B2]. split; congruence. Qed.

Lemma quiet_alert (type sym event : string) (w : World) :
  quiet w (sendTradeAlert type sym event w).
Proof.
  split; [reflexivity|]. unfold sendTradeAlert, emit, ordersOf. cbn [events].
  rewrite List.filter_app. cbn. apply app_nil_r.
Qed.

Lemma quiet_save (sym : string) (w : World) : quiet w (saveSymbolState sym w).
Proof.
  split; [reflexivity|]. unfold saveSymbolState, emit, ordersOf. cbn [events].
  rewrite List.filter_app. cbn. apply app_nil_r.
Qed.

Lemma quiet_save_alert (type sym event : string) (w : World) :
  quiet w (sendTradeAlert type sym event (saveSymbolState sym w)).
Proof. eapply quiet_trans; [apply quiet_save | apply quiet_alert]. Qed.

(** The answer of [closeTrade] when it closes nothing. *)
Lemma closeTrade_nothing (now : Z) (sym reason : string) (px : Q)
    (type : string) (sw : Sys) :
  (type <> "main" /\ type <> "hedge")
  \/ (type = "main" /\ openTrade (fst sw) = None)
  \/ (type = "hedge" /\ hedgeTrade (fst sw) = None) ->
  closeTrade config exchange now sym reason px type sw = (false, sw).
Proof.
  intros H. rewrite closeTrade_unfold. unfold closeTrade_body.
  destruct sw as [state w]. cbn [fst] in H.
  destruct H as [[H1 H2] | [[-> H] | [-> H]]].
  - apply String.eqb_neq in H1, H2. rewrite H1, H2. reflexivity.
  - cbn -[closeTrade]. rewrite H. reflexivity.
  - cbn -[closeTrade]. rewrite H. reflexivity.
Qed.

Lemma closeTrade_hedge_quiet (now : Z) (sym reason : string) (px : Q) (sw : Sys) :
  isRealTrade config = false ->
  quiet (snd sw)
        (snd (snd (closeTrade config exchange now sym reason px "hedge" sw))).
Proof.
  intros Hdemo. destruct sw as [state w].
  unfold closeTrade, closeTrade_body. cbn. rewrite Hdemo.
  destruct (hedgeTrade state); cbn; [apply quiet_save_alert | apply quiet_refl].
Qed.

Lemma closeTrade_main_quiet (now : Z) (sym reason : string) (px : Q) (sw : Sys) :
  isRealTrade config = false ->
  quiet (snd sw)
        (snd (snd (closeTrade config exchange now sym reason px "main" sw))).
Proof.
  intros Hdemo. destruct sw as [state w].
  rewrite closeTrade_unfold. unfold closeTrade_body. cbn -[closeTrade].
  rewrite Hdemo.
  destruct (openTrade state) as [t|]; [|apply quiet_refl].
  destruct (hedgeTrade state) as [h|].
  - pose proof (closeTrade_hedge_quiet now sym "MAIN_CLOSED" px
                  (set_openTrade None
                     (push_trade
                        {| trade := t; tradeType := "main"; closeReason := reason;
                           exitPrice := px; closeTime := now;
                           profitPct := profitPercent t px |} state), w) Hdemo)
      as Hn.
    destruct (closeTrade config exchange now sym "MAIN_CLOSED" px "hedge" _)
      as [ok [s2 w2]].
    cbn [fst snd] in *. eapply quiet_trans; [exact Hn | apply quiet_save_alert].
  - cbn [fst snd]. apply quiet_save_alert.
Qed.

Lemma closeTrade_writing_body_always (writes : World -> bool)
    (self self' : string -> string -> Q -> string -> Sys -> bool * Sys)
    (now : Z) (sym reason : string) (px : Q) (type : string) (sw : Sys) :
  (forall w0, writes w0 = true) ->
  (forall a b c d e, self a b c d e = self' a b c d e) ->
  closeTrade_writing_body config exchange writes self now sym reason px type sw
  = closeTrade_body config exchange self' now sym reason px type sw.
Proof.
  intros Hw Hself. destruct sw as [state w].
  unfold closeTrade_writing_body, closeTrade_body.
  destruct (if String.eqb type "main" then Some (openTrade state)
            else if String.eqb type "hedge" then Some (hedgeTrade state)
            else None) as [[t|]|]; try reflexivity.
  destruct (if isRealTrade config then _ else _) as [[id | msg] w1];
    [|reflexivity].
  rewrite Hself.
  destruct (if String.eqb type "main" then _ else _) as [state2 w2].
  rewrite Hw. reflexivity.
Qed.

(** A close of the hedge that answers false. *)
Lemma closeTrade_writing_hedge (writes : World -> bool) (now : Z)
    (sym reason : string) (px : Q) (state : SymbolState) (w : World) :
  let r := closeTrade_writing config exchange writes now sym reason px "hedge"
             (state, w) in
  match hedgeTrade state with
  | Some t =>
      (fst r = false /\ isRealTrade config = true
       /\ (exists msg, exchange (calls w) = Thrown msg)
       /\ fst (snd r) = state)
      \/ ((isRealTrade config = false \/ exists id, exchange (calls w) = Returned id)
          /\ fst (snd r) = hedgeClosed t reason px now state
          /\ exists w2, fst r = writes w2)
  | None => r = (false, (state, w))
  end.
Proof.
  cbv zeta. unfold closeTrade_writing, closeTrade_writing_body.
  cbn [String.eqb Ascii.eqb Bool.eqb].
  destruct (hedgeTrade state) as [t|]; [|reflexivity].
  unfold closeOrder, placeOrder.
  destruct (isRealTrade config) eqn:Ereal.
  - destruct (exchange (calls w)) as [id | msg] eqn:Eex.
    + right. split; [right; exists id; reflexivity|].
      destruct (writes _) eqn:Ew; cbn [fst snd];
        (split; [reflexivity|]); eexists; rewrite Ew; reflexivity.
    + left. cbn [fst snd]. split; [reflexivity|]. split; [reflexivity|].
      split; [exists msg; reflexivity | reflexivity].
  - right. split; [left; reflexivity|].
    destruct (writes w) eqn:Ew; cbn [fst snd];
      (split; [reflexivity|]); exists w; rewrite Ew; reflexivity.
Qed.

Lemma closeTrade_writing_unfold (writes : World -> bool) (now : Z)
    (sym reason : string) (px : Q) (type : string) (sw : Sys) :
  closeTrade_writing config exchange writes now sym reason px type sw
  = closeTrade_writing_body config exchange writes
      (closeTrade_writing config exchange writes now) now sym reason px type sw.
Proof.
  unfold closeTrade_writing at 1. unfold closeTrade_writing_body at 1 3.
  destruct sw as [state w].
  destruct (String.eqb type "main") eqn:Etype; [|reflexivity].
  destruct (openTrade state) as [t|]; [|reflexivity].
  destruct (if isRealTrade config then _ else _) as [[id | msg] w1];
    [|reflexivity].
  destruct (hedgeTrade (set_openTrade None _)); reflexivity.
Qed.

(** A close of the main position. *)
Lemma closeTrade_writing_main (writes : World -> bool) (now : Z)
    (sym reason : string) (px : Q) (state : SymbolState) (w : World) :
  let r := closeTrade_writing config exchange writes now sym reason px "main"
             (state, w) in
  match openTrade state with
  | Some t =>
      (fst r = false /\ isRealTrade config = true
       /\ (exists msg, exchange (calls w) = Thrown msg)
       /\ fst (snd r) = state)
      \/ ((isRealTrade config = false \/ exists id, exchange (calls w) = Returned id)
          /\ openTrade (fst (snd r)) = None
          /\ (exists rest,
                trades (fst (snd r))
                = (trades state ++ recordOf t "main" reason px now :: rest)%list)
          /\ exists w2, fst r = writes w2)
  | None => r = (false, (state, w))
  end.
Proof.
  cbv zeta. rewrite closeTrade_writing_unfold.
  unfold closeTrade_writing_body.
  cbn [String.eqb Ascii.eqb Bool.eqb].
  destruct (openTrade state) as [t|] eqn:Eo; [|reflexivity].
  set (state1 := set_openTrade None
                   (push_trade
                      {| trade := t; tradeType := "main";
                         closeReason := reason; exitPrice := px;
                         closeTime := now;
                         profitPct := profitPercent t px |} state)).
  assert (Hnested : forall w1,
             exists state2 w2,
               (match hedgeTrade state1 with
                | Some _ =>
                    snd (closeTrade_writing config exchange writes now sym
                           "MAIN_CLOSED" px "hedge" (state1, w1))
                | None => (state1, w1)
                end) = (state2, w2)
               /\ openTrade state2 = None
               /\ exists rest,
                    trades state2
                    = (trades state
                       ++ recordOf t "main" reason px now :: rest)%list).
  { intros w1.
    destruct (hedgeTrade state1) as [h|] eqn:Eh.
    - pose proof (closeTrade_writing_hedge writes now sym "MAIN_CLOSED" px
                    state1 w1) as Hh.
      cbv zeta in Hh. rewrite Eh in Hh.
      destruct (closeTrade_writing config exchange writes now sym "MAIN_CLOSED"
                  px "hedge" (state1, w1)) as [ok [state2 w2]].
      cbn [fst snd] in Hh. exists state2, w2.
      split; [reflexivity|].
      destruct Hh as [(_ & _ & _ & ->) | (_ & -> & _)].
      + split; [reflexivity|]. exists []. reflexivity.
      + split; [reflexivity|].
        exists [recordOf h "hedge" "MAIN_CLOSED" px now].
        unfold hedgeClosed, state1, recordOf.
        cbn [trades set_hedgeTrade set_openTrade push_trade].
        rewrite <- app_assoc. reflexivity.
    - exists state1, w1. split; [reflexivity|].
      split; [reflexivity|]. exists []. reflexivity. }
  destruct (isRealTrade config) eqn:Ereal.
  - unfold closeOrder, placeOrder.
    destruct (exchange (calls w)) as [id | msg] eqn:Eex.
    + match goal with
      | |- context [closeTrade_writing _ _ _ _ _ _ _ _ (state1, ?w1)] =>
          destruct (Hnested w1) as (state2 & w2 & E & Hopen & rest & Htr)
      end.
      fold state1. rewrite E. right.
      split; [right; exists id; reflexivity|].
      destruct (writes w2) eqn:Ew; cbn [fst snd];
        (split; [exact Hopen|]); (split; [exists rest; exact Htr|]);
        exists w2; rewrite Ew; reflexivity.
    + left. cbn [fst snd]. split; [reflexivity|]. split; [reflexivity|].
      split; [exists msg; reflexivity | reflexivity].
  - destruct (Hnested w) as (state2 & w2 & E & Hopen & rest & Htr).
    fold state1. rewrite E. right.
    split; [left; reflexivity|].
    destruct (writes w2) eqn:Ew; cbn [fst snd];
      (split; [exact Hopen|]); (split; [exists rest; exact Htr|]);
      exists w2; rewrite Ew; reflexivity.
Qed.

(** X21. [closeTrade] answers false in three cases, and only in the
    first two the state of the symbol is as it was: there is nothing to
    close (an empty slot, or a type other than ['main'] and ['hedge']),
    and then nothing changes at all; the exchange refuses the request,
    and then nothing is recorded; or the write of the state file
    throws, and then the record of the close has been appended, first
    among the new records, and the slot cleared all the same.  When
    every write succeeds, [closeTrade] is the function of the same name
    above. *)
Theorem closeTrade_false_answers :
  forall (writes : World -> bool) (now : Z) (sym reason : string) (px : Q)
         (type : string) (state : SymbolState) (w : World),
    let r := closeTrade_writing config exchange writes now sym reason px type
               (state, w) in
    ((forall w0, writes w0 = true) ->
     r = closeTrade config exchange now sym reason px type (state, w))
    /\ (fst r = false ->
        match slotOf type state with
        | Some (Some t) =>
            (isRealTrade config = true
             /\ (exists msg, exchange (calls w) = Thrown msg)
             /\ fst (snd r) = state)
            \/ ((isRealTrade config = false
                 \/ exists id, exchange (calls w) = Returned id)
                /\ (exists w2, writes w2 = false)
                /\ slotOf type (fst (snd r)) = Some None
                /\ exists rest,
                     trades (fst (snd r))
                     = (trades state ++ recordOf t type reason px now :: rest)%list)
        | _ => r = (false, (state, w))
        end).
Proof.
  intros writes now sym reason px type state w r. subst r. split.
  - intros Hw. unfold closeTrade_writing, closeTrade.
    apply closeTrade_writing_body_always; [exact Hw|].
    intros a b c d e. apply closeTrade_writing_body_always; [exact Hw|].
    reflexivity.
  - unfold slotOf. destruct (String.eqb type "main") eqn:Em.
    + apply String.eqb_eq in Em. subst type.
      pose proof (closeTrade_writing_main writes now sym reason px state w)
        as Hm.
      cbv zeta in Hm.
      destruct (openTrade state) as [t|] eqn:Et; [|intros _; exact Hm].
      intros Hf.
      destruct Hm as [(_ & H1 & H2 & H3) | (H1 & H2 & H3 & w2 & H4)].
      * left. split; [exact H1|]. split; [exact H2 | exact H3].
      * right. split; [exact H1|].
        split; [exists w2; congruence|].
        cbn [String.eqb Ascii.eqb Bool.eqb]. rewrite H2.
        split; [reflexivity | exact H3].
    + destruct (String.eqb type "hedge") eqn:Eh.
      * apply String.eqb_eq in Eh. subst type.
        pose proof (closeTrade_writing_hedge writes now sym reason px state w)
          as Hh.
        cbv zeta in Hh.
        destruct (hedgeTrade state) as [t|] eqn:Et; [|intros _; exact Hh].
        intros Hf.
        destruct Hh as [(_ & H1 & H2 & H3) | (H1 & H2 & w2 & H3)].
        -- left. split; [exact H1|]. split; [exact H2 | exact H3].
        -- right. split; [exact H1|].
           split; [exists w2; congruence|].
           rewrite H2. cbn [String.eqb Ascii.eqb Bool.eqb].
           split; [reflexivity|]. exists []. reflexivity.
      * intros _. unfold closeTrade_writing, closeTrade_writing_body.
        rewrite Em, Eh. reflexivity.
Qed.

Variable sym : string.
Variable symbolConfig : SymbolConfig.

Lemma tickSymbol_quiet (candles : list Candle) (now : Z) (sw : Sys) :
  isRealTrade config = false ->
  quiet (snd sw)
        (snd (tickSymbol config exchange EMA RSI MACD_histogram SMA
                sym symbolConfig candles now sw)).
Proof.
  intros Hdemo. unfold tickSymbol.
  destruct (last candles) as [c|]; [|apply quiet_refl].
  assert (Hgrid : quiet (snd sw) (snd (gridManagement sym symbolConfig (close c) sw))).
  { destruct sw as [state w]. unfold gridManagement. cbv zeta.
    destruct (match gridAnchor state with Some _ => _ | None => _ end);
      cbn [snd]; [|apply quiet_refl].
    eapply quiet_trans; [apply quiet_alert | apply quiet_save]. }
  set (sw0 := gridManagement sym symbolConfig (close c) sw) in *.
  eapply quiet_trans; [exact Hgrid|]. clearbody sw0. clear Hgrid.
  destruct sw0 as [state w]. cbn [fst snd].
  destruct (openTrade state) as [t|].
  - unfold tradeManagement. cbv zeta.
    set (t1 := trackPrice (close c) t).
    set (p := profitPercent t1 (close c)).
    set (sw1 := (set_openTrade (Some t1) state, w)).
    assert (H1 : quiet w (snd (hedgingLogic config exchange sym symbolConfig
                                 (close c) now t1 p sw1))).
    { unfold hedgingLogic, sw1. rewrite Hdemo.
      destruct (hedgeTrade (set_openTrade (Some t1) state)); [apply quiet_refl|].
      destruct (leb p (- HEDGE_LOSS_PERCENT symbolConfig));
        [apply quiet_save_alert | apply quiet_refl]. }
    set (sw2 := hedgingLogic config exchange sym symbolConfig (close c) now t1 p sw1)
      in *.
    assert (H2 : quiet (snd sw2)
                   (snd (hedgeManagement config exchange sym symbolConfig
                           (close c) now sw2))).
    { destruct sw2 as [s2 w2]. unfold hedgeManagement. cbn [snd].
      destruct (hedgeTrade s2) as [h|]; [|apply quiet_refl].
      assert (Hstep : forall h1 w1,
                quiet w2 w1 ->
                quiet w2
                  (snd match stopLossPrice h1 with
                       | Some stop =>
                           if truthy stop && stopCrossed h1 (close c) stop
                           then snd (closeTrade config exchange now sym
                                       "HEDGE_SL_HIT" (close c) "hedge"
                                       (set_hedgeTrade (Some h1) s2, w1))
                           else (set_hedgeTrade (Some h1) s2, w1)
                       | None => (set_hedgeTrade (Some h1) s2, w1)
                       end)).
      { intros h1 w1 Hq.
        destruct (stopLossPrice h1) as [stop|]; [|exact Hq].
        destruct (truthy stop && stopCrossed h1 (close c) stop); [|exact Hq].
        eapply quiet_trans; [exact Hq|].
        exact (closeTrade_hedge_quiet now sym "HEDGE_SL_HIT" (close c)
                 (set_hedgeTrade (Some h1) s2, w1) Hdemo). }
      destruct (geb (profitPercent h (close c)) (HEDGE_TP_PERCENT symbolConfig)
                && negb (truthy_opt (stopLossPrice h)));
        cbv beta iota zeta; apply Hstep;
        [apply quiet_save_alert | apply quiet_refl]. }
    set (sw3 := hedgeManagement config exchange sym symbolConfig (close c) now sw2)
      in *.
    assert (H3 : quiet (snd sw3) (snd (snd (mainProtection sym symbolConfig p t1 sw3)))).
    { destruct sw3 as [s3 w3]. unfold mainProtection.
      destruct (gtb p (MAIN_PROTECTION_START symbolConfig)
                && negb (truthy_opt (stopLossPrice t1)));
        [apply quiet_save_alert | apply quiet_refl]. }
    destruct (mainProtection sym symbolConfig p t1 sw3) as [t4 sw4].
    cbn [snd] in H3.
    eapply quiet_trans; [exact H1|]. eapply quiet_trans; [exact H2|].
    eapply quiet_trans; [exact H3|].
    unfold mainTakeProfitStopLoss.
    destruct (geb p (MAIN_TP_PERCENT symbolConfig));
      [apply closeTrade_main_quiet, Hdemo|].
    destruct (stopLossPrice t4) as [stop|]; [|apply quiet_refl].
    destruct (truthy stop && _); [|apply quiet_refl].
    apply closeTrade_main_quiet, Hdemo.
  - unfold tradeEntry. rewrite Hdemo.
    destruct (fst (multiFactorEntry EMA RSI MACD_histogram SMA candles));
      [|apply quiet_refl].
    destruct (ltb (entrySize symbolConfig (close c)) (minLotOf sym)); cbn [snd].
    + eapply quiet_trans; [apply quiet_alert | apply quiet_save_alert].
    + apply quiet_save_alert.
Qed.

End Requests.

(** ** One pass of the main loop *)

Section MainLoopFacts.
Import JS HedgeBot HedgeRun HedgeAudit.
Local Open Scope Q_scope.
Local Open Scope string_scope.

Variable config : Config.
Variable exchange : nat -> Outcome string.
Variable EMA : nat -> list Q -> list Q.
Variable RSI : nat -> list Q -> list Q.
Variable MACD_histogram : list Q -> list (option Q).
Variable SMA : nat -> list Q -> list Q.

Lemma grown_refl (m : gmap string SymbolState) : grown m m.
Proof.
  intros sym. destruct (m !! sym) as [s|]; [|exact I].
  exists []. symmetry. apply app_nil_r.
Qed.

Lemma grown_trans (m1 m2 m3 : gmap string SymbolState) :
  grown m1 m2 -> grown m2 m3 -> grown m1 m3.
Proof.
  intros H12 H23 sym. specialize (H12 sym). specialize (H23 sym).
  destruct (m1 !! sym) as [s1|], (m2 !! sym) as [s2|], (m3 !! sym) as [s3|];
    try contradiction; try exact I.
  destruct H12 as [n1 E1], H23 as [n2 E2]. exists (n1 ++ n2)%list.
  rewrite E2, E1, app_assoc. reflexivity.
Qed.

Lemma grown_insert (m : gmap string SymbolState) (k : string)
    (s s' : SymbolState) :
  m !! k = Some s ->
  (exists new, trades s' = (trades s ++ new)%list) ->
  grown m (<[k := s']> m).
Proof.
  intros Hk Hnew sym. rewrite lookup_insert. case_decide as E.
  - subst sym. rewrite Hk. exact Hnew.
  - destruct (m !! sym) as [s0|]; [|exact I].
    exists []. symmetry. apply app_nil_r.
Qed.

Lemma tickSymbol_grows (sym : string) (symbolConfig : SymbolConfig)
    (candles : list Candle) (now : Z) (sw : Sys) :
  exists new,
    trades (fst (tickSymbol config exchange EMA RSI MACD_histogram SMA
                   sym symbolConfig candles now sw))
    = (trades (fst sw) ++ new)%list.
Proof.
  destruct (last candles) as [c|] eqn:Hc.
  - destruct (tickSymbol_audit config exchange EMA RSI MACD_histogram SMA
                sym symbolConfig candles c now sw Hc) as ((new & E & _) & _).
    exists new. exact E.
  - rewrite (tickSymbol_no_candle config exchange EMA RSI MACD_histogram SMA
               sym symbolConfig candles now sw Hc).
    exists []. symmetry. apply app_nil_r.
Qed.

(** The symbols for which [fetchKlines] yields no candle. *)
Lemma fetchKlines_quiet (feed : string -> Outcome (list Candle)) (sym : string)
    (w : World) :
  quiet w (snd (fetchKlines feed sym w)).
Proof.
  unfold fetchKlines. destruct (feed sym); [apply quiet_refl | apply quiet_alert].
Qed.

Lemma mainLoop_unfold (feed : string -> Outcome (list Candle)) (now : Z)
    (all : gmap string SymbolState * World) :
  mainLoop config exchange EMA RSI MACD_histogram SMA feed now all
  = if negb (BOT_RUNNING config) then all
    else fold_left (symbolStep config exchange EMA RSI MACD_histogram SMA feed now)
                   (SYMBOLS config) all.
Proof. reflexivity. Qed.

Lemma mainLoop_fold (feed : string -> Outcome (list Candle)) (now : Z)
    (entries : list (string * SymbolConfig))
    (m : gmap string SymbolState) (w : World) :
  let r :=
    fold_left (symbolStep config exchange EMA RSI MACD_histogram SMA feed now)
              entries (m, w) in
  grown m (fst r)
  /\ (forall sym,
        ~ In sym (map fst entries) \/ fst (fetchKlines feed sym w) = [] ->
        fst r !! sym = m !! sym)
  /\ (isRealTrade config = false -> quiet w (snd r)).
Proof.
  revert m w. induction entries as [|[sym symbolConfig] entries IH];
    intros m w; cbn [fold_left map]; cbv zeta.
  { split; [apply grown_refl|]. split; [reflexivity | intros _; apply quiet_refl]. }
  assert (Hfetch : forall sym0 w0,
            fst (fetchKlines feed sym0 w0) = fst (fetchKlines feed sym0 w)).
  { intros sym0 w0. unfold fetchKlines. destruct (feed sym0); reflexivity. }
  set (acc1 := symbolStep config exchange EMA RSI MACD_histogram SMA feed now
                 (m, w) (sym, symbolConfig)).
  assert (Hacc : grown m (fst acc1)
                 /\ (forall sym0,
                       sym0 <> sym \/ fst (fetchKlines feed sym0 w) = [] ->
                       fst acc1 !! sym0 = m !! sym0)
                 /\ (isRealTrade config = false -> quiet w (snd acc1))).
  { subst acc1. unfold symbolStep. cbn [fst snd].
    pose proof (fetchKlines_quiet feed sym w) as Hq.
    destruct (fetchKlines feed sym w) as [candles w1] eqn:Ef. cbn [snd] in Hq.
    destruct candles as [|c0 candles].
    { split; [apply grown_refl|]. split; [reflexivity | intros _; exact Hq]. }
    destruct (m !! sym) as [state|] eqn:Hst.
    2:{ split; [apply grown_refl|]. split; [reflexivity|].
        intros _. eapply quiet_trans; [exact Hq | apply quiet_alert]. }
    pose proof (tickSymbol_grows sym symbolConfig (c0 :: candles) now (state, w1))
      as Hgrow.
    pose proof (tickSymbol_quiet config exchange EMA RSI MACD_histogram SMA
                  sym symbolConfig (c0 :: candles) now (state, w1)) as Htq.
    destruct (tickSymbol _ _ _ _ _ _ _ _ _ _ _) as [state' w2].
    cbn [fst snd] in *.
    split; [apply (grown_insert m sym state state' Hst Hgrow)|].
    split.
    - intros sym0 [Hs | Hs].
      + rewrite lookup_insert_ne; [reflexivity|]. congruence.
      + rewrite lookup_insert. case_decide as E; [|reflexivity].
        subst sym0. rewrite Ef in Hs. discriminate.
    - intros Hdemo. eapply quiet_trans; [exact Hq | apply Htq, Hdemo]. }
  clearbody acc1. destruct acc1 as [m1 w1']. cbn [fst snd] in Hacc.
  destruct Hacc as (Hg & Hsame & Hquiet).
  destruct (IH m1 w1') as (Hg' & Hsame' & Hq'). cbv zeta in *.
  split; [eapply grown_trans; eassumption|].
  split.
  - intros sym0 Hs. rewrite Hsame'.
    + apply Hsame. destruct Hs as [Hs | Hs]; [left | right; exact Hs].
      intros ->. apply Hs. left. reflexivity.
    + destruct Hs as [Hs | Hs].
      * left. intros Hin. apply Hs. right. exact Hin.
      * right. rewrite Hfetch. exact Hs.
  - intros Hdemo. eapply quiet_trans; [apply Hquiet, Hdemo | apply Hq', Hdemo].
Qed.

(** X22. One pass of the main loop over the configured symbols: a
    stopped bot changes nothing; no symbol gains or loses its state, and
    the trade log of every symbol keeps its records and only grows; the
    state of a symbol that is not configured, or whose candles could not
    be fetched or are none, is left as it is. *)
Theorem mainLoop_frame :
  forall (feed : string -> Outcome (list Candle)) (now : Z)
         (symbolStates : gmap string SymbolState) (w : World),
    let r := mainLoop config exchange EMA RSI MACD_histogram SMA feed now
               (symbolStates, w) in
    (BOT_RUNNING config = false -> r = (symbolStates, w))
    /\ grown symbolStates (fst r)
    /\ (forall sym,
          ~ In sym (map fst (SYMBOLS config))
          \/ (exists message, feed sym = Thrown message)
          \/ feed sym = Returned [] ->
          fst r !! sym = symbolStates !! sym).
Proof.
  intros feed now symbolStates w r. subst r. rewrite mainLoop_unfold.
  destruct (BOT_RUNNING config) eqn:Erun; cbn [negb].
  2:{ split; [reflexivity|]. split; [apply grown_refl | reflexivity]. }
  destruct (mainLoop_fold feed now (SYMBOLS config) symbolStates w)
    as (Hg & Hsame & _).
  split; [discriminate|]. split; [exact Hg|].
  intros sym Hs. apply Hsame.
  destruct Hs as [Hs | [[message Hs] | Hs]]; [left; exact Hs | right | right];
    unfold fetchKlines; rewrite Hs; reflexivity.
Qed.

(** X23. A bot that does not trade for real (demo mode, or a missing API
    key or secret) sends no order request: through a tick of a symbol and
    through a pass of the main loop the number of requests and the order
    requests among the events are as they were, whatever the candles and
    the states. *)
Theorem demo_bot_sends_no_order :
  isRealTrade config = false ->
  (forall sym symbolConfig candles now sw,
     let w' := snd (tickSymbol config exchange EMA RSI MACD_histogram SMA
                      sym symbolConfig candles now sw) in
     calls w' = calls (snd sw)
     /\ ordersOf (events w') = ordersOf (events (snd sw)))
  /\ (forall feed now symbolStates w,
        let w' := snd (mainLoop config exchange EMA RSI MACD_histogram SMA
                         feed now (symbolStates, w)) in
        calls w' = calls w /\ ordersOf (events w') = ordersOf (events w)).
Proof.
  intros Hdemo. split.
  - intros sym symbolConfig candles now sw.
    apply (tickSymbol_quiet config exchange EMA RSI MACD_histogram SMA
             sym symbolConfig candles now sw Hdemo).
  - intros feed now symbolStates w. cbv zeta. rewrite mainLoop_unfold.
    destruct (negb (BOT_RUNNING config)); [split; reflexivity|].
    apply (mainLoop_fold feed now (SYMBOLS config) symbolStates w), Hdemo.
Qed.

End MainLoopFacts.

(** ** More worked inputs *)

Section MoreWorkedInputs.
Import JS GridBot BotRun Defaults BotAudit GridTrading WebUI Scenarios.
Import HedgeBot HedgeRun HedgeAudit.
Local Open Scope Q_scope.
Local Open Scope string_scope.

Lemma afterPrices_reachable (v : SourceFile) (demo : bool) (prices : list Q) :
  Reachable noRoot v (afterPrices v demo prices).
Proof. apply runCalls_reachable. constructor. Qed.

(** After the prices 100 and 103 the current price is the newest sample. *)
Lemma samples_bounded_and_current_witness :
  last (priceHistory (afterPrices part_000 false [100; 103]))
  = Some (currentPrice (afterPrices part_000 false [100; 103])).
Proof.
  destruct (samples_bounded_and_current noRoot part_000
              (afterPrices part_000 false [100; 103])
              (afterPrices_reachable part_000 false [100; 103]))
    as (_ & _ & _ & H).
  apply H. vm_compute. discriminate.
Defined.

(** One recorded price change: the volatility index is still zero. *)
Lemma volatility_zero_before_ten_changes_witness :
  volatilityIndex (afterPrices part_000 false [100; 103]) = 0
  /\ fst (detectMarketCondition part_000 CONFIG_part_000
            (afterPrices part_000 false [100; 103])) <> VOLATILE.
Proof.
  destruct (volatility_zero_before_ten_changes noRoot part_000 CONFIG_part_000
              (afterPrices part_000 false [100; 103])
              (afterPrices_reachable part_000 false [100; 103]))
    as (H1 & _ & H2).
  - vm_compute. lia.
  - vm_compute. discriminate.
  - split; assumption.
Defined.

Lemma support_below_price_below_resistance_witness :
  calculateSupport (afterPrices server_js false [100; 103]) <= 103
  /\ 103 <= calculateResistance (afterPrices server_js false [100; 103]).
Proof.
  apply (support_below_price_below_resistance noRoot server_js
           (afterPrices server_js false [100; 103])
           (afterPrices_reachable server_js false [100; 103])).
  vm_compute. discriminate.
Defined.

(** A demo instance stays a demo instance when the ticker answers. *)
Lemma demo_mode_is_permanent_witness :
  useDemo (afterPrices server_js true [100; 103]) = true.
Proof.
  apply (demo_mode_is_permanent noRoot server_js
           (map (fun p => (CONFIG_part_000, CallGetCurrentPrice (Some p) 0))
                [100; 103])
           (constructor 0 true)).
  reflexivity.
Defined.

(** After 100 and 103 the low of 100 lies 1.8% below 103 and more: the
    method asks for a buy at 103 x 0.999. *)
Lemma executeDCA_buys_after_a_rebound_witness :
  exists x,
    In x (removelast (slice (-5) None
                        (priceHistory (afterPrices part_000 false [100; 103]))))
    /\ x <= currentPrice (afterPrices part_000 false [100; 103])
            * (1 - DCA_PERCENTAGE TRADE_CONFIG_part_000)
    /\ x < currentPrice (afterPrices part_000 false [100; 103]).
Proof.
  apply (executeDCA_buys_after_a_rebound noRoot part_000 CONFIG_part_000
           TRADE_CONFIG_part_000 (afterPrices part_000 false [100; 103])
           (currentPrice (afterPrices part_000 false [100; 103]) * 0.999)
           (calculateOrderQuantity CONFIG_part_000
              (afterPrices part_000 false [100; 103])
              (currentPrice (afterPrices part_000 false [100; 103])) * 0.6)
           (afterPrices_reachable part_000 false [100; 103])).
  - vm_compute. reflexivity.
  - vm_compute. reflexivity.
  - vm_compute. reflexivity.
Defined.

(** The twelve levels of [part_000] around 100 with an ATR of 5: the
    level of index 6 is the price itself and is left out. *)
Lemma generated_grid_shape_witness :
  (length (fst (generateGridLevels part_000 CONFIG_part_000 volatileBot)) < 12)%nat.
Proof.
  assert (Hp : ~ currentPrice volatileBot == 0) by (vm_compute; discriminate).
  assert (Hs : 0 < calculateDynamicGridSpacing part_000 CONFIG_part_000 volatileBot)
    by (vm_compute; reflexivity).
  destruct (generated_grid_shape part_000 CONFIG_part_000 volatileBot Hp Hs)
    as (_ & _ & H & _).
  apply (H 6%nat); [reflexivity | lia].
Defined.

Lemma generated_levels_sell_above_buy_witness :
  buyPrice (firstLevel (fst (generateGridLevels part_000 CONFIG_part_000 volatileBot)))
  <= sellPrice (firstLevel (fst (generateGridLevels part_000 CONFIG_part_000 volatileBot))).
Proof.
  apply (generated_levels_sell_above_buy part_000 CONFIG_part_000 volatileBot
           (firstLevel (fst (generateGridLevels part_000 CONFIG_part_000 volatileBot)))).
  - simpl. lia.
  - vm_compute. discriminate.
  - vm_compute. reflexivity.
  - vm_compute. discriminate.
  - vm_compute. left. reflexivity.
Defined.

(** A demo instance of [server.js] before its first price: the ATR is
    1% of the price 0. *)
Lemma calculateATR_not_negative_witness :
  0 <= 0 * 0.01
  /\ atr (snd (calculateATR noRoot server_js CONFIG_server (klinesOf [])
                 (constructor 0 true))) = 0 * 0.01.
Proof.
  apply (calculateATR_not_negative noRoot server_js CONFIG_server (klinesOf [])
           (constructor 0 true)
           (snd (calculateATR noRoot server_js CONFIG_server (klinesOf [])
                   (constructor 0 true)))
           (0 * 0.01)).
  - simpl. lia.
  - vm_compute. discriminate.
  - reflexivity.
Defined.

(** A demo bot whose state file cannot be written closes the main
    position entered at 100: the answer is false and the slot is
    cleared. *)
Lemma closeTrade_false_answers_witness :
  slotOf "main"
    (fst (snd (closeTrade_writing demoConfig acceptingExchange (fun _ => false)
                 3%Z "BTCUSDT" "MAIN_TP_50%" 150 "main"
                 (fst (holding (longAt 100)), freshWorld))))
  = Some None.
Proof.
  destruct (closeTrade_false_answers demoConfig acceptingExchange
              (fun _ => false) 3%Z "BTCUSDT" "MAIN_TP_50%" 150 "main"
              (fst (holding (longAt 100))) freshWorld) as [_ H].
  destruct (H eq_refl) as [(Hreal & _) | (_ & _ & Hs & _)].
  - vm_compute in Hreal. discriminate Hreal.
  - exact Hs.
Defined.

(** Two calls entered at 49 of 50 before any answer: the counter and
    the requests in flight stay within 51 along the way. *)
Lemma daily_trades_overshoot_witness :
  Forall (fun t => (dailyTrades (account t) + inFlight t
                    <= Nat.max (49 + 0) (50 + 2 - 1))%nat)
         (schedule twoCallsAtOnce oneBelowTheCap).
Proof.
  destruct (daily_trades_overshoot part_000 TRADE_CONFIG_part_000
              acceptingSubmit demoIds twoCallsAtOnce oneBelowTheCap 2 50)
    as (H & _).
  - repeat constructor.
  - exact H.
Defined.

(** Two calls at a time pass the cap of 50 by one. *)
Lemma daily_cap_passed_by_calls_in_flight_witness :
  exists (gs : list Piece) (s : Flows),
    inFlight s = 0%nat
    /\ maxDailyTrades s = 50%nat
    /\ (dailyTrades (account s) < 50)%nat
    /\ Forall (within 2 50) (schedule gs s)
    /\ dailyTrades (account (scheduled gs s)) = 51%nat.
Proof.
  apply (daily_cap_passed_by_calls_in_flight 2 50); lia.
Defined.

(** A long position entered at 100 and a last close of 90: the loss of
    10% opens a hedge on the side ['sell'], entered at 90. *)
Lemma hedge_opens_at_the_loss_threshold_witness :
  profitPercent (longAt 100) 90 <= - HEDGE_LOSS_PERCENT BTCUSDT_config.
Proof.
  destruct (hedge_opens_at_the_loss_threshold demoConfig acceptingExchange
              bullishEMA bullishRSI bullishMACD flatSMA "BTCUSDT" BTCUSDT_config
              (candlesAt 90) {| close := 90; volume := 2 |} 1%Z
              (holding (longAt 100))
              {| side := "sell"; entryPx := 90; size := 1; openTime := 1;
                 orderId := None; isHedge := true; stopLossPrice := None;
                 maxPrice := None; minPrice := None |})
    as (t & Ht & Hp & _).
  - reflexivity.
  - intros t H. injection H as <-. vm_compute. discriminate.
  - reflexivity.
  - vm_compute. reflexivity.
  - injection Ht as <-. exact Hp.
Defined.

(** From the empty state the hedge slot never holds a position with the
    side of a main position. *)
Lemma order_sided_hedge_is_never_stopped_witness :
  hedgeIsOrderSided
    (fst (runTicks demoConfig acceptingExchange bullishEMA bullishRSI
            bullishMACD flatSMA "BTCUSDT" BTCUSDT_config
            [(candlesAt 100, 1%Z); (candlesAt 90, 2%Z)]
            (emptyState, freshWorld))).
Proof.
  apply (order_sided_hedge_is_never_stopped demoConfig acceptingExchange
           bullishEMA bullishRSI bullishMACD flatSMA "BTCUSDT" BTCUSDT_config
           [(candlesAt 100, 1%Z); (candlesAt 90, 2%Z)] (emptyState, freshWorld)).
  intros h H. discriminate H.
Defined.

(** The first tick of a symbol anchors the grid at the last close. *)
Lemma grid_trails_the_price_witness :
  exists anchor,
    gridAnchor (fst (demoTick BTCUSDT_config (candlesAt 100, 1%Z)
                       (emptyState, freshWorld))) = Some anchor
    /\ (anchor = 100
        \/ (~ anchor == 0
            /\ Qabs (100 / anchor - 1)
               <= or_default (GRID_TRAIL_THRESHOLD BTCUSDT_config) 0.01)).
Proof.
  apply (grid_trails_the_price demoConfig acceptingExchange bullishEMA bullishRSI
           bullishMACD flatSMA "BTCUSDT" BTCUSDT_config
           (candlesAt 100) {| close := 100; volume := 2 |} 1%Z
           (emptyState, freshWorld)).
  reflexivity.
Defined.

(** An entry at 50,000 on the sample signal: a long position of the
    minimum lot of BTCUSDT or more. *)
Lemma entry_at_least_the_minimum_lot_witness :
  match openTrade (fst (demoTick BTCUSDT_config (candlesAt 50000, 1%Z)
                          (emptyState, freshWorld))) with
  | Some t => minLotOf "BTCUSDT" <= size t
  | None => False
  end.
Proof.
  destruct (openTrade (fst (demoTick BTCUSDT_config (candlesAt 50000, 1%Z)
                              (emptyState, freshWorld)))) as [t|] eqn:E.
  - apply (entry_at_least_the_minimum_lot demoConfig acceptingExchange
             bullishEMA bullishRSI bullishMACD flatSMA "BTCUSDT" BTCUSDT_config
             (candlesAt 50000) {| close := 50000; volume := 2 |} 1%Z
             (emptyState, freshWorld) t).
    + reflexivity.
    + vm_compute. discriminate.
    + reflexivity.
    + exact E.
  - vm_compute in E. discriminate E.
Defined.

(** The demo configuration sends no order on an entry. *)
Lemma demo_bot_sends_no_order_witness :
  calls (snd (demoTick BTCUSDT_config (candlesAt 50000, 1%Z)
                (emptyState, freshWorld))) = 0%nat.
Proof.
  destruct (demo_bot_sends_no_order demoConfig acceptingExchange bullishEMA
              bullishRSI bullishMACD flatSMA eq_refl) as (H & _).
  apply (H "BTCUSDT" BTCUSDT_config (candlesAt 50000) 1%Z (emptyState, freshWorld)).
Defined.

(** A sell order of a level bought at 99, filled at 101 on a fresh
    desk: the books agree. *)
Lemma books_agree_witness :
  booksAgree
    (fst (ops part_000 CONFIG_part_000 TRADE_CONFIG_part_000 acceptingSubmit
            demoIds [OpHandleFilledOrder (sellOrderOf 99 101 1) 101 1]
            freshDesk))
  /\ ratesAgree
       (fst (ops part_000 CONFIG_part_000 TRADE_CONFIG_part_000 acceptingSubmit
               demoIds [OpHandleFilledOrder (sellOrderOf 99 101 1) 101 1]
               freshDesk)).
Proof.
  apply (books_agree part_000 CONFIG_part_000 TRADE_CONFIG_part_000
           acceptingSubmit demoIds
           [OpHandleFilledOrder (sellOrderOf 99 101 1) 101 1] freshDesk).
  - unfold booksAgree. cbn. repeat split; try lia; vm_compute; discriminate.
  - unfold ratesAgree. cbn. repeat split; try lia; vm_compute; discriminate.
Defined.

(** The orders of the generated grid, all reported as filled: each
    forgotten order is one more trade. *)
Lemma monitorOrders_accounting_witness :
  (totalTrades (monitorOrders part_000 griddedBot noActiveOrders allFilled
                  (fun _ => 1%Q) afterGridOrders)
   + length (orders (monitorOrders part_000 griddedBot noActiveOrders allFilled
                       (fun _ => 1%Q) afterGridOrders))
   = totalTrades afterGridOrders + length (orders afterGridOrders))%nat.
Proof.
  destruct (monitorOrders_accounting part_000 CONFIG_part_000
              TRADE_CONFIG_part_000 acceptingSubmit demoIds
              [OpPlaceGridOrders griddedBot] freshDesk griddedBot
              noActiveOrders allFilled (fun _ => 1%Q) eq_refl)
    as (_ & _ & _ & H & _).
  exact H.
Defined.

(** The orders of the generated grid are buy and sell orders. *)
Lemma order_statistics_add_up_witness :
  typedOrders (orders afterGridOrders).
Proof.
  destruct (order_statistics_add_up part_000 CONFIG_part_000
              TRADE_CONFIG_part_000 acceptingSubmit demoIds
              [OpPlaceGridOrders griddedBot] freshDesk eq_refl)
    as (H & _).
  exact H.
Defined.

(** A demo instance that tracks one sell order, of a level that buys
    at 99 and sells at 101, filled by the first draw: the gain of 2 is
    booked. *)
Lemma demo_fills_never_lose_witness :
  profitLoss (trackingSell "demo" 99 101 1)
  <= profitLoss
       (monitorOrders server_js (afterPrices server_js true [100])
          (Thrown "offline") (fun _ => Thrown "offline") (fun _ => 0)
          (trackingSell "demo" 99 101 1)).
Proof.
  apply (demo_fills_never_lose server_js (afterPrices server_js true [100])
           (Thrown "offline") (fun _ => Thrown "offline") (fun _ => 0)
           (trackingSell "demo" 99 101 1)).
  - reflexivity.
  - unfold booksAgree. cbn. repeat split; try lia; vm_compute; discriminate.
  - repeat constructor; vm_compute; discriminate.
Defined.

End MoreWorkedInputs.
